(** * Long-poll room server of [server.js]: rooms, sessions, broadcast,
    parked polls and the reaper, as a shallow embedding.

    The server owns five pieces of mutable state, all JavaScript [Map]s or
    timer handles, and every HTTP handler runs to completion on the event
    loop.  We therefore model the server as a record [state] threaded through
    one Rocq function per handler.  [res.json(...)] calls are appended to the
    [out] log of the state, so a response sent to a parked poll by another
    handler is visible as an entry of that log. *)

From Stdlib Require Import String Ascii List ZArith Lia Bool.
Import ListNotations.
Open Scope string_scope.

(** ** JavaScript [Map] as an insertion-ordered association list.
    [get], [set], [delete] act on the first entry with the key, the only one
    a JavaScript [Map] can hold; [set] on a new key appends at the end, which
    is the iteration order of [Map.prototype.entries]. *)
Section JsMap.
Context {V : Type}.

Fixpoint mget (k : string) (m : list (string * V)) : option V :=
  match m with
  | [] => None
  | (k', v) :: m' => if String.eqb k k' then Some v else mget k m'
  end.

Definition mhas (k : string) (m : list (string * V)) : bool :=
  match mget k m with Some _ => true | None => false end.

Fixpoint mupd (k : string) (f : V -> V) (m : list (string * V)) :=
  match m with
  | [] => []
  | (k', v) :: m' =>
      if String.eqb k k' then (k', f v) :: m' else (k', v) :: mupd k f m'
  end.

Definition mset (k : string) (v : V) (m : list (string * V)) :=
  if mhas k m then mupd k (fun _ => v) m else app m [(k, v)].

Fixpoint mdel (k : string) (m : list (string * V)) :=
  match m with
  | [] => []
  | (k', v) :: m' => if String.eqb k k' then m' else (k', v) :: mdel k m'
  end.
End JsMap.

(** ** Request bodies and events *)

(** A field of a JSON request body: absent, a string, or any other JSON
    value (number, boolean, object, ...), which [safeText] treats alike. *)
Inductive jfield := JMissing | JString (s : string) | JOther.

Record user := { uid : string; uname : string }.

(** [roomSnapshot]'s result [{ room, users, count }]. *)
Record snapshot := { sroom : string; susers : list user; scount : nat }.

Inductive event :=
| EHello (clientId : string)
| ECreated (room clientId : string)
| EJoined (room clientId : string)
| EPresence (snap : snapshot)
| EMsg (room from fromName text : string) (ts : Z).

(** [{ name, lastSeen, events }] *)
Record client := { name : string; lastSeen : Z; events : list event }.

(** [{ clients: Map<clientId, client>, createdAt }] *)
Record room := { clients : list (string * client); createdAt : Z }.

(** An HTTP request together with its [res] object: [rid] tells requests
    apart, [rcid] is the [clientId] of the query string (used by polls). *)
Record request := { rid : nat; rcid : string }.

Definition req_eqb (a b : request) : bool :=
  Nat.eqb (rid a) (rid b) && String.eqb (rcid a) (rcid b).

(** The JSON bodies the room API sends. *)
Inductive body :=
| BEvents (evs : list event)                 (* [{ events }] *)
| BError (status : Z) (msg : string)         (* [res.status(st).json({ error })] *)
| BOk                                        (* [{ ok: true }] *)
| BRoom (clientId : string) (snap : snapshot). (* [{ ok, clientId, room, users, count }] *)

(** The server state: [rooms], [pendingPolls] (each [{ res, timer }]; the
    timer of a parked poll is named by its request), the armed poll timers,
    [clientRooms], and the log of responses sent. *)
Record state := mkState {
  rooms : list (string * room);
  pendingPolls : list (string * request);
  timers : list request;
  clientRooms : list (string * string);
  out : list (request * body)
}.

Definition init : state := mkState [] [] [] [] [].

Definition set_rooms f s :=
  mkState (f (rooms s)) (pendingPolls s) (timers s) (clientRooms s) (out s).
Definition set_pending f s :=
  mkState (rooms s) (f (pendingPolls s)) (timers s) (clientRooms s) (out s).
Definition set_timers f s :=
  mkState (rooms s) (pendingPolls s) (f (timers s)) (clientRooms s) (out s).
Definition set_clientRooms f s :=
  mkState (rooms s) (pendingPolls s) (timers s) (f (clientRooms s)) (out s).

(** [res.json(b)] *)
Definition respond (rq : request) (b : body) (s : state) : state :=
  mkState (rooms s) (pendingPolls s) (timers s) (clientRooms s) (app (out s) [(rq, b)]).

(** [clearTimeout(timer)] *)
Definition clearTimeout (rq : request) (s : state) : state :=
  set_timers (filter (fun t => negb (req_eqb t rq))) s.

(** ** Constants and [safeText] *)

Definition MAX_MSG_CHARS : nat := 1000.
Definition CLIENT_TIMEOUT_MS : Z := 60000.
#[warning="-abstract-large-number"]
Definition ROOM_CODE_ATTEMPTS : nat := 10000.

(** [String.prototype.trim] on the code units 0..255 the model's strings
    carry: tab, LF, VT, FF, CR, space and no-break space. *)
Definition is_js_space (a : ascii) : bool :=
  let n := nat_of_ascii a in
  Nat.eqb n 9 || Nat.eqb n 10 || Nat.eqb n 11 || Nat.eqb n 12 || Nat.eqb n 13
  || Nat.eqb n 32 || Nat.eqb n 160.

Fixpoint drop_space (l : list ascii) : list ascii :=
  match l with
  | [] => []
  | a :: l' => if is_js_space a then drop_space l' else l
  end.

Definition trim (s : string) : string :=
  string_of_list_ascii
    (rev (drop_space (rev (drop_space (list_ascii_of_string s))))).

Definition safeText (f : jfield) : string :=
  match f with
  | JString s =>
      let trimmed := trim s in
      if String.eqb trimmed "" then "" else substring 0 MAX_MSG_CHARS trimmed
  | _ => ""
  end.

(** [safeText(x) || 'User'] *)
Definition or_user (s : string) : string := if String.eqb s "" then "User" else s.

(** ** Room codes *)

Definition is_digit (a : ascii) : bool :=
  let n := nat_of_ascii a in Nat.leb 48 n && Nat.leb n 57.

(** [/^[0-9]{5}$/.test(code)] *)
Definition regex_5digits (code : string) : bool :=
  match list_ascii_of_string code with
  | [a; b; c; d; e] => is_digit a && is_digit b && is_digit c && is_digit d && is_digit e
  | _ => false
  end.

(** [String(n)] for a natural number: its decimal digits. *)
Fixpoint decimal_aux (fuel n : nat) (acc : string) : string :=
  match fuel with
  | O => acc
  | S f =>
      let acc' := String (ascii_of_nat (48 + n mod 10)) acc in
      if Nat.ltb n 10 then acc' else decimal_aux f (n / 10) acc'
  end.

Definition String_of_nat (n : nat) : string := decimal_aux (S n) n "".

(** [makeRoomCode()]: [rnd] is the stream of values of
    [Math.floor(Math.random() * 10)]; call number [i] reads [rnd (5*i+j)]. *)
Definition makeRoomCode (rnd : nat -> nat) (i : nat) : string :=
  fold_left (fun code j => code ++ String_of_nat (rnd (5 * i + j))) (seq 0 5) "".

Definition new_room (now : Z) : room := {| clients := []; createdAt := now |}.

(** The loop [for (let i = 0; i < 10000; i++)] of [createRoom]. *)
Fixpoint try_codes (rnd : nat -> nat) (i fuel : nat) (now : Z)
    (rs : list (string * room)) : option (string * list (string * room)) :=
  match fuel with
  | O => None
  | S f =>
      let code := makeRoomCode rnd i in
      if mhas code rs then try_codes rnd (S i) f now rs
      else Some (code, mset code (new_room now) rs)
  end.

(** [createRoom(requested)]: an error message ([throw]) or the new code
    together with the updated [rooms]. *)
Definition createRoom (requested : string) (rnd : nat -> nat) (now : Z)
    (rs : list (string * room)) : string + (string * list (string * room)) :=
  if negb (String.eqb requested "") then
    let code := requested in
    if negb (Nat.eqb (String.length code) 5) || negb (regex_5digits code)
    then inl "Room code must be 5 digits."
    else if mhas code rs then inl "Room code already in use."
    else inr (code, mset code (new_room now) rs)
  else
    match try_codes rnd 0 ROOM_CODE_ATTEMPTS now rs with
    | Some r => inr r
    | None => inl "Could not create room"
    end.

(** [([id, c]) => ({ id, name: c.name })] *)
Definition user_of_entry (e : string * client) : user :=
  {| uid := fst e; uname := name (snd e) |}.

(** [roomSnapshot(roomCode)] *)
Definition roomSnapshot (code : string) (rs : list (string * room)) : option snapshot :=
  match mget code rs with
  | None => None
  | Some r =>
      let users := map user_of_entry (clients r) in
      Some {| sroom := code; susers := users; scount := length users |}
  end.

(** ** Client objects inside rooms *)

Definition upd_client (code id : string) (f : client -> client) (s : state) : state :=
  set_rooms (mupd code (fun r => {| clients := mupd id f (clients r);
                                    createdAt := createdAt r |})) s.

(** [client.events.push(e)] *)
Definition push_event (code id : string) (e : event) (s : state) : state :=
  upd_client code id
    (fun c => {| name := name c; lastSeen := lastSeen c; events := app (events c) [e] |}) s.

(** [client.events.splice(0)] leaves the queue empty. *)
Definition clear_events (c : client) : client :=
  {| name := name c; lastSeen := lastSeen c; events := [] |}.

Definition set_lastSeen (now : Z) (c : client) : client :=
  {| name := name c; lastSeen := now; events := events c |}.

(** [room.clients.delete(id)] *)
Definition del_client (code id : string) (s : state) : state :=
  set_rooms (mupd code (fun r => {| clients := mdel id (clients r);
                                    createdAt := createdAt r |})) s.

Definition room_size (code : string) (s : state) : nat :=
  match mget code (rooms s) with Some r => length (clients r) | None => 0 end.

(** ** [flushClient] and [broadcast] *)

(** The search of [flushClient]: the first room (in [rooms] order) whose
    client [id] has a non-empty queue. *)
Fixpoint find_events (id : string) (rs : list (string * room))
    : option (string * list event) :=
  match rs with
  | [] => None
  | (code, r) :: rs' =>
      match mget id (clients r) with
      | Some c =>
          match events c with
          | [] => find_events id rs'
          | evs => Some (code, evs)
          end
      | None => find_events id rs'
      end
  end.

Definition flushClient (id : string) (s : state) : state :=
  match mget id (pendingPolls s) with
  | None => s
  | Some p =>
      match find_events id (rooms s) with
      | None => s
      | Some (code, evs) =>
          respond p (BEvents evs)
            (upd_client code id clear_events
               (set_pending (mdel id) (clearTimeout p s)))
      end
  end.

(** The loop over [room.clients.entries()]: the handlers never add or remove
    members while it runs, so it visits the keys present at its start. *)
Fixpoint broadcast_ids (code : string) (e : event) (ids : list string) (s : state) : state :=
  match ids with
  | [] => s
  | id :: ids' => broadcast_ids code e ids' (flushClient id (push_event code id e s))
  end.

Definition broadcast (code : string) (e : event) (s : state) : state :=
  match mget code (rooms s) with
  | None => s
  | Some r => broadcast_ids code e (map fst (clients r)) s
  end.

(** [broadcast(roomCode, { type: 'presence', ...roomSnapshot(roomCode) })] *)
Definition broadcast_presence (code : string) (s : state) : state :=
  match roomSnapshot code (rooms s) with
  | Some sn => broadcast code (EPresence sn) s
  | None => s
  end.

(** Cancelling a parked poll as [leave] and [cleanup] do:
    [clearTimeout(pending.timer); pendingPolls.delete(clientId)]. *)
Definition cancel_pending (id : string) (s : state) : state :=
  match mget id (pendingPolls s) with
  | Some p => set_pending (mdel id) (clearTimeout p s)
  | None => s
  end.

(** ** Sessions *)

(** [room.clients.set(clientId, { name, lastSeen: now, events: [] });
     clientRooms.set(clientId, roomCode)] *)
Definition register (code cid nm : string) (now : Z) (s : state) : state :=
  set_clientRooms (mset cid code)
    (set_rooms (mupd code (fun r =>
       {| clients := mset cid {| name := nm; lastSeen := now; events := [] |} (clients r);
          createdAt := createdAt r |})) s).

(** [const roomCode = clientRooms.get(clientId);
     if (!roomCode || !rooms.has(roomCode)) ...; rooms.get(roomCode)] *)
Definition lookup_session (cid : string) (s : state) : option (string * room) :=
  match mget cid (clientRooms s) with
  | Some code =>
      if String.eqb code "" then None
      else match mget code (rooms s) with
           | Some r => Some (code, r)
           | None => None
           end
  | None => None
  end.

(** ** The five endpoints *)

(** [POST /api/room/create]; [cid] is the value of [randId(10)]. *)
Definition create_handler (rq : request) (cid : string) (nameF roomF : jfield)
    (rnd : nat -> nat) (now : Z) (s : state) : state :=
  let nm := or_user (safeText nameF) in
  match createRoom (safeText roomF) rnd now (rooms s) with
  | inl msg => respond rq (BError 400 msg) s
  | inr (code, rs) =>
      let s1 := register code cid nm now (set_rooms (fun _ => rs) s) in
      let s2 := push_event code cid (ECreated code cid)
                  (push_event code cid (EHello cid) s1) in
      match roomSnapshot code (rooms s2) with
      | Some sn => respond rq (BRoom cid sn) (push_event code cid (EPresence sn) s2)
      | None => respond rq (BError 500 "Internal Server Error") s2
      end
  end.

(** [POST /api/room/join]; [cid] is the value of [randId(10)]. *)
Definition join_handler (rq : request) (cid : string) (roomF nameF : jfield)
    (now : Z) (s : state) : state :=
  let roomCode := safeText roomF in
  if String.eqb roomCode "" || negb (Nat.eqb (String.length roomCode) 5)
     || negb (regex_5digits roomCode)
  then respond rq (BError 400 "Room code must be 5 digits.") s
  else
    match mget roomCode (rooms s) with
    | None => respond rq (BError 404 "Room not found.") s
    | Some _ =>
        let nm := or_user (safeText nameF) in
        let s1 := register roomCode cid nm now s in
        let s2 := push_event roomCode cid (EJoined roomCode cid)
                    (push_event roomCode cid (EHello cid) s1) in
        match roomSnapshot roomCode (rooms s2) with
        | Some sn => respond rq (BRoom cid sn) (broadcast roomCode (EPresence sn) s2)
        | None => respond rq (BError 500 "Internal Server Error") s2
        end
    end.

(** [POST /api/room/leave] *)
Definition leave_handler (rq : request) (cid : string) (s : state) : state :=
  match lookup_session cid s with
  | Some (code, _) =>
      let s1 := cancel_pending cid (set_clientRooms (mdel cid) (del_client code cid s)) in
      let s2 := if Nat.ltb 0 (room_size code s1) then broadcast_presence code s1
                else set_rooms (mdel code) s1 in
      respond rq BOk s2
  | None => respond rq BOk s
  end.

(** [POST /api/room/send] *)
Definition send_handler (rq : request) (cid : string) (textF : jfield) (now : Z)
    (s : state) : state :=
  let text := safeText textF in
  if String.eqb text "" then respond rq (BError 400 "No text provided.") s
  else
    match lookup_session cid s with
    | None => respond rq (BError 400 "Not in a room.") s
    | Some (code, r) =>
        match mget cid (clients r) with
        | None => respond rq (BError 400 "Client not found.") s
        | Some c => respond rq BOk (broadcast code (EMsg code cid (name c) text now) s)
        end
    end.

(** [GET /api/room/poll?clientId=...]: answers at once, or parks the
    request after arming its 30 s timer and answering a poll it supersedes. *)
Definition poll_handler (rq : request) (now : Z) (s : state) : state :=
  let cid := rcid rq in
  match lookup_session cid s with
  | None => respond rq (BError 400 "Not in a room.") s
  | Some (code, r) =>
      match mget cid (clients r) with
      | None => respond rq (BError 400 "Client not found.") s
      | Some c =>
          let s1 := upd_client code cid (set_lastSeen now) s in
          match events c with
          | _ :: _ => respond rq (BEvents (events c)) (upd_client code cid clear_events s1)
          | [] =>
              let s2 := set_timers (fun t => app t [rq]) s1 in
              let s3 := match mget cid (pendingPolls s2) with
                        | Some ex => respond ex (BEvents []) (clearTimeout ex s2)
                        | None => s2
                        end in
              set_pending (mset cid rq) s3
          end
      end
  end.

(** The callback of a parked poll's timer, when it fires. *)
Definition poll_timeout (rq : request) (s : state) : state :=
  if existsb (req_eqb rq) (timers s)
  then respond rq (BEvents []) (set_pending (mdel (rcid rq)) (clearTimeout rq s))
  else s.

(** [req.on('close', ...)] of a parked poll. *)
Definition poll_close (rq : request) (s : state) : state :=
  match mget (rcid rq) (pendingPolls s) with
  | Some p => if req_eqb p rq then set_pending (mdel (rcid rq)) (clearTimeout p s) else s
  | None => s
  end.

(** ** The reaper [cleanup] *)

Definition evict_if_stale (now : Z) (code id : string) (s : state) : state :=
  match mget code (rooms s) with
  | None => s
  | Some r =>
      match mget id (clients r) with
      | None => s
      | Some c =>
          if Z.gtb (now - lastSeen c) CLIENT_TIMEOUT_MS
          then cancel_pending id (del_client code id s)
          else s
      end
  end.

Definition sweep_room (now : Z) (code : string) (s : state) : state :=
  match mget code (rooms s) with
  | None => s
  | Some r =>
      let s1 := fold_left (fun s id => evict_if_stale now code id s) (map fst (clients r)) s in
      let s2 := if Nat.ltb 0 (room_size code s1) then broadcast_presence code s1 else s1 in
      if Nat.eqb (room_size code s2) 0 then set_rooms (mdel code) s2 else s2
  end.

Definition cleanup (now : Z) (s : state) : state :=
  fold_left (fun s code => sweep_room now code s) (map fst (rooms s)) s.

(** ** Operations of the server *)

Inductive op :=
| OCreate (rq : request) (cid : string) (nameF roomF : jfield) (rnd : nat -> nat) (now : Z)
| OJoin (rq : request) (cid : string) (roomF nameF : jfield) (now : Z)
| OLeave (rq : request) (cid : string)
| OSend (rq : request) (cid : string) (textF : jfield) (now : Z)
| OPoll (rq : request) (now : Z)
| OTimeout (rq : request)
| OClose (rq : request)
| OSweep (now : Z).

Definition step (o : op) (s : state) : state :=
  match o with
  | OCreate rq cid nameF roomF rnd now => create_handler rq cid nameF roomF rnd now s
  | OJoin rq cid roomF nameF now => join_handler rq cid roomF nameF now s
  | OLeave rq cid => leave_handler rq cid s
  | OSend rq cid textF now => send_handler rq cid textF now s
  | OPoll rq now => poll_handler rq now s
  | OTimeout rq => poll_timeout rq s
  | OClose rq => poll_close rq s
  | OSweep now => cleanup now s
  end.

Fixpoint run (ops : list op) (s : state) : state :=
  match ops with
  | [] => s
  | o :: os => run os (step o s)
  end.

(** ** Concrete scenarios *)

Definition rq (n : nat) (cid : string) : request := {| rid := n; rcid := cid |}.

(** Math.random() always giving digit 1. *)
Definition rnd_ones : nat -> nat := fun _ => 1.

(** Ann creates room 12345 at time 0. *)
Definition st_one : state :=
  step (OCreate (rq 1 "") "A" (JString "Ann") (JString "12345") rnd_ones 0) init.

(** Ann drains her onboarding events, then parks a poll (request 3). *)
Definition st_parked : state :=
  run [OPoll (rq 2 "A") 1; OPoll (rq 3 "A") 2] st_one.

(** Ann creates 12345 at time 0, Bo joins at time 70000. *)
Definition st_two : state :=
  step (OJoin (rq 2 "") "B" (JString "12345") (JString "Bo") 70000) st_one.

(** Ann's room and her client record in [st_one]. *)
Definition st_one_room : room :=
  Eval vm_compute in
    match mget "12345" (rooms st_one) with Some r => r | None => new_room 0 end.

Definition st_one_ann : client :=
  Eval vm_compute in
    match mget "A" (clients st_one_room) with
    | Some c => c
    | None => {| name := ""; lastSeen := 0; events := [] |}
    end.

(** The queue of client [id] in room [code]. *)
Definition client_events (code id : string) (s : state) : list event :=
  match mget code (rooms s) with
  | Some r => match mget id (clients r) with Some c => events c | None => [] end
  | None => []
  end.

Definition member_of (code id : string) (s : state) : bool :=
  match mget code (rooms s) with Some r => mhas id (clients r) | None => false end.

(** The members of a room as [roomSnapshot] lists them. *)
Definition roster_of (r : room) : list user := map user_of_entry (clients r).

Definition roster (code : string) (s : state) : option (list user) :=
  option_map roster_of (mget code (rooms s)).

(** A body field that [safeText] turns into the empty string. *)
Definition blank_field (f : jfield) : Prop :=
  f = JMissing \/ f = JOther \/ exists t, f = JString t /\ trim t = "".

(** ** Invariants and reachable states *)

(** Room codes with their member ids, in [Map] order. *)
Definition members_view (rs : list (string * room)) : list (string * list string) :=
  map (fun e => (fst e, map fst (clients (snd e)))) rs.

(** Distinct codes, distinct members per room, and no id in two rooms. *)
Definition rooms_ok (v : list (string * list string)) : Prop :=
  NoDup (map fst v) /\
  (forall code ids, In (code, ids) v -> NoDup ids) /\
  (forall id code1 ids1 code2 ids2, In (code1, ids1) v -> In (code2, ids2) v ->
     In id ids1 -> In id ids2 -> code1 = code2).

(** One parked poll per client id, each one a poll of that client. *)
Definition pend_ok (pp : list (string * request)) : Prop :=
  NoDup (map fst pp) /\ forall k p, In (k, p) pp -> rcid p = k.

(** A parked client is a member of the room its session maps to, with an
    empty queue. *)
Definition parked_ok (crs : list (string * string)) (rs : list (string * room))
    (k : string) : Prop :=
  exists code r c, mget k crs = Some code /\ code <> "" /\ mget code rs = Some r /\
                   mget k (clients r) = Some c /\ events c = [].

Definition parked_inv (s : state) : Prop :=
  forall k p, mget k (pendingPolls s) = Some p -> parked_ok (clientRooms s) (rooms s) k.

(** The shape invariant, which also holds in the middle of a handler. *)
Definition SI (s : state) : Prop :=
  rooms_ok (members_view (rooms s)) /\ pend_ok (pendingPolls s).

Definition WF (s : state) : Prop := SI s /\ parked_inv s.

Definition in_some_room (id : string) (rs : list (string * room)) : Prop :=
  exists code r, In (code, r) rs /\ In id (map fst (clients r)).

(** [randId(10)] never returns the id of a current member. *)
Definition fresh_op (o : op) (s : state) : Prop :=
  match o with
  | OCreate _ cid _ _ _ _ | OJoin _ cid _ _ _ => ~ in_some_room cid (rooms s)
  | _ => True
  end.

Inductive reachable : state -> Prop :=
| reach_init : reachable init
| reach_step o s : reachable s -> fresh_op o s -> reachable (step o s).

Fixpoint fresh_run (s : state) (ops : list op) : Prop :=
  match ops with
  | [] => True
  | o :: os => fresh_op o s /\ fresh_run (step o s) os
  end.

(** Client [c] is a member of room [code] after every operation. *)
Fixpoint stays (code c : string) (s : state) (ops : list op) : Prop :=
  match ops with
  | [] => True
  | o :: os => member_of code c (step o s) = true /\ stays code c (step o s) os
  end.

(** The client record of [c] as [flushClient] and [sendToClient] find it. *)
Fixpoint lookup_client (c : string) (rs : list (string * room)) : option client :=
  match rs with
  | [] => None
  | (_, r) :: rs' =>
      match mget c (clients r) with Some cl => Some cl | None => lookup_client c rs' end
  end.

Definition queue (c : string) (s : state) : list event :=
  match lookup_client c (rooms s) with Some cl => events cl | None => [] end.

(** Every event sent to client [c] in a poll response, in sending order. *)
Definition received (c : string) (o : list (request * body)) : list event :=
  flat_map (fun e => if String.eqb (rcid (fst e)) c
                     then match snd e with BEvents evs => evs | _ => [] end
                     else []) o.

(** What [c] has been sent, followed by what is waiting in its queue. *)
Definition stream (c : string) (s : state) : list event :=
  app (received c (out s)) (queue c s).

(** The events a response [b] to request [q] hands to client [c]. *)
Definition delivered (c : string) (q : request) (b : body) : list event :=
  if String.eqb (rcid q) c then match b with BEvents evs => evs | _ => [] end else [].

(** [c]'s stream in [s'] extends its stream in [s]. *)
Definition ext (c : string) (s s' : state) : Prop :=
  exists l, stream c s' = app (stream c s) l.

(** If [c] is still in room [code] after a step, it was before, and its
    stream only grew. *)
Definition grows (code c : string) (s s' : state) : Prop :=
  member_of code c s' = true -> member_of code c s = true /\ ext c s s'.

(** Removing the first occurrence, and appending if absent, on key lists. *)
Fixpoint sdel (x : string) (l : list string) : list string :=
  match l with
  | [] => []
  | y :: l' => if String.eqb x y then l' else y :: sdel x l'
  end.

Definition sset (x : string) (l : list string) : list string :=
  if existsb (String.eqb x) l then l else app l [x].

(** Operations that can remove a member of a room. *)
Definition removes (o : op) : bool :=
  match o with OLeave _ _ | OSweep _ => true | _ => false end.

Definition joiners (R : string) (ops : list op) : list string :=
  flat_map (fun o => match o with
                     | OJoin _ cid roomF _ _ => if String.eqb (safeText roomF) R then [cid] else []
                     | _ => []
                     end) ops.

(** ** The rate limiter of [/api/stt] and [/api/tts] *)

(** A [rateLimitMap] entry [{ count, windowStart }]. *)
Record rl_entry := { count : nat; windowStart : Z }.

Definition RATE_LIMIT_WINDOW_MS : Z := 60 * 1000.
Definition RATE_LIMIT_MAX_REQUESTS : nat := 30.

(** [checkRateLimit(ip)] at time [now] on [rateLimitMap]: the verdict and the
    map after it.  [entry.count++] mutates the object the map holds, so it is
    the map's entry for [ip] that ends up incremented. *)
Definition checkRateLimit (ip : string) (now : Z) (m : list (string * rl_entry))
    : bool * list (string * rl_entry) :=
  let '(entry, m1) :=
    match mget ip m with
    | Some e =>
        if Z.gtb (now - windowStart e) RATE_LIMIT_WINDOW_MS
        then let e0 := {| count := 0; windowStart := now |} in (e0, mset ip e0 m)
        else (e, m)
    | None => let e0 := {| count := 0; windowStart := now |} in (e0, mset ip e0 m)
    end in
  let entry' := {| count := S (count entry); windowStart := windowStart entry |} in
  (Nat.leb (count entry') RATE_LIMIT_MAX_REQUESTS, mset ip entry' m1).

(** The [setInterval] callback that prunes [rateLimitMap] at time [now]:
    deleting the entry being visited does not disturb a [Map] iteration. *)
Definition rl_sweep (now : Z) (m : list (string * rl_entry)) : list (string * rl_entry) :=
  filter (fun e => negb (Z.gtb (now - windowStart (snd e)) (RATE_LIMIT_WINDOW_MS * 2))) m.

(** A sequence of rate-limited requests, each an [(ip, now)] pair. *)
Fixpoint rl_run (reqs : list (string * Z)) (m : list (string * rl_entry))
    : list bool * list (string * rl_entry) :=
  match reqs with
  | [] => ([], m)
  | (ip, now) :: reqs' =>
      let '(ok, m1) := checkRateLimit ip now m in
      let '(oks, m2) := rl_run reqs' m1 in (ok :: oks, m2)
  end.

(** The verdicts given to the requests of [ip] among [reqs]. *)
Definition verdicts_of (ip : string) (reqs : list (string * Z)) (oks : list bool) : list bool :=
  map snd (filter (fun p => String.eqb (fst (fst p)) ip) (combine reqs oks)).

(** ** [POST /api/tts] up to the synthesis *)

(** The outcome of the checks of the handler: an error response, or the
    text handed to Piper. *)
Inductive tts_result :=
| TtsError (status : Z) (msg : string)
| TtsSynth (text : string).

(** [!text || typeof text !== 'string' || text.trim().length === 0], then
    [text.length > 2000], then the Piper configuration. *)
Definition tts_front (PIPER_BIN PIPER_MODEL : string) (ip : string) (now : Z)
    (textF : jfield) (m : list (string * rl_entry)) : tts_result * list (string * rl_entry) :=
  let '(ok, m') := checkRateLimit ip now m in
  if negb ok then (TtsError 429 "Too many requests. Please wait.", m')
  else
    let r :=
      match textF with
      | JString text =>
          if String.eqb text "" || String.eqb (trim text) "" then TtsError 400 "No text provided"
          else if Nat.ltb 2000 (String.length text)
          then TtsError 400 "Text too long (max 2000 chars)"
          else if String.eqb PIPER_BIN "" || String.eqb PIPER_MODEL ""
          then TtsError 501 "TTS not configured (set PIPER_BIN and PIPER_MODEL)"
          else TtsSynth (trim text)
      | _ => TtsError 400 "No text provided"
      end in
    (r, m').

(** ** [parseMultipart] *)

(** A [Buffer]: its bytes as integers 0..255. *)
Definition buffer := list Z.

Definition MAX_UPLOAD_BYTES : Z := 8 * 1024 * 1024.

(** [Buffer.from(s)] (UTF-8) for a string of code units 0..255. *)
Definition utf8_of_string (s : string) : buffer :=
  flat_map (fun a => let n := Z.of_nat (nat_of_ascii a) in
                     if Z.ltb n 128 then [n] else [(192 + n / 64)%Z; (128 + n mod 64)%Z])
           (list_ascii_of_string s).

(** Does [pat] start [l]? *)
Fixpoint prefixb (pat l : buffer) : bool :=
  match pat, l with
  | [], _ => true
  | x :: pat', y :: l' => Z.eqb x y && prefixb pat' l'
  | _ :: _, [] => false
  end.

(** The first position, counted from [i], at which [pat] occurs in [l]. *)
Fixpoint index_from (pat l : buffer) (i : nat) : option nat :=
  match l with
  | [] => if prefixb pat [] then Some i else None
  | _ :: l' => if prefixb pat l then Some i else index_from pat l' (S i)
  end.

(** [buf.indexOf(pat, from)], [None] for [-1]. *)
Definition indexOf (pat buf : buffer) (from : nat) : option nat :=
  index_from pat (skipn from buf) from.

(** [buf.slice(a, b)] for [a <= b]. *)
Definition slice (a b : nat) (buf : buffer) : buffer := firstn (b - a) (skipn a buf).

(** [headerSection.includes(s)] for an ASCII [s]: decoding UTF-8 turns each
    byte below 128 into that character and every other byte into characters
    above 127, so an ASCII string occurs in the decoded header exactly when
    its bytes occur in the header bytes. *)
Definition contains (pat l : buffer) : bool :=
  match index_from pat l 0 with Some _ => true | None => false end.

(** The regular expression [/boundary=(?:Q([^Q]+)Q|([^;]+))/] of
    [content-type.match], [Q] standing for the double quote [DQ], giving
    [match[1] || match[2]]. *)
Definition DQ : string := String "034" "".

Fixpoint span_not (c : ascii) (l : list ascii) : list ascii * list ascii :=
  match l with
  | [] => ([], [])
  | a :: l' =>
      if Ascii.eqb a c then ([], l) else let '(x, r) := span_not c l' in (a :: x, r)
  end.

Definition boundary_alts (l : list ascii) : option string :=
  let alt2 := match span_not ";" l with
              | ([], _) => None
              | (x, _) => Some (string_of_list_ascii x)
              end in
  match l with
  | a :: l' =>
      if Ascii.eqb a "034"%char then
        match span_not "034"%char l' with
        | ((_ :: _) as x, _ :: _) => Some (string_of_list_ascii x)
        | _ => alt2
        end
      else alt2
  | [] => alt2
  end.

Fixpoint ascii_prefix (p l : list ascii) : bool :=
  match p, l with
  | [], _ => true
  | x :: p', y :: l' => Ascii.eqb x y && ascii_prefix p' l'
  | _ :: _, [] => false
  end.

Definition BOUNDARY_EQ : list ascii := list_ascii_of_string "boundary=".

(** The leftmost match: the first position where [boundary=] is followed by
    one of the two alternatives. *)
Fixpoint find_boundary (l : list ascii) : option string :=
  match l with
  | [] => None
  | _ :: l' =>
      if ascii_prefix BOUNDARY_EQ l then
        match boundary_alts (skipn 9 l) with
        | Some b => Some b
        | None => find_boundary l'
        end
      else find_boundary l'
  end.

(** The ['data'] handler: the chunks received, or [None] once the running
    size passes [MAX_UPLOAD_BYTES] ([req.destroy()] then ends the stream). *)
Fixpoint read_chunks (size : Z) (chunks : list buffer) : option (list buffer) :=
  match chunks with
  | [] => Some []
  | c :: cs =>
      let size' := (size + Z.of_nat (length c))%Z in
      if Z.gtb size' MAX_UPLOAD_BYTES then None
      else option_map (cons c) (read_chunks size' cs)
  end.

(** The [while (true)] loop that cuts the buffer at each boundary; each
    round moves [start] forward by at least [bb]'s length, so [length buf + 1]
    rounds are never exhausted. *)
Fixpoint collect_parts (fuel : nat) (buf bb : buffer) (start : nat) : list buffer :=
  match fuel with
  | O => []
  | S f =>
      match indexOf bb buf (start + length bb) with
      | None => []
      | Some next => slice (start + length bb) next buf :: collect_parts f buf bb next
      end
  end.

Definition CRLFCRLF : buffer := [13%Z; 10%Z; 13%Z; 10%Z].
Definition NAME_AUDIO : buffer := utf8_of_string ("name=" ++ DQ ++ "audio" ++ DQ).

(** [audioData.slice(0, -2)] when the part ends in CR LF. *)
Definition trim_crlf (b : buffer) : buffer :=
  if Nat.leb 2 (length b) then
    match rev b with
    | 10%Z :: 13%Z :: r => rev r
    | _ => b
    end
  else b.

(** The [for (const part of parts)] loop. *)
Fixpoint find_audio (parts : list buffer) : option buffer :=
  match parts with
  | [] => None
  | part :: ps =>
      match indexOf CRLFCRLF part 0 with
      | None => find_audio ps
      | Some headerEnd =>
          let headerSection := slice 0 headerEnd part in
          let body := skipn (headerEnd + 4) part in
          if contains NAME_AUDIO headerSection then Some (trim_crlf body) else find_audio ps
      end
  end.

(** [parseMultipart(req)] for a request with header [content-type] [ct]
    (['' ] when absent) whose body arrives as [chunks]: the rejection
    message or the audio bytes. *)
Definition parseMultipart (ct : string) (chunks : list buffer) : string + buffer :=
  match find_boundary (list_ascii_of_string ct) with
  | None => inl "No boundary in content-type"
  | Some boundary =>
      match read_chunks 0 chunks with
      | None => inl "Upload too large"
      | Some cs =>
          let buf := concat cs in
          let bb := utf8_of_string ("--" ++ boundary) in
          match indexOf bb buf 0 with
          | None => inl "Invalid multipart data"
          | Some start =>
              match find_audio (collect_parts (S (length buf)) buf bb start) with
              | Some audio => inr audio
              | None => inl "No audio field found"
              end
          end
      end
  end.

(** ** [POST /api/stt] up to the audio conversion *)

Inductive stt_result :=
| SttError (status : Z) (msg : string)
| SttConvert (audio : buffer).

Definition stt_front (ip : string) (now : Z) (ct : string) (chunks : list buffer)
    (m : list (string * rl_entry)) : stt_result * list (string * rl_entry) :=
  let '(ok, m') := checkRateLimit ip now m in
  if negb ok then (SttError 429 "Too many requests. Please wait.", m')
  else
    let r :=
      match parseMultipart ct chunks with
      | inl msg =>
          if String.eqb msg "Upload too large" then SttError 413 "Audio file too large (max 8MB)"
          else SttError 500 (if String.eqb msg "" then "Transcription failed" else msg)
      | inr audio =>
          if Nat.eqb (length audio) 0 then SttError 400 "No audio data received"
          else if Z.gtb (Z.of_nat (length audio)) MAX_UPLOAD_BYTES
          then SttError 413 "Audio file too large (max 8MB)"
          else SttConvert audio
      end in
    (r, m').

(** A one-field form as browsers send it: the audio part, then the closing
    boundary. *)
Definition AUDIO_PART_HEADER : string :=
  String "013" (String "010" ("Content-Disposition: form-data; name=" ++ DQ ++ "audio" ++ DQ ++
                               "; filename=" ++ DQ ++ "audio.webm" ++ DQ)) ++
  String "013" (String "010" "Content-Type: audio/webm") ++
  String "013" (String "010" (String "013" (String "010" ""))).

Definition form_body (boundary : string) (audio : buffer) : buffer :=
  let bb := utf8_of_string ("--" ++ boundary) in
  app bb (app (utf8_of_string AUDIO_PART_HEADER)
    (app audio (app [13%Z; 10%Z] (app bb [45%Z; 45%Z; 13%Z; 10%Z])))).

(** After a sweep at [now], every entry is the same or was dropped for being
    more than two windows old. *)
Definition rl_rel (now : Z) (m1 m2 : list (string * rl_entry)) : Prop :=
  forall ip, mget ip m1 = mget ip m2 \/
             (mget ip m1 = None /\ exists e, mget ip m2 = Some e /\
                Z.gtb (now - windowStart e) (RATE_LIMIT_WINDOW_MS * 2) = true).

(** No two consecutive dashes start at the head of [l] (the last byte
    alone is no dash). *)
Definition dd_free (l : buffer) : bool :=
  match l with
  | z :: w :: _ => negb (Z.eqb z 45 && Z.eqb w 45)
  | [z] => negb (Z.eqb z 45)
  | [] => true
  end.

(** The members of a room with their [lastSeen], in [Map] order. *)
Definition cview (cl : list (string * client)) : list (string * Z) :=
  map (fun p => (fst p, lastSeen (snd p))) cl.

(** The members of room [code] with their [lastSeen], or [None] when there
    is no such room. *)
Definition room_view (code : string) (s : state) : option (list (string * Z)) :=
  option_map (fun r => cview (clients r)) (mget code (rooms s)).

Definition stale (now : Z) (p : string * Z) : bool := Z.gtb (now - snd p) CLIENT_TIMEOUT_MS.

(** A room view once the members silent for more than [CLIENT_TIMEOUT_MS]
    are gone and the room is gone if nobody is left. *)
Definition swept_view (now : Z) (v : option (list (string * Z))) : option (list (string * Z)) :=
  match v with
  | None => None
  | Some l => match filter (fun p => negb (stale now p)) l with
              | [] => None
              | l' => Some l'
              end
  end.

(** ** The calls of [broadcast], in the order the handlers make them *)

(** [broadcast(roomCode, { type: 'presence', ...roomSnapshot(roomCode) })],
    as [broadcast_presence] makes it: the room and the event passed. *)
Definition presence_log (code : string) (s : state) : list (string * event) :=
  match roomSnapshot code (rooms s) with
  | Some sn => [(code, EPresence sn)]
  | None => []
  end.

(** The [broadcast] call of [sweep_room], made after the evictions. *)
Definition sweep_log (now : Z) (code : string) (s : state) : list (string * event) :=
  match mget code (rooms s) with
  | None => []
  | Some r =>
      let s1 := fold_left (fun s id => evict_if_stale now code id s) (map fst (clients r)) s in
      if Nat.ltb 0 (room_size code s1) then presence_log code s1 else []
  end.

(** The [broadcast] calls of [cleanup], room after room. *)
Fixpoint sweeps_log (now : Z) (codes : list string) (s : state) : list (string * event) :=
  match codes with
  | [] => []
  | code :: cs => app (sweep_log now code s) (sweeps_log now cs (sweep_room now code s))
  end.

(** The [broadcast] calls one operation makes, with the state each handler
    is in when it makes them (create queues its [presence] event with
    [push], not with [broadcast]). *)
Definition broadcasts_of (o : op) (s : state) : list (string * event) :=
  match o with
  | OJoin _ cid roomF nameF now =>
      let roomCode := safeText roomF in
      if String.eqb roomCode "" || negb (Nat.eqb (String.length roomCode) 5)
         || negb (regex_5digits roomCode)
      then []
      else
        match mget roomCode (rooms s) with
        | None => []
        | Some _ =>
            let nm := or_user (safeText nameF) in
            let s1 := register roomCode cid nm now s in
            let s2 := push_event roomCode cid (EJoined roomCode cid)
                        (push_event roomCode cid (EHello cid) s1) in
            match roomSnapshot roomCode (rooms s2) with
            | Some sn => [(roomCode, EPresence sn)]
            | None => []
            end
        end
  | OLeave _ cid =>
      match lookup_session cid s with
      | Some (code, _) =>
          let s1 := cancel_pending cid (set_clientRooms (mdel cid) (del_client code cid s)) in
          if Nat.ltb 0 (room_size code s1) then presence_log code s1 else []
      | None => []
      end
  | OSend _ cid textF now =>
      let text := safeText textF in
      if String.eqb text "" then []
      else
        match lookup_session cid s with
        | None => []
        | Some (code, r) =>
            match mget cid (clients r) with
            | None => []
            | Some c => [(code, EMsg code cid (name c) text now)]
            end
        end
  | OSweep now => sweeps_log now (map fst (rooms s)) s
  | _ => []
  end.

(** The [broadcast] calls of a run of operations, in order. *)
Fixpoint broadcasts_run (ops : list op) (s : state) : list (string * event) :=
  match ops with
  | [] => []
  | o :: os => app (broadcasts_of o s) (broadcasts_run os (step o s))
  end.

(** The events of those calls that went to room [code]. *)
Definition to_room (code : string) (l : list (string * event)) : list event :=
  map snd (filter (fun p => String.eqb (fst p) code) l).

(** Operation [o] removes no member of room [R]: no leave from [R] and no
    eviction from [R]. *)
Definition keeps_members (R : string) (o : op) (s : state) : Prop :=
  forall id, member_of R id s = true -> member_of R id (step o s) = true.

Fixpoint keeps (R : string) (s : state) (ops : list op) : Prop :=
  match ops with
  | [] => True
  | o :: os => keeps_members R o s /\ keeps R (step o s) os
  end.

(** If [c] is a member of [code] in [s'], it was one in [s], and its stream
    grew by exactly [l]. *)
Definition glog (code c : string) (s s' : state) (l : list event) : Prop :=
  member_of code c s' = true -> member_of code c s = true /\ stream c s' = app (stream c s) l.

(** The ids [roomSnapshot] lists for room [R]. *)
Definition room_ids (R : string) (s : state) : option (list string) :=
  option_map (map uid) (roster R s).

(** * Proofs *)

Lemma st_parked_pending : mget "A" (pendingPolls st_parked) = Some (rq 3 "A").
Proof. vm_compute. reflexivity. Qed.

Lemma st_parked_queue :
  exists r c, mget "12345" (rooms st_parked) = Some r /\ mget "A" (clients r) = Some c
              /\ events c = [].
Proof. vm_compute. eauto. Qed.

(** ** Claims settled on concrete runs *)

(** C4 (code_bug): [leave] clears the timer of the parked poll and forgets
    it without answering it; the only response sent is the [{ ok: true }] of
    the leave itself, and the cleared timer can no longer answer it. *)
Theorem leave_drops_parked_poll :
  let s := leave_handler (rq 4 "") "A" st_parked in
  out s = app (out st_parked) [(rq 4 "", BOk)] /\
  (forall b, ~ In (rq 3 "A", b) (out s)) /\
  mget "A" (pendingPolls s) = None /\
  ~ In (rq 3 "A") (timers s) /\
  poll_timeout (rq 3 "A") s = s.
Proof.
  vm_compute. split; [reflexivity|]. split.
  - intros b H. repeat (destruct H as [H|H]; [discriminate H|]). exact H.
  - split; [reflexivity|]. split; [intros []|reflexivity].
Qed.

(** C6 (code_bug): a sweep that evicts nobody (Ann was seen 10 ms ago)
    still appends a [presence] event to Ann's queue. *)
Theorem sweep_without_eviction_changes_queue :
  member_of "12345" "A" (cleanup 10 st_one) = true /\
  client_events "12345" "A" (cleanup 10 st_one)
  = app (client_events "12345" "A" st_one)
      [EPresence {| sroom := "12345"; susers := [{| uid := "A"; uname := "Ann" |}];
                    scount := 1 |}].
Proof. vm_compute. split; reflexivity. Qed.

(** C7 (code_bug): the reaper evicts Ann from room 12345 (Bo stays), but
    [clientRooms] still maps Ann to 12345, whose member set no longer holds
    her; [leave] deletes that entry, the reaper does not. *)
Theorem sweep_leaves_stale_session :
  let s := cleanup 70001 st_two in
  mget "A" (clientRooms s) = Some "12345" /\
  mhas "12345" (rooms s) = true /\
  member_of "12345" "A" s = false /\
  member_of "12345" "B" s = true.
Proof. vm_compute. repeat split. Qed.

(** C3 (counterexample): a member sending only blanks gets an error
    response, not a silent success. *)
Theorem send_blank_is_error :
  member_of "12345" "A" st_one = true /\
  send_handler (rq 5 "") "A" (JString "   ") 1 st_one
  = respond (rq 5 "") (BError 400 "No text provided.") st_one.
Proof. vm_compute. split; reflexivity. Qed.

(** C5 (counterexample): a supplied room field that is not five digits
    (blanks, or a JSON number) does not make create fail: it is sanitized to
    the empty string and a random code is allocated. *)
Theorem create_nondigit_room_field_succeeds :
  let sn := {| sroom := "11111"; susers := [{| uid := "A"; uname := "Ann" |}];
               scount := 1 |} in
  out (create_handler (rq 1 "") "A" (JString "Ann") (JString "   ") rnd_ones 0 init)
  = [(rq 1 "", BRoom "A" sn)] /\
  out (create_handler (rq 1 "") "A" (JString "Ann") JOther rnd_ones 0 init)
  = [(rq 1 "", BRoom "A" sn)].
Proof. vm_compute. split; reflexivity. Qed.

(** ** Facts about the [Map] operations *)

Ltac str_case k k' := destruct (String.eqb_spec k k'); subst.

Section MapFacts.
Context {V : Type}.
Implicit Types (m : list (string * V)) (k : string) (v : V).

Lemma mget_mupd_eq k f m : mget k (mupd k f m) = option_map f (mget k m).
Proof.
  induction m as [|[k' v'] m IH]; simpl; auto.
  str_case k k'; simpl; [rewrite String.eqb_refl; auto|].
  apply String.eqb_neq in n. rewrite n. exact IH.
Qed.

Lemma mget_mupd_neq k k' f m : k <> k' -> mget k (mupd k' f m) = mget k m.
Proof.
  intros Hne. induction m as [|[k'' v'] m IH]; simpl; auto.
  str_case k' k''; simpl.
  - apply String.eqb_neq in Hne. rewrite Hne. reflexivity.
  - destruct (String.eqb k k''); auto.
Qed.

Lemma mget_mdel_neq k k' m : k <> k' -> mget k (mdel k' m) = mget k m.
Proof.
  intros Hne. induction m as [|[k'' v'] m IH]; simpl; auto.
  str_case k' k''.
  - apply String.eqb_neq in Hne. rewrite Hne. reflexivity.
  - simpl. destruct (String.eqb k k''); auto.
Qed.

Lemma mget_app k m m' :
  mget k (app m m') = match mget k m with Some v => Some v | None => mget k m' end.
Proof.
  induction m as [|[k' v'] m IH]; simpl; auto.
  destruct (String.eqb k k'); auto.
Qed.

Lemma mget_mset_eq k v m : mget k (mset k v m) = Some v.
Proof.
  unfold mset, mhas. destruct (mget k m) eqn:E.
  - rewrite mget_mupd_eq, E. reflexivity.
  - rewrite mget_app, E. simpl. rewrite String.eqb_refl. reflexivity.
Qed.

Lemma mget_mset_neq k k' v m : k <> k' -> mget k (mset k' v m) = mget k m.
Proof.
  intros Hne. unfold mset, mhas. destruct (mget k' m).
  - apply mget_mupd_neq; auto.
  - rewrite mget_app. destruct (mget k m); auto. simpl.
    apply String.eqb_neq in Hne. rewrite Hne. reflexivity.
Qed.

Lemma mget_In k v m : mget k m = Some v -> In (k, v) m.
Proof.
  induction m as [|[k' v'] m IH]; simpl; [discriminate|].
  str_case k k'; [intros H; inversion H; auto|auto].
Qed.

Lemma mget_None k m : mget k m = None <-> ~ In k (map fst m).
Proof.
  induction m as [|[k' v'] m IH]; simpl; [tauto|].
  str_case k k'; [split; [discriminate|tauto]|].
  rewrite IH. intuition.
Qed.

Lemma mget_NoDup_In k v m : NoDup (map fst m) -> In (k, v) m -> mget k m = Some v.
Proof.
  induction m as [|[k' v'] m IH]; simpl; [tauto|].
  intros Hnd Hin. inversion Hnd as [|? ? Hnin Hnd']; subst.
  destruct Hin as [Heq|Hin].
  - inversion Heq; subst. rewrite String.eqb_refl. reflexivity.
  - str_case k k'.
    + exfalso. apply Hnin. apply (in_map fst) in Hin. exact Hin.
    + apply IH; auto.
Qed.

Lemma keys_mupd k f m : map fst (mupd k f m) = map fst m.
Proof.
  induction m as [|[k' v'] m IH]; simpl; auto.
  destruct (String.eqb k k'); simpl; congruence.
Qed.

Lemma keys_mdel_incl k m x : In x (map fst (mdel k m)) -> In x (map fst m).
Proof.
  induction m as [|[k' v'] m IH]; simpl; auto.
  destruct (String.eqb k k'); simpl; intuition.
Qed.

Lemma NoDup_mdel k m : NoDup (map fst m) -> NoDup (map fst (mdel k m)).
Proof.
  induction m as [|[k' v'] m IH]; simpl; auto.
  intros Hnd. inversion Hnd; subst.
  destruct (String.eqb k k'); simpl; auto.
  constructor; auto. intros Hin. apply keys_mdel_incl in Hin. auto.
Qed.

Lemma mget_mdel_eq k m : NoDup (map fst m) -> mget k (mdel k m) = None.
Proof.
  induction m as [|[k' v'] m IH]; simpl; auto.
  intros Hnd. inversion Hnd as [|? ? Hnin Hnd']; subst.
  str_case k k'.
  - apply mget_None. exact Hnin.
  - simpl. apply String.eqb_neq in n. rewrite n. auto.
Qed.

Lemma keys_mset k v m :
  map fst (mset k v m) = if mhas k m then map fst m else app (map fst m) [k].
Proof.
  unfold mset. destruct (mhas k m); [apply keys_mupd|].
  rewrite map_app. reflexivity.
Qed.

Lemma NoDup_mset k v m : NoDup (map fst m) -> NoDup (map fst (mset k v m)).
Proof.
  intros Hnd. rewrite keys_mset. unfold mhas. destruct (mget k m) eqn:E; auto.
  apply NoDup_app; auto using NoDup_cons, NoDup_nil.
  intros x Hx Hx'. destruct Hx' as [<-|[]]. apply mget_None in E. auto.
Qed.
End MapFacts.

(** ** [createRoom] and the create endpoint *)

Lemma mupd_app_fresh {V} k (f : V -> V) m m' :
  mget k m = None -> mupd k f (app m m') = app m (mupd k f m').
Proof.
  induction m as [|[k' v'] m IH]; simpl; auto.
  destruct (String.eqb k k'); [discriminate|]. intros H. rewrite IH; auto.
Qed.

Lemma mset_fresh {V} k (v : V) m : mget k m = None -> mset k v m = app m [(k, v)].
Proof. unfold mset, mhas. intros ->. reflexivity. Qed.

Lemma try_codes_Some rnd i fuel now rs code rs' :
  try_codes rnd i fuel now rs = Some (code, rs') ->
  rs' = app rs [(code, new_room now)] /\ mget code rs = None /\
  exists j, code = makeRoomCode rnd j.
Proof.
  revert i. induction fuel as [|fuel IH]; simpl; intros i H; [discriminate|].
  unfold mhas in H. destruct (mget (makeRoomCode rnd i) rs) eqn:E.
  - eapply IH; eauto.
  - inversion H; subst. rewrite mset_fresh by exact E. eauto.
Qed.

Lemma try_codes_all_taken rnd i fuel now rs :
  (forall j, i <= j < i + fuel -> mhas (makeRoomCode rnd j) rs = true) ->
  try_codes rnd i fuel now rs = None.
Proof.
  revert i. induction fuel as [|fuel IH]; simpl; intros i H; auto.
  rewrite H by lia. apply IH. intros j Hj. apply H. lia.
Qed.

Lemma createRoom_inr q rnd now rs code rs' :
  createRoom q rnd now rs = inr (code, rs') ->
  rs' = app rs [(code, new_room now)] /\ mget code rs = None /\
  (q <> "" -> code = q /\ regex_5digits q = true) /\
  (q = "" -> exists j, code = makeRoomCode rnd j).
Proof.
  unfold createRoom. destruct (String.eqb q "") eqn:Eq; cbn [negb].
  - apply String.eqb_eq in Eq.
    destruct (try_codes rnd 0 ROOM_CODE_ATTEMPTS now rs) as [[c r]|] eqn:E;
      intros H; inversion H; subst.
    apply try_codes_Some in E as (? & ? & ?). repeat split; auto. congruence.
  - apply String.eqb_neq in Eq.
    destruct (Nat.eqb (String.length q) 5), (regex_5digits q) eqn:Erx;
      cbn [negb orb]; try (intros H; discriminate H).
    unfold mhas. destruct (mget q rs) eqn:E; [intros H; discriminate H|].
    intros H; inversion H; subst. rewrite mset_fresh by exact E.
    repeat split; auto. congruence.
Qed.

(** The state after a successful create: a new room holding the creator,
    whose queue holds [hello], [created] and the first [presence]. *)
Lemma create_handler_ok rq cid nameF roomF rnd now s code rs :
  createRoom (safeText roomF) rnd now (rooms s) = inr (code, rs) ->
  let nm := or_user (safeText nameF) in
  let sn := {| sroom := code; susers := [{| uid := cid; uname := nm |}]; scount := 1 |} in
  create_handler rq cid nameF roomF rnd now s =
  mkState (app (rooms s)
             [(code, {| clients := [(cid, {| name := nm; lastSeen := now;
                           events := [EHello cid; ECreated code cid; EPresence sn] |})];
                        createdAt := now |})])
          (pendingPolls s) (timers s) (mset cid code (clientRooms s))
          (app (out s) [(rq, BRoom cid sn)]).
Proof.
  intros Hcr. pose proof (createRoom_inr _ _ _ _ _ _ Hcr) as (-> & Hfresh & _).
  unfold create_handler. rewrite Hcr. cbv zeta.
  unfold register, push_event, upd_client, set_rooms, set_clientRooms, respond,
    roomSnapshot; simpl.
  repeat first [rewrite String.eqb_refl | rewrite mupd_app_fresh by exact Hfresh
               | rewrite mget_app, Hfresh | progress simpl].
  reflexivity.
Qed.

(** ** Rosters: only registration and removal change who is in a room *)

Lemma roster_of_mupd id f cs :
  (forall c, name (f c) = name c) ->
  map user_of_entry (mupd id f cs) = map user_of_entry cs.
Proof.
  intros Hf. induction cs as [|[k c] cs IH]; simpl; auto.
  destruct (String.eqb id k); simpl; f_equal; auto.
  unfold user_of_entry; simpl. rewrite Hf. reflexivity.
Qed.

Lemma roster_upd_client code id f s code' :
  (forall c, name (f c) = name c) ->
  roster code' (upd_client code id f s) = roster code' s.
Proof.
  intros Hf. unfold roster, upd_client, set_rooms; simpl.
  str_case code' code.
  - rewrite mget_mupd_eq. destruct (mget code (rooms s)); simpl; auto.
    unfold roster_of; simpl. rewrite roster_of_mupd; auto.
  - rewrite mget_mupd_neq; auto.
Qed.

Lemma roster_push code id e s code' :
  roster code' (push_event code id e s) = roster code' s.
Proof. apply roster_upd_client. reflexivity. Qed.

Lemma roster_flush id s code' : roster code' (flushClient id s) = roster code' s.
Proof.
  unfold flushClient. destruct (mget id (pendingPolls s)); auto.
  destruct (find_events id (rooms s)) as [[code evs]|]; auto.
  transitivity (roster code' (upd_client code id clear_events
    (set_pending (mdel id) (clearTimeout r s)))); [reflexivity|].
  rewrite roster_upd_client by reflexivity. reflexivity.
Qed.

Lemma roster_broadcast code e s code' :
  roster code' (broadcast code e s) = roster code' s.
Proof.
  unfold broadcast. destruct (mget code (rooms s)) as [r|]; auto.
  generalize (map fst (clients r)). intros ids. revert s.
  induction ids as [|id ids IH]; simpl; intros s; auto.
  rewrite IH, roster_flush, roster_push. reflexivity.
Qed.

(** ** The join endpoint *)

Lemma regex_5digits_length q : regex_5digits q = true -> String.length q = 5 /\ q <> "".
Proof.
  unfold regex_5digits.
  destruct q as [|a1 [|a2 [|a3 [|a4 [|a5 [|a6 q]]]]]]; simpl; try discriminate.
  split; [reflexivity|discriminate].
Qed.

Lemma mupd_mupd {V} k (f g : V -> V) m : mupd k f (mupd k g m) = mupd k (fun v => f (g v)) m.
Proof.
  induction m as [|[k' v'] m IH]; simpl; auto.
  destruct (String.eqb k k') eqn:E; simpl; rewrite E; congruence.
Qed.

Lemma mupd_const {V} k (f : V -> V) v m : mget k m = Some v -> mupd k f m = mupd k (fun _ => f v) m.
Proof.
  induction m as [|[k' v'] m IH]; simpl; [discriminate|].
  destruct (String.eqb k k'); [intros H; inversion H; reflexivity|].
  intros H. rewrite IH; auto.
Qed.

(** The state after a successful join, before the room-wide [presence]. *)
Lemma join_handler_ok rq cid roomF nameF now s r :
  regex_5digits (safeText roomF) = true ->
  mget (safeText roomF) (rooms s) = Some r ->
  mget cid (clients r) = None ->
  let R := safeText roomF in
  let c0 := {| name := or_user (safeText nameF); lastSeen := now;
               events := [EHello cid; EJoined R cid] |} in
  let r' := {| clients := app (clients r) [(cid, c0)]; createdAt := createdAt r |} in
  let s2 := mkState (mupd R (fun _ => r') (rooms s)) (pendingPolls s) (timers s)
                    (mset cid R (clientRooms s)) (out s) in
  let sn := {| sroom := R; susers := roster_of r'; scount := length (roster_of r') |} in
  join_handler rq cid roomF nameF now s = respond rq (BRoom cid sn) (broadcast R (EPresence sn) s2).
Proof.
  intros Hrx Hget Hcid. cbv zeta.
  pose proof (regex_5digits_length _ Hrx) as [Hlen Hne].
  unfold join_handler. cbv zeta.
  rewrite (proj2 (String.eqb_neq _ _) Hne), Hlen, Hrx. cbn [orb negb Nat.eqb].
  rewrite Hget.
  unfold register, push_event, upd_client, set_rooms, set_clientRooms. cbn [rooms pendingPolls timers clientRooms out].
  rewrite !mupd_mupd. rewrite (mupd_const _ _ _ _ Hget). cbn beta. cbn [clients createdAt].
  rewrite (mset_fresh _ _ _ Hcid), mupd_app_fresh by exact Hcid. cbn.
  rewrite String.eqb_refl. cbn. rewrite mupd_app_fresh by exact Hcid. cbn. rewrite String.eqb_refl. cbn.
  unfold roomSnapshot. rewrite mget_mupd_eq, Hget. cbn. reflexivity.
Qed.

(** ** C10: a blank display name *)

Lemma blank_safeText f : blank_field f -> safeText f = "".
Proof.
  intros [->|[->|[t [-> Ht]]]]; try reflexivity.
  unfold safeText. rewrite Ht. reflexivity.
Qed.

Lemma blank_or_user f : blank_field f -> or_user (safeText f) = or_user (safeText (JString "User")).
Proof. intros Hf. rewrite (blank_safeText _ Hf). reflexivity. Qed.

Lemma roster_respond code rq0 b s : roster code (respond rq0 b s) = roster code s.
Proof. reflexivity. Qed.

(** C10: a create or join whose [name] field is missing, not a string or
    blank behaves exactly as one whose name is ["User"]: the session is
    registered, and the roster read by snapshots lists it as ["User"]. *)
Theorem blank_name_registers_as_User (f : jfield) (Hf : blank_field f) :
  (forall rq cid roomF rnd now s,
     create_handler rq cid f roomF rnd now s
     = create_handler rq cid (JString "User") roomF rnd now s) /\
  (forall rq cid roomF now s,
     join_handler rq cid roomF f now s = join_handler rq cid roomF (JString "User") now s) /\
  (forall rq cid roomF rnd now s code rs,
     createRoom (safeText roomF) rnd now (rooms s) = inr (code, rs) ->
     roster code (create_handler rq cid f roomF rnd now s)
     = Some [{| uid := cid; uname := "User" |}]) /\
  (forall rq cid roomF now s r,
     regex_5digits (safeText roomF) = true -> mget (safeText roomF) (rooms s) = Some r ->
     mget cid (clients r) = None ->
     roster (safeText roomF) (join_handler rq cid roomF f now s)
     = Some (app (roster_of r) [{| uid := cid; uname := "User" |}])).
Proof.
  pose proof (blank_or_user _ Hf) as Hu.
  split; [intros; unfold create_handler; rewrite Hu; reflexivity|].
  split; [intros; unfold join_handler; rewrite Hu; reflexivity|].
  split.
  - intros rq cid roomF rnd now s code rs Hcr.
    pose proof (createRoom_inr _ _ _ _ _ _ Hcr) as (_ & Hfresh & _).
    rewrite (create_handler_ok _ _ _ _ _ _ _ _ _ Hcr). unfold roster. cbn [rooms].
    rewrite mget_app, Hfresh. cbn. rewrite String.eqb_refl. cbn.
    unfold roster_of, user_of_entry. cbn. rewrite Hu. reflexivity.
  - intros rq cid roomF now s r Hrx Hget Hcid.
    rewrite (join_handler_ok _ _ _ _ _ _ _ Hrx Hget Hcid). cbv zeta.
    rewrite roster_respond, roster_broadcast. unfold roster. cbn [rooms].
    rewrite mget_mupd_eq, Hget. cbn. unfold roster_of. cbn. rewrite map_app.
    unfold user_of_entry at 2. cbn. rewrite Hu. reflexivity.
Qed.

Lemma blank_name_registers_as_User_witness :
  blank_field JMissing /\
  create_handler (rq 1 "") "A" JMissing (JString "12345") rnd_ones 0 init
  = create_handler (rq 1 "") "A" (JString "User") (JString "12345") rnd_ones 0 init.
Proof.
  split; [left; reflexivity|].
  apply (blank_name_registers_as_User JMissing (or_introl eq_refl)).
Defined.

(** ** C5: room codes *)

Lemma String_of_nat_digit d : d < 10 -> String_of_nat d = String (ascii_of_nat (48 + d)) "".
Proof. intros H. do 10 (destruct d as [|d]; [reflexivity|]). lia. Qed.

Lemma is_digit_of_nat d : d < 10 -> is_digit (ascii_of_nat (48 + d)) = true.
Proof. intros H. do 10 (destruct d as [|d]; [reflexivity|]). lia. Qed.

Lemma makeRoomCode_5digits rnd i :
  (forall n, rnd n < 10) -> regex_5digits (makeRoomCode rnd i) = true.
Proof.
  intros Hr. unfold makeRoomCode. cbn [seq fold_left].
  rewrite !String_of_nat_digit by apply Hr. cbn [String.append].
  unfold regex_5digits. cbn [list_ascii_of_string].
  rewrite !is_digit_of_nat by apply Hr. reflexivity.
Qed.

(** C5 (as amended): the [room] field is sanitized first, so a missing,
    non-string or blank value asks for a random code.  A non-empty
    sanitized code must be five digits and unused, otherwise create fails
    with only an error response; with no code, the 10000 random draws are
    tried and create fails the same way when all of them are taken (so when
    every 5-digit code is taken).  A successful create returns a 5-digit code
    absent from the registry and appends exactly that code to it. *)
Theorem create_room_code_contract rq cid nameF roomF rnd now s :
  let q := safeText roomF in
  let s' := create_handler rq cid nameF roomF rnd now s in
  (q <> "" -> regex_5digits q = false ->
     s' = respond rq (BError 400 "Room code must be 5 digits.") s) /\
  (q <> "" -> regex_5digits q = true -> mhas q (rooms s) = true ->
     s' = respond rq (BError 400 "Room code already in use.") s) /\
  (q = "" -> (forall j, j < ROOM_CODE_ATTEMPTS -> mhas (makeRoomCode rnd j) (rooms s) = true) ->
     s' = respond rq (BError 400 "Could not create room") s) /\
  (q = "" -> (forall n, rnd n < 10) ->
     (forall code, regex_5digits code = true -> mhas code (rooms s) = true) ->
     s' = respond rq (BError 400 "Could not create room") s) /\
  (forall code rs, createRoom q rnd now (rooms s) = inr (code, rs) ->
     (q <> "" -> code = q) /\
     ((q <> "" \/ forall n, rnd n < 10) -> regex_5digits code = true) /\
     ~ In code (map fst (rooms s)) /\
     map fst (rooms s') = app (map fst (rooms s)) [code]).
Proof.
  cbv zeta.
  assert (Hall : safeText roomF = "" ->
            (forall j, j < ROOM_CODE_ATTEMPTS -> mhas (makeRoomCode rnd j) (rooms s) = true) ->
            create_handler rq cid nameF roomF rnd now s
            = respond rq (BError 400 "Could not create room") s).
  { intros Hq Hj. unfold create_handler, createRoom. rewrite Hq. cbn [String.eqb negb].
    rewrite try_codes_all_taken; [reflexivity|]. intros j Hj'. apply Hj. lia. }
  split; [|split; [|split; [exact Hall|split]]].
  - intros Hq Hrx. unfold create_handler, createRoom.
    rewrite (proj2 (String.eqb_neq _ _) Hq), Hrx, orb_true_r. reflexivity.
  - intros Hq Hrx Hhas. unfold create_handler, createRoom.
    rewrite (proj2 (String.eqb_neq _ _) Hq), Hrx, (proj1 (regex_5digits_length _ Hrx)), Hhas.
    reflexivity.
  - intros Hq Hr Hfull. apply Hall; auto. intros j _. apply Hfull, makeRoomCode_5digits, Hr.
  - intros code rs Hcr.
    pose proof (createRoom_inr _ _ _ _ _ _ Hcr) as (_ & Hfresh & Hreq & Hrand).
    split; [intros Hq; apply Hreq, Hq|]. split; [|split].
    + intros Hd. destruct (String.eqb_spec (safeText roomF) "") as [Hq|Hq].
      * destruct Hd as [Hd|Hd]; [contradiction|].
        destruct (Hrand Hq) as [j ->]. apply makeRoomCode_5digits, Hd.
      * destruct (Hreq Hq) as [-> Hrx]. exact Hrx.
    + apply mget_None, Hfresh.
    + rewrite (create_handler_ok _ _ _ _ _ _ _ _ _ Hcr). cbn [rooms]. rewrite map_app. reflexivity.
Qed.

(** ** C3: the send endpoint *)

(** C3 (as amended): blank text is rejected before anything else, with no
    state change; a non-empty send from a client without a live room, or
    not listed in the room its session maps to, is rejected likewise; a
    non-empty send from a member broadcasts one [msg] event with the request
    time and the sender's stored name and answers [{ ok: true }]. *)
Theorem send_contract rq cid textF now s :
  let text := safeText textF in
  let s' := send_handler rq cid textF now s in
  (text = "" -> s' = respond rq (BError 400 "No text provided.") s) /\
  (text <> "" -> lookup_session cid s = None ->
     s' = respond rq (BError 400 "Not in a room.") s) /\
  (text <> "" -> forall code r, lookup_session cid s = Some (code, r) ->
     mget cid (clients r) = None -> s' = respond rq (BError 400 "Client not found.") s) /\
  (text <> "" -> forall code r c, lookup_session cid s = Some (code, r) ->
     mget cid (clients r) = Some c ->
     s' = respond rq BOk (broadcast code (EMsg code cid (name c) text now) s)).
Proof.
  cbv zeta. unfold send_handler. cbv zeta.
  split; [intros ->; reflexivity|].
  split; [|split]; intros Ht; rewrite (proj2 (String.eqb_neq _ _) Ht).
  - intros ->. reflexivity.
  - intros code r Hl Hc. rewrite Hl, Hc. reflexivity.
  - intros code r c Hl Hc. rewrite Hl, Hc. reflexivity.
Qed.

(** ** C8: presence snapshots after joins *)

Lemma uids_roster_of r : map uid (roster_of r) = map fst (clients r).
Proof. unfold roster_of. rewrite map_map. reflexivity. Qed.

Lemma digit_not_space a : is_digit a = true -> is_js_space a = false.
Proof.
  unfold is_digit, is_js_space. intros H. apply andb_true_iff in H as [H1 H2].
  apply Nat.leb_le in H1, H2.
  repeat rewrite (proj2 (Nat.eqb_neq _ _)) by lia. reflexivity.
Qed.

Lemma safeText_code R : regex_5digits R = true -> safeText (JString R) = R.
Proof.
  unfold regex_5digits.
  destruct R as [|a1 [|a2 [|a3 [|a4 [|a5 [|a6 q]]]]]]; cbn [list_ascii_of_string];
    try discriminate.
  intros H. repeat rewrite andb_true_iff in H.
  destruct H as [[[[H1 H2] H3] H4] H5].
  unfold safeText, trim. cbn [list_ascii_of_string drop_space].
  rewrite (digit_not_space _ H1). cbn [rev app drop_space].
  rewrite (digit_not_space _ H5). cbn [rev app string_of_list_ascii].
  reflexivity.
Qed.

Lemma roster_register_neq code cid nm now s R :
  code <> R -> roster R (register code cid nm now s) = roster R s.
Proof.
  intros Hne. unfold roster, register, set_clientRooms, set_rooms. cbn [rooms].
  rewrite mget_mupd_neq; auto.
Qed.

Lemma roster_set_pending f s R : roster R (set_pending f s) = roster R s.
Proof. reflexivity. Qed.
Lemma roster_set_timers f s R : roster R (set_timers f s) = roster R s.
Proof. reflexivity. Qed.
Lemma roster_clearTimeout p s R : roster R (clearTimeout p s) = roster R s.
Proof. reflexivity. Qed.

Ltac roster_simp :=
  repeat first [rewrite roster_set_pending | rewrite roster_set_timers
               | rewrite roster_clearTimeout | rewrite roster_respond
               | rewrite roster_broadcast | rewrite roster_push | rewrite roster_flush].

Lemma roster_create_other rq cid nameF roomF rnd now s R L :
  roster R s = Some L -> roster R (create_handler rq cid nameF roomF rnd now s) = Some L.
Proof.
  intros HL. destruct (createRoom (safeText roomF) rnd now (rooms s)) as [msg|[code rs]] eqn:Hcr.
  - unfold create_handler. rewrite Hcr. exact HL.
  - rewrite (create_handler_ok _ _ _ _ _ _ _ _ _ Hcr). unfold roster in *. cbn [rooms].
    rewrite mget_app. destruct (mget R (rooms s)); [exact HL|discriminate].
Qed.

Lemma roster_join_other rq cid roomF nameF now s R :
  safeText roomF <> R -> roster R (join_handler rq cid roomF nameF now s) = roster R s.
Proof.
  intros Hne. unfold join_handler. cbv zeta.
  destruct (_ || _ || _); [reflexivity|].
  destruct (mget (safeText roomF) (rooms s)); [|reflexivity].
  destruct (roomSnapshot _ _); roster_simp;
    rewrite roster_register_neq; auto.
Qed.

Lemma roster_join_same rq cid roomF nameF now s r :
  regex_5digits (safeText roomF) = true ->
  mget (safeText roomF) (rooms s) = Some r -> mget cid (clients r) = None ->
  roster (safeText roomF) (join_handler rq cid roomF nameF now s)
  = Some (app (roster_of r) [{| uid := cid; uname := or_user (safeText nameF) |}]).
Proof.
  intros Hrx Hget Hcid. rewrite (join_handler_ok _ _ _ _ _ _ _ Hrx Hget Hcid). cbv zeta.
  roster_simp. unfold roster. cbn [rooms].
  rewrite mget_mupd_eq, Hget. cbn. unfold roster_of. cbn. rewrite map_app. reflexivity.
Qed.

Lemma roster_send rq cid textF now s R :
  roster R (send_handler rq cid textF now s) = roster R s.
Proof.
  unfold send_handler. cbv zeta. destruct (String.eqb _ _); [reflexivity|].
  destruct (lookup_session cid s) as [[code r]|]; [|reflexivity].
  destruct (mget cid (clients r)); roster_simp; reflexivity.
Qed.

Lemma roster_poll rq0 now s R : roster R (poll_handler rq0 now s) = roster R s.
Proof.
  unfold poll_handler. destruct (lookup_session (rcid rq0) s) as [[code r]|]; [|reflexivity].
  destruct (mget (rcid rq0) (clients r)) as [c|]; [|reflexivity].
  destruct (events c).
  - destruct (mget (rcid rq0) (pendingPolls _)); roster_simp;
      rewrite roster_upd_client; reflexivity.
  - roster_simp. rewrite !roster_upd_client; reflexivity.
Qed.

Lemma roster_timeout rq0 s R : roster R (poll_timeout rq0 s) = roster R s.
Proof. unfold poll_timeout. destruct (existsb _ _); reflexivity. Qed.

Lemma roster_close rq0 s R : roster R (poll_close rq0 s) = roster R s.
Proof.
  unfold poll_close. destruct (mget _ _); [destruct (req_eqb _ _)|]; reflexivity.
Qed.

(** One step that removes nobody appends to room [R]'s roster exactly the
    client of a join aimed at [R]. *)
Lemma roster_step o s R L :
  removes o = false -> regex_5digits R = true -> roster R s = Some L ->
  (forall rq cid roomF nameF now, o = OJoin rq cid roomF nameF now ->
     safeText roomF = R -> ~ In cid (map uid L)) ->
  exists L', roster R (step o s) = Some (app L L')
             /\ map uid L' = joiners R [o].
Proof.
  intros Hrem HR HL Hfresh.
  destruct o as [rq0 cid nameF roomF rnd now|rq0 cid roomF nameF now|rq0 cid|rq0 cid textF now
                |rq0 now|rq0|rq0|now]; cbn [step removes joiners flat_map] in *;
    try discriminate Hrem.
  - exists []. rewrite app_nil_r. split; [|reflexivity].
    apply roster_create_other; auto.
  - destruct (String.eqb_spec (safeText roomF) R) as [HeqR|HneR].
    + subst R. unfold roster in HL.
      destruct (mget (safeText roomF) (rooms s)) as [r|] eqn:Hget; [|discriminate].
      inversion HL; subst L.
      assert (Hcid : mget cid (clients r) = None).
      { apply mget_None. rewrite <- uids_roster_of. eapply Hfresh; eauto. }
      eexists. rewrite (roster_join_same _ _ _ _ _ _ _ HR Hget Hcid). split; reflexivity.
    + exists []. rewrite app_nil_r. split; [|reflexivity].
      rewrite roster_join_other; auto.
  - exists []. rewrite app_nil_r, roster_send. auto.
  - exists []. rewrite app_nil_r, roster_poll. auto.
  - exists []. rewrite app_nil_r, roster_timeout. auto.
  - exists []. rewrite app_nil_r, roster_close. auto.
Qed.

Lemma roster_run ops s R L :
  Forall (fun o => removes o = false) ops -> regex_5digits R = true -> roster R s = Some L ->
  NoDup (app (map uid L) (joiners R ops)) ->
  exists L', roster R (run ops s) = Some L' /\ map uid L' = app (map uid L) (joiners R ops).
Proof.
  revert s L. induction ops as [|o ops IH]; intros s L Hrem HR HL Hnd.
  - exists L. cbn. rewrite app_nil_r. auto.
  - inversion Hrem as [|? ? Ho Hops]; subst.
    assert (Hj : joiners R (o :: ops) = app (joiners R [o]) (joiners R ops)).
    { cbn [joiners flat_map]. rewrite app_nil_r. reflexivity. }
    destruct (roster_step o s R L Ho HR HL) as (L1 & HL1 & Hu1).
    { intros rq0 cid roomF nameF now -> HeqR. rewrite Hj in Hnd. cbn [joiners flat_map] in Hnd.
      rewrite HeqR, String.eqb_refl in Hnd. cbn in Hnd.
      intros Hin. apply NoDup_remove_2 in Hnd. apply Hnd. apply in_or_app. left. exact Hin. }
    destruct (IH (step o s) (app L L1) Hops HR HL1) as (L' & HL' & Hu').
    { rewrite map_app, Hu1, <- app_assoc, <- Hj. exact Hnd. }
    exists L'. cbn [run]. split; auto. rewrite Hu', map_app, Hu1, <- app_assoc, <- Hj. reflexivity.
Qed.

Lemma roomSnapshot_roster R s :
  roomSnapshot R (rooms s)
  = option_map (fun L => {| sroom := R; susers := L; scount := length L |}) (roster R s).
Proof. unfold roomSnapshot, roster. destruct (mget R (rooms s)); reflexivity. Qed.

(** ** Well-formedness of reachable states *)

Section MapFacts2.
Context {V : Type}.
Implicit Types (m : list (string * V)) (k : string) (v : V).

Lemma In_mupd k f m k' v' :
  In (k', v') (mupd k f m) -> In (k', v') m \/ (k' = k /\ exists v, In (k, v) m /\ v' = f v).
Proof.
  induction m as [|[k0 v0] m IH]; simpl; auto.
  destruct (String.eqb_spec k k0) as [<-|Hne].
  - intros [H|H]; [inversion H; subst; right; eauto|auto].
  - intros [H|H]; [auto|]. destruct (IH H) as [?|(? & v & ? & ?)]; auto. right. eauto.
Qed.

Lemma In_mdel k m k' v' : In (k', v') (mdel k m) -> In (k', v') m.
Proof.
  induction m as [|[k0 v0] m IH]; simpl; auto.
  destruct (String.eqb k k0); simpl; intuition.
Qed.

Lemma In_mset k v m k' v' : In (k', v') (mset k v m) -> (k' = k /\ v' = v) \/ In (k', v') m.
Proof.
  unfold mset. destruct (mhas k m).
  - intros H. apply In_mupd in H as [H|(-> & _ & _ & ->)]; auto.
  - rewrite in_app_iff. intros [H|[H|[]]]; auto. inversion H; auto.
Qed.

Lemma mget_mdel_Some k k' m v : mget k' (mdel k m) = Some v -> exists v', mget k' m = Some v'.
Proof.
  intros H. destruct (mget k' m) eqn:E; eauto.
  apply mget_None in E. exfalso. apply E. apply keys_mdel_incl with k.
  apply mget_In in H. apply (in_map fst) in H. exact H.
Qed.

Lemma mhas_existsb k m : mhas k m = existsb (String.eqb k) (map fst m).
Proof.
  unfold mhas. induction m as [|[k0 v0] m IH]; simpl; auto.
  destruct (String.eqb k k0); auto.
Qed.

Lemma keys_mdel k m : map fst (mdel k m) = sdel k (map fst m).
Proof.
  induction m as [|[k0 v0] m IH]; simpl; auto.
  destruct (String.eqb k k0); simpl; congruence.
Qed.

Lemma keys_mset_sset k v m : map fst (mset k v m) = sset k (map fst m).
Proof. rewrite keys_mset, mhas_existsb. reflexivity. Qed.

Lemma mget_Some_keys k m v : mget k m = Some v -> In k (map fst m).
Proof. intros H. apply mget_In in H. apply (in_map fst) in H. exact H. Qed.

Lemma mget_keys_Some k m : In k (map fst m) -> exists v, mget k m = Some v.
Proof. intros H. destruct (mget k m) eqn:E; eauto. apply mget_None in E. contradiction. Qed.
End MapFacts2.

Lemma In_sdel x y l : In y (sdel x l) -> In y l.
Proof. induction l as [|z l IH]; simpl; auto. destruct (String.eqb x z); simpl; intuition. Qed.

Lemma NoDup_sdel x l : NoDup l -> NoDup (sdel x l).
Proof.
  induction l as [|z l IH]; simpl; auto. intros Hnd; inversion Hnd; subst.
  destruct (String.eqb x z); auto. constructor; auto. intros Hin. apply In_sdel in Hin. auto.
Qed.

Lemma sset_fresh x l : ~ In x l -> sset x l = app l [x].
Proof.
  intros H. unfold sset. destruct (existsb (String.eqb x) l) eqn:E; auto.
  apply existsb_exists in E as (y & Hy & Heq). apply String.eqb_eq in Heq. subst. contradiction.
Qed.

Lemma view_mupd code F G rs :
  (forall r, map fst (clients (F r)) = G (map fst (clients r))) ->
  members_view (mupd code F rs) = mupd code G (members_view rs).
Proof.
  unfold members_view. intros HFG. induction rs as [|[k r] rs IH]; simpl; auto.
  destruct (String.eqb code k); simpl; rewrite ?HFG; f_equal; auto.
Qed.

Lemma view_mupd_same code F rs :
  (forall r, map fst (clients (F r)) = map fst (clients r)) ->
  members_view (mupd code F rs) = members_view rs.
Proof.
  unfold members_view. intros HF. induction rs as [|[k r] rs IH]; simpl; auto.
  destruct (String.eqb code k); simpl; rewrite ?HF; f_equal; auto.
Qed.

Lemma view_mdel code rs : members_view (mdel code rs) = mdel code (members_view rs).
Proof.
  unfold members_view. induction rs as [|[k r] rs IH]; simpl; auto.
  destruct (String.eqb code k); simpl; f_equal; auto.
Qed.

Lemma mget_view code rs :
  mget code (members_view rs) = option_map (fun r => map fst (clients r)) (mget code rs).
Proof.
  unfold members_view. induction rs as [|[k r] rs IH]; simpl; auto.
  destruct (String.eqb code k); auto.
Qed.

Lemma In_view code r rs : In (code, r) rs -> In (code, map fst (clients r)) (members_view rs).
Proof. intros H. unfold members_view. apply (in_map (fun e => (fst e, map fst (clients (snd e))))) in H. exact H. Qed.

Lemma keys_view rs : map fst (members_view rs) = map fst rs.
Proof. unfold members_view. rewrite map_map. reflexivity. Qed.

Lemma rooms_ok_mupd code G v :
  rooms_ok v ->
  (forall ids, NoDup ids -> NoDup (G ids)) ->
  (forall ids x, In x (G ids) -> In x ids) ->
  rooms_ok (mupd code G v).
Proof.
  intros (Hk & Hn & Hx) HG1 HG2. split; [|split].
  - rewrite keys_mupd. exact Hk.
  - intros c ids H. apply In_mupd in H as [H|(_ & ids0 & H & ->)]; eauto.
  - intros id c1 i1 c2 i2 H1 H2 I1 I2.
    apply In_mupd in H1 as [H1|(-> & j1 & H1 & ->)];
      apply In_mupd in H2 as [H2|(-> & j2 & H2 & ->)];
      (eapply Hx; [exact H1|exact H2|eauto|eauto]).
Qed.

Lemma rooms_ok_mdel code v : rooms_ok v -> rooms_ok (mdel code v).
Proof.
  intros (Hk & Hn & Hx). split; [|split].
  - apply NoDup_mdel. exact Hk.
  - intros c ids H. apply In_mdel in H. eauto.
  - intros id c1 i1 c2 i2 H1 H2. apply In_mdel in H1. apply In_mdel in H2. eauto.
Qed.

Lemma rooms_ok_add code v :
  rooms_ok v -> ~ In code (map fst v) -> rooms_ok (app v [(code, [])]).
Proof.
  intros (Hk & Hn & Hx) Hc. split; [|split].
  - rewrite map_app. apply NoDup_app; [exact Hk| |].
    + simpl. constructor; [simpl; tauto|constructor].
    + simpl. intros x Hx1 [<-|[]]. contradiction.
  - intros c ids H. apply in_app_iff in H as [H|[H|[]]]; eauto.
    inversion H; subst. constructor.
  - intros id c1 i1 c2 i2 H1 H2 I1 I2.
    apply in_app_iff in H1 as [H1|[H1|[]]]; apply in_app_iff in H2 as [H2|[H2|[]]]; eauto;
      try (inversion H1; subst; simpl in I1; tauto);
      try (inversion H2; subst; simpl in I2; tauto).
Qed.

Lemma rooms_ok_join code cid v :
  rooms_ok v -> (forall c ids, In (c, ids) v -> ~ In cid ids) ->
  rooms_ok (mupd code (sset cid) v).
Proof.
  intros (Hk & Hn & Hx) Hf. split; [|split].
  - rewrite keys_mupd. exact Hk.
  - intros c ids H. apply In_mupd in H as [H|(-> & ids0 & H & ->)]; eauto.
    rewrite sset_fresh by eauto. apply NoDup_app; [eauto| |].
    + constructor; [simpl; tauto|constructor].
    + simpl. intros x Hx1 [<-|[]]. eapply Hf; eauto.
  - intros id c1 i1 c2 i2 H1 H2 I1 I2.
    apply In_mupd in H1 as [H1|(-> & j1 & H1 & ->)];
      apply In_mupd in H2 as [H2|(-> & j2 & H2 & ->)]; try reflexivity.
    + eapply Hx; [exact H1|exact H2|exact I1|exact I2].
    + rewrite sset_fresh in I2 by (eapply Hf; exact H2).
      apply in_app_iff in I2 as [I2|[<-|[]]].
      * eapply Hx; [exact H1|exact H2|exact I1|exact I2].
      * exfalso; eapply Hf; [exact H1|exact I1].
    + rewrite sset_fresh in I1 by (eapply Hf; exact H1).
      apply in_app_iff in I1 as [I1|[<-|[]]].
      * eapply Hx; [exact H1|exact H2|exact I1|exact I2].
      * exfalso; eapply Hf; [exact H2|exact I2].
Qed.

Lemma pend_ok_mdel k pp : pend_ok pp -> pend_ok (mdel k pp).
Proof.
  intros [Hn Hr]. split; [apply NoDup_mdel; exact Hn|].
  intros k' p H. apply In_mdel in H. eauto.
Qed.

Lemma pend_ok_mset k q pp : pend_ok pp -> rcid q = k -> pend_ok (mset k q pp).
Proof.
  intros [Hn Hr] Hq. split; [apply NoDup_mset; exact Hn|].
  intros k' p H. apply In_mset in H as [[-> ->]|H]; eauto.
Qed.

Lemma mupd_ext_in {V} k (f g : V -> V) m :
  (forall k' v, In (k', v) m -> f v = g v) -> mupd k f m = mupd k g m.
Proof.
  induction m as [|[k0 v0] m IH]; simpl; intros H; auto.
  destruct (String.eqb k k0); [rewrite (H k0 v0); auto|]. f_equal. eauto.
Qed.

Lemma rooms_ok_join_app code cid v :
  rooms_ok v -> (forall c ids, In (c, ids) v -> ~ In cid ids) ->
  rooms_ok (mupd code (fun ids => app ids [cid]) v).
Proof.
  intros H Hf. rewrite (mupd_ext_in code _ (sset cid)).
  - apply rooms_ok_join; auto.
  - intros c ids Hin. symmetry. apply sset_fresh. eauto.
Qed.

(** *** The shape invariant *)

Lemma SI_respond q b s : SI s -> SI (respond q b s).
Proof. exact (fun H => H). Qed.

Lemma SI_clearTimeout q s : SI s -> SI (clearTimeout q s).
Proof. exact (fun H => H). Qed.

Lemma SI_upd_client code id f s : SI s -> SI (upd_client code id f s).
Proof.
  intros [H1 H2]. split; [|exact H2]. unfold upd_client, set_rooms; cbn [rooms].
  rewrite view_mupd_same; [exact H1|]. intros r. apply keys_mupd.
Qed.

Lemma SI_set_pending_mdel k s : SI s -> SI (set_pending (mdel k) s).
Proof. intros [H1 H2]. split; [exact H1|apply pend_ok_mdel; exact H2]. Qed.

Lemma SI_flush id s : SI s -> SI (flushClient id s).
Proof.
  intros H. unfold flushClient.
  destruct (mget id (pendingPolls s)) as [p|]; [|exact H].
  destruct (find_events id (rooms s)) as [[code evs]|]; [|exact H].
  apply SI_respond, SI_upd_client, SI_set_pending_mdel, SI_clearTimeout, H.
Qed.

Lemma view_push code id e s :
  members_view (rooms (push_event code id e s)) = members_view (rooms s).
Proof. apply view_mupd_same. intros r. apply keys_mupd. Qed.

Lemma view_flush id s : members_view (rooms (flushClient id s)) = members_view (rooms s).
Proof.
  unfold flushClient. destruct (mget id (pendingPolls s)) as [p|]; auto.
  destruct (find_events id (rooms s)) as [[code evs]|]; auto.
  apply view_mupd_same. intros r. apply keys_mupd.
Qed.

Lemma SI_broadcast_ids code e ids s : SI s -> SI (broadcast_ids code e ids s).
Proof.
  revert s; induction ids as [|id ids IH]; simpl; intros s H; auto.
  apply IH, SI_flush, SI_upd_client, H.
Qed.

Lemma SI_broadcast code e s : SI s -> SI (broadcast code e s).
Proof. unfold broadcast. destruct (mget code (rooms s)); auto using SI_broadcast_ids. Qed.

Lemma SI_cancel_pending id s : SI s -> SI (cancel_pending id s).
Proof.
  unfold cancel_pending. destruct (mget id (pendingPolls s)); auto.
  intros H. apply SI_set_pending_mdel, SI_clearTimeout, H.
Qed.

Lemma SI_del_client code id s : SI s -> SI (del_client code id s).
Proof.
  intros [H1 H2]. split; [|exact H2]. unfold del_client, set_rooms; cbn [rooms].
  rewrite (view_mupd code _ (sdel id)).
  - apply rooms_ok_mupd; eauto using NoDup_sdel, In_sdel.
  - intros r. apply keys_mdel.
Qed.

Lemma SI_rooms_mdel code s : SI s -> SI (set_rooms (mdel code) s).
Proof.
  intros [H1 H2]. split; [|exact H2]. cbn [rooms set_rooms].
  rewrite view_mdel. apply rooms_ok_mdel. exact H1.
Qed.

(** *** Parked clients *)

Lemma parked_ok_mupd crs rs code F k :
  parked_ok crs rs k ->
  (forall r c, mget k (clients r) = Some c -> events c = [] ->
     exists c', mget k (clients (F r)) = Some c' /\ events c' = []) ->
  parked_ok crs (mupd code F rs) k.
Proof.
  intros (code' & r & c & H1 & H2 & H3 & H4 & H5) HF.
  destruct (String.eqb_spec code' code) as [<-|Hne].
  - destruct (HF r c H4 H5) as (c' & H6 & H7).
    exists code', (F r), c'. rewrite mget_mupd_eq, H3. auto.
  - exists code', r, c. rewrite mget_mupd_neq by exact Hne. auto.
Qed.

Lemma parked_ok_upd crs rs code id f k :
  parked_ok crs rs k -> (k <> id \/ forall c, events c = [] -> events (f c) = []) ->
  parked_ok crs (mupd code (fun r => {| clients := mupd id f (clients r);
                                        createdAt := createdAt r |}) rs) k.
Proof.
  intros H Hor. apply parked_ok_mupd; auto. intros r c H4 H5. cbn [clients].
  destruct (String.eqb_spec k id) as [<-|Hne].
  - rewrite mget_mupd_eq, H4. exists (f c). split; auto.
    destruct Hor as [Hn|Hf]; [congruence|auto].
  - rewrite mget_mupd_neq by exact Hne. eauto.
Qed.

Lemma parked_ok_del crs rs code id k :
  parked_ok crs rs k -> k <> id ->
  parked_ok crs (mupd code (fun r => {| clients := mdel id (clients r);
                                        createdAt := createdAt r |}) rs) k.
Proof.
  intros H Hne. apply parked_ok_mupd; auto. intros r c H4 H5. cbn [clients].
  rewrite mget_mdel_neq by exact Hne. eauto.
Qed.

Lemma parked_ok_reg crs rs code cid c0 k :
  parked_ok crs rs k -> k <> cid ->
  parked_ok crs (mupd code (fun r => {| clients := mset cid c0 (clients r);
                                        createdAt := createdAt r |}) rs) k.
Proof.
  intros H Hne. apply parked_ok_mupd; auto. intros r c H4 H5. cbn [clients].
  rewrite mget_mset_neq by exact Hne. eauto.
Qed.

Lemma parked_ok_crs crs crs' rs k :
  parked_ok crs rs k -> mget k crs' = mget k crs -> parked_ok crs' rs k.
Proof.
  intros (code & r & c & H1 & H2 & H3 & H4 & H5) He.
  exists code, r, c. rewrite He. auto.
Qed.

Lemma parked_ok_rooms_mdel crs rs code k :
  parked_ok crs rs k -> (forall r, mget code rs = Some r -> clients r = []) ->
  parked_ok crs (mdel code rs) k.
Proof.
  intros (code' & r & c & H1 & H2 & H3 & H4 & H5) Hemp.
  destruct (String.eqb_spec code' code) as [<-|Hne].
  - rewrite (Hemp r H3) in H4. discriminate.
  - exists code', r, c. rewrite mget_mdel_neq by exact Hne. auto.
Qed.

Lemma parked_ok_app crs rs x k : parked_ok crs rs k -> parked_ok crs (app rs x) k.
Proof.
  intros (code & r & c & H1 & H2 & H3 & H4 & H5).
  exists code, r, c. rewrite mget_app, H3. auto.
Qed.

Lemma parked_ok_member crs rs k : parked_ok crs rs k -> in_some_room k rs.
Proof.
  intros (code & r & c & H1 & H2 & H3 & H4 & H5).
  exists code, r. split; [apply mget_In; exact H3|eapply mget_Some_keys; exact H4].
Qed.

Lemma find_events_In id rs code r c :
  In (code, r) rs -> mget id (clients r) = Some c -> events c <> [] -> find_events id rs <> None.
Proof.
  induction rs as [|[code' r'] rs IH]; simpl; [tauto|].
  intros [H|H] Hc He.
  - inversion H; subst. rewrite Hc. destruct (events c); congruence.
  - destruct (mget id (clients r')) as [c'|];
      [destruct (events c'); [eauto|congruence]|eauto].
Qed.

(** [flushClient id] restores the invariant for [id] once [id] is parked
    with a non-empty queue somewhere, and keeps it for every other client. *)
Lemma parked_flush id s :
  SI s ->
  (forall k p, k <> id -> mget k (pendingPolls s) = Some p ->
     parked_ok (clientRooms s) (rooms s) k) ->
  (forall p, mget id (pendingPolls s) = Some p ->
     parked_ok (clientRooms s) (rooms s) id \/ find_events id (rooms s) <> None) ->
  parked_inv (flushClient id s).
Proof.
  intros [_ [Hnd _]] Hk Hid. unfold flushClient.
  destruct (mget id (pendingPolls s)) as [p|] eqn:Ep.
  - destruct (find_events id (rooms s)) as [[code evs]|] eqn:Ef.
    + intros k q Hq. cbn [pendingPolls clientRooms rooms respond upd_client set_rooms
                          set_pending clearTimeout set_timers] in Hq |- *.
      destruct (String.eqb_spec k id) as [->|Hne].
      * rewrite mget_mdel_eq in Hq by exact Hnd. discriminate.
      * rewrite mget_mdel_neq in Hq by exact Hne.
        apply parked_ok_upd; [eapply Hk; eauto|right; intros c _; reflexivity].
    + intros k q Hq. destruct (String.eqb_spec k id) as [->|Hne].
      * rewrite Ep in Hq. injection Hq as <-. destruct (Hid p eq_refl) as [H|H]; [exact H|congruence].
      * eauto.
  - intros k q Hq. destruct (String.eqb_spec k id) as [->|Hne]; [congruence|eauto].
Qed.

Lemma parked_cancel id s :
  pend_ok (pendingPolls s) ->
  (forall k p, k <> id -> mget k (pendingPolls s) = Some p ->
     parked_ok (clientRooms s) (rooms s) k) ->
  parked_inv (cancel_pending id s).
Proof.
  intros [Hnd _] Hk. unfold cancel_pending. destruct (mget id (pendingPolls s)) as [p|] eqn:Ep.
  - intros k q Hq. cbn [pendingPolls clientRooms rooms set_pending clearTimeout set_timers] in Hq |- *.
    destruct (String.eqb_spec k id) as [->|Hne].
    + rewrite mget_mdel_eq in Hq by exact Hnd. discriminate.
    + rewrite mget_mdel_neq in Hq by exact Hne. eauto.
  - intros k q Hq. destruct (String.eqb_spec k id) as [->|Hne]; [congruence|eauto].
Qed.

(** *** The invariant through the building blocks of the handlers *)

Lemma W_respond q b s : WF s -> WF (respond q b s).
Proof. exact (fun H => H). Qed.

Lemma W_clearTimeout q s : WF s -> WF (clearTimeout q s).
Proof. exact (fun H => H). Qed.

Lemma W_upd code id f s :
  WF s -> (forall c, events c = [] -> events (f c) = []) -> WF (upd_client code id f s).
Proof.
  intros [HS HP] Hf. split; [apply SI_upd_client, HS|].
  intros k p Hp. apply parked_ok_upd; [eapply HP; exact Hp|right; exact Hf].
Qed.

Lemma W_set_pending_mdel k s : WF s -> WF (set_pending (mdel k) s).
Proof.
  intros [HS HP]. split; [apply SI_set_pending_mdel, HS|].
  intros k' p Hp. cbn [pendingPolls set_pending] in Hp.
  apply mget_mdel_Some in Hp as [p' Hp']. eapply HP. exact Hp'.
Qed.

Lemma W_push_flush code id e r s :
  WF s -> mget code (rooms s) = Some r -> In id (map fst (clients r)) ->
  WF (flushClient id (push_event code id e s)).
Proof.
  intros [HS HP] Hr Hid. split; [apply SI_flush, SI_upd_client, HS|].
  apply parked_flush; [apply SI_upd_client, HS| |].
  - intros k p Hne Hp. apply parked_ok_upd; [eapply HP; exact Hp|left; exact Hne].
  - intros p _. right. destruct (mget_keys_Some _ _ Hid) as [c Hc].
    eapply (find_events_In id _ code).
    + apply mget_In. cbn [push_event upd_client set_rooms rooms].
      rewrite mget_mupd_eq, Hr. reflexivity.
    + cbn [clients]. rewrite mget_mupd_eq, Hc. reflexivity.
    + cbn [events]. intros H. apply app_eq_nil in H as [_ H]. discriminate.
Qed.

Lemma W_broadcast_ids code e ids r s :
  WF s -> mget code (rooms s) = Some r ->
  (forall id, In id ids -> In id (map fst (clients r))) ->
  WF (broadcast_ids code e ids s).
Proof.
  revert r s. induction ids as [|id ids IH]; simpl; intros r s HW Hr Hids; auto.
  assert (Hv : members_view (rooms (flushClient id (push_event code id e s)))
               = members_view (rooms s)) by (rewrite view_flush, view_push; reflexivity).
  pose proof (f_equal (mget code) Hv) as Hg. rewrite !mget_view, Hr in Hg.
  destruct (mget code (rooms (flushClient id (push_event code id e s)))) as [r'|] eqn:Hr';
    [|discriminate].
  injection Hg as Hg.
  apply (IH r'); auto.
  - eapply W_push_flush; eauto.
  - intros x Hx. rewrite Hg. auto.
Qed.

Lemma W_broadcast code e s : WF s -> WF (broadcast code e s).
Proof.
  intros HW. unfold broadcast. destruct (mget code (rooms s)) as [r|] eqn:Hr; auto.
  eapply W_broadcast_ids; eauto.
Qed.

Lemma W_broadcast_presence code s : WF s -> WF (broadcast_presence code s).
Proof. unfold broadcast_presence. destruct (roomSnapshot code (rooms s)); auto using W_broadcast. Qed.

Lemma W_del_cancel code id s : WF s -> WF (cancel_pending id (del_client code id s)).
Proof.
  intros [HS HP]. split; [apply SI_cancel_pending, SI_del_client, HS|].
  apply parked_cancel; [apply (proj2 (SI_del_client code id s HS))|].
  intros k p Hne Hp. apply parked_ok_del; [eapply HP; exact Hp|exact Hne].
Qed.

Lemma W_leave_core code id s :
  WF s -> WF (cancel_pending id (set_clientRooms (mdel id) (del_client code id s))).
Proof.
  intros [HS HP]. split; [apply SI_cancel_pending, (SI_del_client code id s HS)|].
  apply parked_cancel; [apply (proj2 (SI_del_client code id s HS))|].
  intros k p Hne Hp. cbn [clientRooms set_clientRooms].
  eapply parked_ok_crs; [|apply mget_mdel_neq; exact Hne].
  apply parked_ok_del; [eapply HP; exact Hp|exact Hne].
Qed.

Lemma W_rooms_mdel code s : WF s -> room_size code s = 0 -> WF (set_rooms (mdel code) s).
Proof.
  intros [HS HP] Hsz. split; [apply SI_rooms_mdel, HS|].
  intros k p Hp. apply parked_ok_rooms_mdel; [eapply HP; exact Hp|].
  intros r Hr. unfold room_size in Hsz. rewrite Hr in Hsz.
  destruct (clients r); [reflexivity|discriminate].
Qed.

Lemma W_evict now code id s : WF s -> WF (evict_if_stale now code id s).
Proof.
  intros HW. unfold evict_if_stale.
  destruct (mget code (rooms s)) as [r|]; auto.
  destruct (mget id (clients r)) as [c|]; auto.
  destruct (Z.gtb (now - lastSeen c) CLIENT_TIMEOUT_MS); auto using W_del_cancel.
Qed.

Lemma W_sweep now code s : WF s -> WF (sweep_room now code s).
Proof.
  intros HW. unfold sweep_room. destruct (mget code (rooms s)) as [r|]; auto.
  assert (H1 : forall ids s0, WF s0 ->
            WF (fold_left (fun s id => evict_if_stale now code id s) ids s0)).
  { induction ids as [|id ids IH]; simpl; auto using W_evict. }
  set (s1 := fold_left _ _ _).
  assert (H0 : WF s1) by (apply H1; exact HW).
  assert (H2 : WF (if Nat.ltb 0 (room_size code s1) then broadcast_presence code s1 else s1)).
  { destruct (Nat.ltb 0 (room_size code s1)); auto using W_broadcast_presence. }
  destruct (Nat.eqb_spec (room_size code (if Nat.ltb 0 (room_size code s1)
             then broadcast_presence code s1 else s1)) 0); auto using W_rooms_mdel.
Qed.

Lemma W_cleanup now s : WF s -> WF (cleanup now s).
Proof.
  unfold cleanup. generalize (map fst (rooms s)). intros codes. revert s.
  induction codes as [|code codes IH]; simpl; auto using W_sweep.
Qed.

Lemma W_timeout q s : WF s -> WF (poll_timeout q s).
Proof.
  intros HW. unfold poll_timeout. destruct (existsb (req_eqb q) (timers s)); auto.
  apply W_respond, W_set_pending_mdel, W_clearTimeout, HW.
Qed.

Lemma W_close q s : WF s -> WF (poll_close q s).
Proof.
  intros HW. unfold poll_close. destruct (mget (rcid q) (pendingPolls s)) as [p|]; auto.
  destruct (req_eqb p q); auto. apply W_set_pending_mdel, W_clearTimeout, HW.
Qed.

Lemma lookup_session_Some cid s code r :
  lookup_session cid s = Some (code, r) ->
  mget cid (clientRooms s) = Some code /\ code <> "" /\ mget code (rooms s) = Some r.
Proof.
  unfold lookup_session. destruct (mget cid (clientRooms s)) as [code'|]; [|discriminate].
  destruct (String.eqb_spec code' "") as [_|Hne]; [discriminate|].
  destruct (mget code' (rooms s)) as [r'|] eqn:E; [|discriminate].
  intros H. inversion H; subst. auto.
Qed.

Lemma W_park cid q s :
  WF s -> rcid q = cid -> parked_ok (clientRooms s) (rooms s) cid ->
  WF (set_pending (mset cid q) s).
Proof.
  intros [[HR HPd] HP] Hq Hok. split; [split; [exact HR|apply pend_ok_mset; auto]|].
  intros k p Hp. cbn [pendingPolls set_pending clientRooms rooms] in Hp |- *.
  destruct (String.eqb_spec k cid) as [->|Hne]; [exact Hok|].
  rewrite mget_mset_neq in Hp by exact Hne. eapply HP. exact Hp.
Qed.

Lemma W_poll q now s : WF s -> WF (poll_handler q now s).
Proof.
  intros HW. unfold poll_handler.
  destruct (lookup_session (rcid q) s) as [[code r]|] eqn:Hl; [|apply W_respond, HW].
  destruct (mget (rcid q) (clients r)) as [c|] eqn:Hc; [|apply W_respond, HW].
  assert (HW1 : WF (upd_client code (rcid q) (set_lastSeen now) s))
    by (apply W_upd; [exact HW|intros c' H; exact H]).
  destruct (events c) as [|ev evs] eqn:He.
  - apply lookup_session_Some in Hl as (H1 & H2 & H3).
    assert (Hok : parked_ok (clientRooms s)
                    (rooms (upd_client code (rcid q) (set_lastSeen now) s)) (rcid q)).
    { exists code, {| clients := mupd (rcid q) (set_lastSeen now) (clients r);
                      createdAt := createdAt r |}, (set_lastSeen now c).
      cbn [upd_client set_rooms rooms]. rewrite mget_mupd_eq, H3. cbn [clients].
      rewrite mget_mupd_eq, Hc. auto. }
    destruct (mget (rcid q) (pendingPolls _)) as [ex|];
      apply W_park; auto; apply W_respond, W_clearTimeout, HW1.
  - apply W_respond, W_upd; [exact HW1|intros c' _; reflexivity].
Qed.

(** *** The invariant through each endpoint *)

Lemma W_create q cid nameF roomF rnd now s :
  WF s -> ~ in_some_room cid (rooms s) -> WF (create_handler q cid nameF roomF rnd now s).
Proof.
  intros [[HR HPd] HP] Hf.
  destruct (createRoom (safeText roomF) rnd now (rooms s)) as [msg|[code rs]] eqn:Hcr.
  - unfold create_handler. rewrite Hcr. split; [split|]; assumption.
  - pose proof (createRoom_inr _ _ _ _ _ _ Hcr) as (_ & Hfresh & _).
    rewrite (create_handler_ok _ _ _ _ _ _ _ _ _ Hcr). cbv zeta.
    split; [split|].
    + cbn [rooms]. unfold members_view at 1. rewrite map_app. fold (members_view (rooms s)).
      cbn [map fst snd clients].
      assert (Hv : mget code (members_view (rooms s)) = None)
        by (rewrite mget_view, Hfresh; reflexivity).
      replace (app (members_view (rooms s)) [(code, [cid])])
        with (mupd code (sset cid) (app (members_view (rooms s)) [(code, [])]))
        by (rewrite mupd_app_fresh by exact Hv; cbn; rewrite String.eqb_refl; reflexivity).
      apply rooms_ok_join.
      * apply rooms_ok_add; [exact HR|]. rewrite keys_view. apply mget_None. exact Hfresh.
      * intros c ids Hin. apply in_app_iff in Hin as [Hin|[Hin|[]]].
        -- unfold members_view in Hin. apply in_map_iff in Hin as ([c' r] & Heq & Hin').
           injection Heq as <- <-. intros Hcid. apply Hf. exists c', r. auto.
        -- injection Hin as <- <-. simpl. tauto.
    + exact HPd.
    + intros k p Hp. cbn [pendingPolls clientRooms rooms] in Hp |- *.
      pose proof (HP k p Hp) as Hok.
      assert (Hne : k <> cid) by (intros ->; apply Hf; eapply parked_ok_member; exact Hok).
      eapply parked_ok_crs; [|apply mget_mset_neq; exact Hne].
      apply parked_ok_app. exact Hok.
Qed.

Lemma WF_join_state s cid r R c0 :
  WF s -> ~ in_some_room cid (rooms s) -> mget R (rooms s) = Some r ->
  WF (mkState (mupd R (fun _ => {| clients := app (clients r) [(cid, c0)];
                                   createdAt := createdAt r |}) (rooms s))
              (pendingPolls s) (timers s) (mset cid R (clientRooms s)) (out s)).
Proof.
  intros HW Hf Hget.
  set (F := fun x : room => {| clients := app (clients x) [(cid, c0)]; createdAt := createdAt x |}).
  assert (E : mupd R (fun _ => F r) (rooms s) = mupd R F (rooms s))
    by (symmetry; apply mupd_const; exact Hget).
  destruct HW as [[HR HPd] HP].
  split; [split|].
  - cbn [rooms]. change (rooms_ok (members_view (mupd R (fun _ => F r) (rooms s)))).
    rewrite E, (view_mupd R F (fun ids => app ids [cid])).
    + apply rooms_ok_join_app; [exact HR|].
      intros c ids Hin. unfold members_view in Hin.
      apply in_map_iff in Hin as ([c' r'] & Heq & Hin').
      injection Heq as <- <-. intros Hc. apply Hf. exists c', r'. auto.
    + intros x. unfold F. cbn [clients]. rewrite map_app. reflexivity.
  - exact HPd.
  - intros k p Hp. cbn [pendingPolls clientRooms rooms] in Hp |- *.
    pose proof (HP k p Hp) as Hok.
    assert (Hne : k <> cid) by (intros ->; apply Hf; eapply parked_ok_member; exact Hok).
    eapply parked_ok_crs; [|apply mget_mset_neq; exact Hne].
    change (parked_ok (clientRooms s) (mupd R (fun _ => F r) (rooms s)) k).
    rewrite E. apply parked_ok_mupd; [exact Hok|].
    intros r0 c H4 H5. exists c. unfold F. cbn [clients]. rewrite mget_app, H4. auto.
Qed.

Lemma join_fail_regex q cid roomF nameF now s :
  regex_5digits (safeText roomF) = false ->
  join_handler q cid roomF nameF now s = respond q (BError 400 "Room code must be 5 digits.") s.
Proof. intros Hrx. unfold join_handler. rewrite Hrx, !orb_true_r. reflexivity. Qed.

Lemma join_fail_missing q cid roomF nameF now s :
  regex_5digits (safeText roomF) = true -> mget (safeText roomF) (rooms s) = None ->
  join_handler q cid roomF nameF now s = respond q (BError 404 "Room not found.") s.
Proof.
  intros Hrx Hget. pose proof (regex_5digits_length _ Hrx) as [Hlen Hne].
  unfold join_handler. cbv zeta.
  rewrite (proj2 (String.eqb_neq _ _) Hne), Hlen, Hrx. cbn [orb negb Nat.eqb].
  rewrite Hget. reflexivity.
Qed.

Lemma W_join q cid roomF nameF now s :
  WF s -> ~ in_some_room cid (rooms s) -> WF (join_handler q cid roomF nameF now s).
Proof.
  intros HW Hf.
  destruct (regex_5digits (safeText roomF)) eqn:Hrx.
  2:{ rewrite join_fail_regex by exact Hrx. apply W_respond, HW. }
  destruct (mget (safeText roomF) (rooms s)) as [r|] eqn:Hget.
  2:{ rewrite join_fail_missing by assumption. apply W_respond, HW. }
  assert (Hcid : mget cid (clients r) = None).
  { apply mget_None. intros Hin. apply Hf. exists (safeText roomF), r.
    split; [apply mget_In; exact Hget|exact Hin]. }
  rewrite (join_handler_ok q cid roomF nameF now s r Hrx Hget Hcid). cbv zeta.
  apply W_respond, W_broadcast, WF_join_state; assumption.
Qed.

Lemma W_leave q cid s : WF s -> WF (leave_handler q cid s).
Proof.
  intros HW. unfold leave_handler.
  destruct (lookup_session cid s) as [[code r]|]; [|apply W_respond, HW].
  apply W_respond.
  pose proof (W_leave_core code cid s HW) as H1.
  destruct (Nat.ltb_spec 0 (room_size code
              (cancel_pending cid (set_clientRooms (mdel cid) (del_client code cid s))))).
  - apply W_broadcast_presence. exact H1.
  - apply W_rooms_mdel; [exact H1|lia].
Qed.

Lemma W_send q cid textF now s : WF s -> WF (send_handler q cid textF now s).
Proof.
  intros HW. unfold send_handler. cbv zeta.
  destruct (String.eqb (safeText textF) ""); [apply W_respond, HW|].
  destruct (lookup_session cid s) as [[code r]|]; [|apply W_respond, HW].
  destruct (mget cid (clients r)); apply W_respond; auto using W_broadcast.
Qed.

Lemma W_step o s : WF s -> fresh_op o s -> WF (step o s).
Proof.
  destruct o; simpl; intros HW Hf.
  - apply W_create; auto.
  - apply W_join; auto.
  - apply W_leave; auto.
  - apply W_send; auto.
  - apply W_poll; auto.
  - apply W_timeout; auto.
  - apply W_close; auto.
  - apply W_cleanup; auto.
Qed.

Lemma WF_init : WF init.
Proof.
  split; [split|].
  - split; [constructor|split; simpl; tauto].
  - split; [constructor|simpl; tauto].
  - intros k p H. discriminate.
Qed.

Lemma reachable_WF s : reachable s -> WF s.
Proof. induction 1; auto using WF_init, W_step. Qed.

Lemma W_run ops s : WF s -> fresh_run s ops -> WF (run ops s).
Proof.
  revert s. induction ops as [|o ops IH]; simpl; auto.
  intros s HW [Hf Hfs]. apply IH; auto using W_step.
Qed.

(** ** C2: a second poll supersedes a parked one *)

Lemma lookup_session_parked cid s :
  parked_ok (clientRooms s) (rooms s) cid ->
  exists code r c, lookup_session cid s = Some (code, r) /\
                   mget cid (clients r) = Some c /\ events c = [].
Proof.
  intros (code & r & c & H1 & H2 & H3 & H4 & H5). exists code, r, c.
  unfold lookup_session. rewrite H1, (proj2 (String.eqb_neq _ _) H2), H3. auto.
Qed.

(** C2: in every reachable state, a poll from a client id that already has
    a parked poll [old] answers [old] at once with an empty event list (the
    only response it sends), clears [old]'s timer, and leaves the new
    request as the one parked entry of that id, with at most one parked
    request per client id. *)
Theorem poll_supersedes_parked s q now old :
  reachable s -> mget (rcid q) (pendingPolls s) = Some old ->
  let s' := poll_handler q now s in
  out s' = app (out s) [(old, BEvents [])] /\
  mget (rcid q) (pendingPolls s') = Some q /\
  (forall t, In t (timers s') -> req_eqb t old = false) /\
  NoDup (map fst (pendingPolls s')) /\
  (forall k p, In (k, p) (pendingPolls s') -> rcid p = k).
Proof.
  intros Hreach Hold. cbv zeta.
  pose proof (reachable_WF s Hreach) as HW.
  pose proof (W_poll q now s HW) as [[_ [Hnd Hrc]] _].
  destruct HW as [_ HP].
  destruct (lookup_session_parked _ _ (HP _ _ Hold)) as (code & r & c & Hl & Hc & He).
  revert Hnd Hrc. unfold poll_handler. rewrite Hl, Hc, He.
  cbn [upd_client set_rooms set_timers set_pending respond clearTimeout
       pendingPolls out timers rooms clientRooms].
  rewrite Hold.
  cbn [upd_client set_rooms set_timers set_pending respond clearTimeout
       pendingPolls out timers rooms clientRooms].
  intros Hnd Hrc. split; [reflexivity|]. split; [apply mget_mset_eq|].
  split; [|auto].
  intros t Ht. apply filter_In in Ht as [_ Ht]. apply negb_true_iff in Ht. exact Ht.
Qed.

Lemma poll_supersedes_parked_witness :
  reachable st_parked /\ mget (rcid (rq 4 "A")) (pendingPolls st_parked) = Some (rq 3 "A") /\
  let s' := poll_handler (rq 4 "A") 5 st_parked in
  out s' = app (out st_parked) [(rq 3 "A", BEvents [])] /\
  mget (rcid (rq 4 "A")) (pendingPolls s') = Some (rq 4 "A") /\
  (forall t, In t (timers s') -> req_eqb t (rq 3 "A") = false) /\
  NoDup (map fst (pendingPolls s')) /\
  (forall k p, In (k, p) (pendingPolls s') -> rcid p = k).
Proof.
  assert (Hr : reachable st_parked).
  { refine (reach_step (OPoll (rq 3 "A") 2) _
              (reach_step (OPoll (rq 2 "A") 1) _
                 (reach_step (OCreate (rq 1 "") "A" (JString "Ann") (JString "12345") rnd_ones 0)
                    init reach_init _) I) I).
    intros (code & r & [] & _). }
  assert (Hp : mget (rcid (rq 4 "A")) (pendingPolls st_parked) = Some (rq 3 "A"))
    by (vm_compute; reflexivity).
  split; [exact Hr|]. split; [exact Hp|].
  exact (poll_supersedes_parked st_parked (rq 4 "A") 5 (rq 3 "A") Hr Hp).
Defined.

(** ** Streams: what each client is sent, in order *)

(** *** Finding a client's queue *)

Lemma lookup_client_mupd c code F rs :
  (forall r, mget code rs = Some r -> mget c (clients (F r)) = mget c (clients r)) ->
  lookup_client c (mupd code F rs) = lookup_client c rs.
Proof.
  induction rs as [|[k r0] rs IH]; simpl; intros H; auto.
  destruct (String.eqb code k); simpl.
  - rewrite H by reflexivity. reflexivity.
  - rewrite IH by exact H. reflexivity.
Qed.

Lemma lookup_client_none c rs :
  (forall code r, In (code, r) rs -> ~ In c (map fst (clients r))) -> lookup_client c rs = None.
Proof.
  induction rs as [|[k r0] rs IH]; simpl; intros H; auto.
  destruct (mget c (clients r0)) eqn:E.
  - exfalso. eapply H; [left; reflexivity|]. eapply mget_Some_keys. exact E.
  - apply IH. eauto.
Qed.

Lemma lookup_client_excl c code rs r :
  NoDup (map fst rs) ->
  (forall code' r', In (code', r') rs -> In c (map fst (clients r')) -> code' = code) ->
  mget code rs = Some r -> lookup_client c rs = mget c (clients r).
Proof.
  induction rs as [|[k r0] rs IH]; simpl; [discriminate|].
  intros Hnd Hx Hr. inversion Hnd as [|? ? Hnin Hnd']; subst.
  destruct (String.eqb_spec code k) as [<-|Hne].
  - injection Hr as <-. destruct (mget c (clients r0)) eqn:E; auto.
    apply lookup_client_none. intros code' r' Hin Hc.
    apply Hnin. rewrite <- (Hx code' r' (or_intror Hin) Hc).
    apply (in_map fst) in Hin. exact Hin.
  - destruct (mget c (clients r0)) eqn:E.
    + exfalso. apply Hne. symmetry. apply (Hx k r0 (or_introl eq_refl)).
      eapply mget_Some_keys. exact E.
    + apply IH; auto. intros code' r' Hin Hc. exact (Hx code' r' (or_intror Hin) Hc).
Qed.

Lemma lookup_client_member c code rs r :
  rooms_ok (members_view rs) -> mget code rs = Some r -> In c (map fst (clients r)) ->
  lookup_client c rs = mget c (clients r).
Proof.
  intros (Hk & _ & Hx) Hr Hc. apply (lookup_client_excl c code); auto.
  - rewrite <- keys_view. exact Hk.
  - intros code' r' Hin Hc'. eapply Hx; [apply In_view; exact Hin| |exact Hc'|exact Hc].
    apply In_view. apply mget_In. exact Hr.
Qed.

Lemma lookup_client_app c rs x :
  lookup_client c (app rs x) =
  match lookup_client c rs with Some cl => Some cl | None => lookup_client c x end.
Proof.
  induction rs as [|[k r0] rs IH]; simpl; auto.
  destruct (mget c (clients r0)); auto.
Qed.

Lemma lookup_client_mdel_empty c code rs :
  (forall r, mget code rs = Some r -> clients r = []) ->
  lookup_client c (mdel code rs) = lookup_client c rs.
Proof.
  induction rs as [|[k r0] rs IH]; simpl; intros H; auto.
  destruct (String.eqb code k).
  - rewrite (H r0 eq_refl). reflexivity.
  - simpl. rewrite IH by exact H. reflexivity.
Qed.

Lemma find_events_entry c rs code evs :
  find_events c rs = Some (code, evs) ->
  exists r cl, In (code, r) rs /\ mget c (clients r) = Some cl /\ events cl = evs.
Proof.
  induction rs as [|[k r0] rs IH]; simpl; [discriminate|].
  destruct (mget c (clients r0)) as [cl|] eqn:E.
  - destruct (events cl) as [|ev evs'] eqn:He.
    + intros H. destruct (IH H) as (r & cl' & ? & ? & ?). exists r, cl'. auto.
    + intros H. injection H as <- <-. exists r0, cl. auto.
  - intros H. destruct (IH H) as (r & cl' & ? & ? & ?). exists r, cl'. auto.
Qed.

(** *** Membership *)

Lemma mhas_mupd {V} c id (f : V -> V) m : mhas c (mupd id f m) = mhas c m.
Proof.
  unfold mhas. destruct (String.eqb_spec c id) as [->|Hne].
  - rewrite mget_mupd_eq. destruct (mget id m); reflexivity.
  - rewrite mget_mupd_neq by exact Hne. reflexivity.
Qed.

Lemma member_of_Some code c s :
  member_of code c s = true -> exists r, mget code (rooms s) = Some r /\ In c (map fst (clients r)).
Proof.
  unfold member_of. destruct (mget code (rooms s)) as [r|]; [|discriminate].
  intros H. exists r. split; auto. unfold mhas in H.
  destruct (mget c (clients r)) eqn:E; [|discriminate]. eapply mget_Some_keys. exact E.
Qed.

Lemma member_of_intro code c s r :
  mget code (rooms s) = Some r -> In c (map fst (clients r)) -> member_of code c s = true.
Proof.
  intros Hr Hc. unfold member_of. rewrite Hr. unfold mhas.
  destruct (mget_keys_Some _ _ Hc) as [cl ->]. reflexivity.
Qed.

Lemma member_of_upd code' c code id f s :
  member_of code' c (upd_client code id f s) = member_of code' c s.
Proof.
  unfold member_of, upd_client, set_rooms. cbn [rooms].
  destruct (String.eqb_spec code' code) as [->|Hne].
  - rewrite mget_mupd_eq. destruct (mget code (rooms s)); simpl; auto. apply mhas_mupd.
  - rewrite mget_mupd_neq by exact Hne. reflexivity.
Qed.

Lemma member_of_flush code c id s : member_of code c (flushClient id s) = member_of code c s.
Proof.
  unfold flushClient. destruct (mget id (pendingPolls s)); auto.
  destruct (find_events id (rooms s)) as [[code' evs]|]; auto.
  exact (member_of_upd code c code' id clear_events (set_pending (mdel id) (clearTimeout r s))).
Qed.

Lemma member_of_broadcast code' c code e s :
  member_of code' c (broadcast code e s) = member_of code' c s.
Proof.
  unfold broadcast. destruct (mget code (rooms s)); auto.
  generalize (map fst (clients r)). intros ids. revert s.
  induction ids as [|id ids IH]; simpl; intros s; auto.
  rewrite IH, member_of_flush. apply member_of_upd.
Qed.

Lemma member_of_broadcast_presence code' c code s :
  member_of code' c (broadcast_presence code s) = member_of code' c s.
Proof.
  unfold broadcast_presence. destruct (roomSnapshot code (rooms s)); auto.
  apply member_of_broadcast.
Qed.

Lemma NoDup_mdel_notin {V} c (cs : list (string * V)) :
  NoDup (map fst cs) -> mget c (mdel c cs) = None.
Proof. apply mget_mdel_eq. Qed.

Lemma member_of_del_self code c s :
  SI s -> member_of code c (del_client code c s) = false.
Proof.
  intros [(_ & Hn & _) _]. unfold member_of, del_client, set_rooms. cbn [rooms].
  rewrite mget_mupd_eq. destruct (mget code (rooms s)) as [r|] eqn:Hr; auto. cbn [option_map clients].
  unfold mhas. rewrite mget_mdel_eq; auto.
  eapply Hn. apply In_view. apply mget_In. exact Hr.
Qed.

Lemma member_of_del_other code' c code id s :
  (code' <> code \/ c <> id) -> member_of code' c (del_client code id s) = member_of code' c s.
Proof.
  intros Hor. unfold member_of, del_client, set_rooms. cbn [rooms].
  destruct (String.eqb_spec code' code) as [->|Hne].
  - destruct Hor as [Hn|Hc]; [congruence|].
    rewrite mget_mupd_eq. destruct (mget code (rooms s)); auto. cbn [option_map clients].
    unfold mhas. rewrite mget_mdel_neq by exact Hc. reflexivity.
  - rewrite mget_mupd_neq by exact Hne. reflexivity.
Qed.

Lemma member_of_rooms_mdel_self code c s :
  SI s -> member_of code c (set_rooms (mdel code) s) = false.
Proof.
  intros [(Hk & _ & _) _]. unfold member_of. cbn [rooms set_rooms].
  rewrite mget_mdel_eq; auto. rewrite <- keys_view. exact Hk.
Qed.

Lemma member_of_rooms_mdel_other code' c code s :
  code' <> code -> member_of code' c (set_rooms (mdel code) s) = member_of code' c s.
Proof.
  intros Hne. unfold member_of. cbn [rooms set_rooms]. rewrite mget_mdel_neq by exact Hne.
  reflexivity.
Qed.

(** Two rooms holding the same client are the same room. *)
Lemma member_excl code code' c s r :
  SI s -> member_of code c s = true -> mget code' (rooms s) = Some r ->
  In c (map fst (clients r)) -> code' = code.
Proof.
  intros [(_ & _ & Hx) _] Hm Hr Hc. apply member_of_Some in Hm as (r0 & Hr0 & Hc0).
  eapply Hx; [apply In_view, mget_In; exact Hr|apply In_view, mget_In; exact Hr0|exact Hc|exact Hc0].
Qed.

(** *** Streams through the building blocks *)

Ltac no_delivery := unfold delivered; destruct (String.eqb _ _); reflexivity.

Lemma received_app c o q b :
  received c (app o [(q, b)]) = app (received c o) (delivered c q b).
Proof. unfold received. rewrite flat_map_app. simpl. rewrite app_nil_r. reflexivity. Qed.

Lemma stream_respond c q b s :
  stream c (respond q b s) = app (received c (out s)) (app (delivered c q b) (queue c s)).
Proof. unfold stream, respond, queue. cbn [out rooms]. rewrite received_app, app_assoc. reflexivity. Qed.

Lemma stream_respond_nil c q b s : delivered c q b = [] -> stream c (respond q b s) = stream c s.
Proof. intros H. rewrite stream_respond, H. reflexivity. Qed.

Lemma delivered_other c q b : rcid q <> c -> delivered c q b = [].
Proof. intros H. unfold delivered. apply String.eqb_neq in H. rewrite H. reflexivity. Qed.

Lemma stream_same c s s' : rooms s' = rooms s -> out s' = out s -> stream c s' = stream c s.
Proof. intros H1 H2. unfold stream, queue. rewrite H1, H2. reflexivity. Qed.

Lemma queue_upd_other c code id f s : id <> c -> queue c (upd_client code id f s) = queue c s.
Proof.
  intros Hne. unfold queue, upd_client, set_rooms. cbn [rooms].
  rewrite lookup_client_mupd; auto. intros r _. cbn [clients]. apply mget_mupd_neq. congruence.
Qed.

Lemma stream_upd_other c code id f s : id <> c -> stream c (upd_client code id f s) = stream c s.
Proof. intros H. unfold stream. rewrite queue_upd_other by exact H. reflexivity. Qed.

Lemma queue_member c code r cl s :
  SI s -> mget code (rooms s) = Some r -> mget c (clients r) = Some cl -> queue c s = events cl.
Proof.
  intros [HR _] Hr Hc. unfold queue.
  rewrite (lookup_client_member c code (rooms s) r HR Hr (mget_Some_keys _ _ _ Hc)), Hc.
  reflexivity.
Qed.

Lemma queue_upd_self c code r cl f s :
  SI s -> mget code (rooms s) = Some r -> mget c (clients r) = Some cl ->
  queue c (upd_client code c f s) = events (f cl).
Proof.
  intros HS Hr Hc.
  apply (queue_member c code {| clients := mupd c f (clients r); createdAt := createdAt r |}).
  - apply SI_upd_client, HS.
  - cbn [upd_client set_rooms rooms]. rewrite mget_mupd_eq, Hr. reflexivity.
  - cbn [clients]. rewrite mget_mupd_eq, Hc. reflexivity.
Qed.

(** [flushClient] moves a queue into a response without changing any stream. *)
Lemma stream_flush c id s : SI s -> stream c (flushClient id s) = stream c s.
Proof.
  intros HS. unfold flushClient.
  destruct (mget id (pendingPolls s)) as [p|] eqn:Ep; auto.
  destruct (find_events id (rooms s)) as [[code evs]|] eqn:Ef; auto.
  assert (Hp : rcid p = id)
    by (destruct HS as [_ [_ Hrc]]; apply Hrc; apply mget_In; exact Ep).
  set (s0 := set_pending (mdel id) (clearTimeout p s)).
  assert (HS0 : SI s0) by (apply SI_set_pending_mdel, SI_clearTimeout, HS).
  rewrite stream_respond.
  destruct (String.eqb_spec id c) as [<-|Hne].
  - apply find_events_entry in Ef as (r & cl & Hin & Hc & He).
    assert (Hr : mget code (rooms s) = Some r).
    { apply mget_NoDup_In; [|exact Hin].
      destruct HS as [(Hk & _) _]. rewrite <- keys_view. exact Hk. }
    rewrite (queue_upd_self id code r cl clear_events s0 HS0 Hr Hc). cbn [events clear_events].
    unfold delivered. rewrite Hp, String.eqb_refl. rewrite app_nil_r.
    unfold stream. rewrite (queue_member id code r cl s HS Hr Hc), He. reflexivity.
  - rewrite delivered_other by congruence. rewrite queue_upd_other by exact Hne. reflexivity.
Qed.

Lemma stream_push_self c code r e s :
  SI s -> mget code (rooms s) = Some r -> In c (map fst (clients r)) ->
  stream c (push_event code c e s) = app (stream c s) [e].
Proof.
  intros HS Hr Hc. destruct (mget_keys_Some _ _ Hc) as [cl Hcl].
  unfold stream, push_event. rewrite (queue_upd_self c code r cl _ s HS Hr Hcl).
  rewrite (queue_member c code r cl s HS Hr Hcl). cbn [events]. rewrite app_assoc. reflexivity.
Qed.

Lemma stream_broadcast_ids c code e ids r s :
  SI s -> mget code (rooms s) = Some r ->
  (forall id, In id ids -> In id (map fst (clients r))) -> NoDup ids ->
  stream c (broadcast_ids code e ids s) =
  app (stream c s) (if existsb (String.eqb c) ids then [e] else []).
Proof.
  revert r s. induction ids as [|id ids IH]; simpl; intros r s HS Hr Hids Hnd.
  - rewrite app_nil_r. reflexivity.
  - inversion Hnd as [|? ? Hnin Hnd']; subst.
    assert (Hv : members_view (rooms (flushClient id (push_event code id e s)))
                 = members_view (rooms s)) by (rewrite view_flush, view_push; reflexivity).
    pose proof (f_equal (mget code) Hv) as Hg. rewrite !mget_view, Hr in Hg.
    destruct (mget code (rooms (flushClient id (push_event code id e s)))) as [r'|] eqn:Hr';
      [|discriminate].
    injection Hg as Hg.
    rewrite (IH r').
    + rewrite stream_flush by (apply SI_upd_client, HS).
      destruct (String.eqb_spec c id) as [->|Hne].
      * rewrite (stream_push_self id code r e s HS Hr (Hids id (or_introl eq_refl))).
        assert (E : existsb (String.eqb id) ids = false).
        { apply Bool.not_true_iff_false. intros H. apply existsb_exists in H as (x & Hx & Heq).
          apply String.eqb_eq in Heq. subst. contradiction. }
        rewrite E. rewrite ?String.eqb_refl. simpl. rewrite app_nil_r. reflexivity.
      * cbn [orb].
        unfold push_event. rewrite stream_upd_other by congruence. reflexivity.
    + apply SI_flush, SI_upd_client, HS.
    + exact Hr'.
    + intros x Hx. rewrite Hg. auto.
    + exact Hnd'.
Qed.

(** A broadcast to [code] appends its event to the stream of each member of
    [code], and to no other stream. *)
Lemma stream_broadcast c code e s :
  SI s -> stream c (broadcast code e s) = app (stream c s) (if member_of code c s then [e] else []).
Proof.
  intros HS. unfold broadcast, member_of. destruct (mget code (rooms s)) as [r|] eqn:Hr.
  - rewrite (stream_broadcast_ids c code e _ r s HS Hr); auto.
    + rewrite mhas_existsb. reflexivity.
    + destruct HS as [(_ & Hn & _) _]. eapply Hn. apply In_view, mget_In. exact Hr.
  - rewrite app_nil_r. reflexivity.
Qed.

(** *** Steps that may remove a member *)

Lemma grows_refl code c s : grows code c s s.
Proof. intros H. split; [exact H|exists []; rewrite app_nil_r; reflexivity]. Qed.

Lemma grows_trans code c s1 s2 s3 :
  grows code c s1 s2 -> grows code c s2 s3 -> grows code c s1 s3.
Proof.
  intros H12 H23 H3. destruct (H23 H3) as [H2 [l2 E2]]. destruct (H12 H2) as [H1 [l1 E1]].
  split; [exact H1|]. exists (app l1 l2). rewrite E2, E1, app_assoc. reflexivity.
Qed.

Lemma grows_same code c s s' : rooms s' = rooms s -> out s' = out s -> grows code c s s'.
Proof.
  intros H1 H2 Hm. split.
  - unfold member_of in *. rewrite H1 in Hm. exact Hm.
  - exists []. rewrite app_nil_r. apply stream_same; assumption.
Qed.

Lemma grows_respond_nil code c q b s : delivered c q b = [] -> grows code c s (respond q b s).
Proof.
  intros H Hm. split; [exact Hm|]. exists []. rewrite app_nil_r. apply stream_respond_nil, H.
Qed.

Lemma grows_broadcast code0 c code e s : SI s -> grows code0 c s (broadcast code e s).
Proof.
  intros HS Hm. rewrite member_of_broadcast in Hm. split; [exact Hm|].
  unfold ext. rewrite stream_broadcast by exact HS. eexists. reflexivity.
Qed.

Lemma grows_broadcast_presence code0 c code s :
  SI s -> grows code0 c s (broadcast_presence code s).
Proof.
  intros HS. unfold broadcast_presence.
  destruct (roomSnapshot code (rooms s)); auto using grows_broadcast, grows_refl.
Qed.

Lemma grows_del code0 c code id s : SI s -> grows code0 c s (del_client code id s).
Proof.
  intros HS Hm.
  destruct (String.eqb_spec code0 code) as [<-|Hne0];
    [destruct (String.eqb_spec c id) as [<-|Hne]|].
  - rewrite member_of_del_self in Hm by exact HS. discriminate.
  - rewrite member_of_del_other in Hm by (right; exact Hne). split; [exact Hm|].
    exists []. rewrite app_nil_r. unfold stream, queue, del_client, set_rooms. cbn [rooms out].
    rewrite lookup_client_mupd; [reflexivity|].
    intros r _. cbn [clients]. apply mget_mdel_neq. exact Hne.
  - rewrite member_of_del_other in Hm by (left; exact Hne0). split; [exact Hm|].
    exists []. rewrite app_nil_r. unfold stream, queue, del_client, set_rooms. cbn [rooms out].
    rewrite lookup_client_mupd; [reflexivity|]. intros r Hr. cbn [clients].
    destruct (String.eqb_spec c id) as [<-|Hne]; [|apply mget_mdel_neq; exact Hne].
    assert (Hn : ~ In c (map fst (clients r))).
    { intros Hin. apply Hne0. symmetry. eapply (member_excl code0 code c s r); eauto. }
    rewrite (proj2 (mget_None _ _) Hn). apply mget_None. intros Hin. apply Hn.
    eapply keys_mdel_incl. exact Hin.
Qed.

Lemma grows_rooms_mdel code0 c code s :
  SI s -> room_size code s = 0 -> grows code0 c s (set_rooms (mdel code) s).
Proof.
  intros HS Hsz Hm. destruct (String.eqb_spec code0 code) as [<-|Hne].
  - rewrite member_of_rooms_mdel_self in Hm by exact HS. discriminate.
  - rewrite member_of_rooms_mdel_other in Hm by exact Hne. split; [exact Hm|].
    exists []. rewrite app_nil_r. unfold stream, queue. cbn [rooms out set_rooms].
    rewrite lookup_client_mdel_empty; [reflexivity|].
    intros r Hr. unfold room_size in Hsz. rewrite Hr in Hsz.
    destruct (clients r); [reflexivity|discriminate].
Qed.

Lemma grows_del_cancel code0 c code id s :
  SI s -> grows code0 c s (cancel_pending id (del_client code id s)).
Proof.
  intros HS. eapply grows_trans; [apply grows_del, HS|].
  apply grows_same; unfold cancel_pending;
    destruct (mget id (pendingPolls (del_client code id s))); reflexivity.
Qed.

Lemma grows_evict now code0 c code id s : WF s -> grows code0 c s (evict_if_stale now code id s).
Proof.
  intros HW. unfold evict_if_stale.
  destruct (mget code (rooms s)) as [r|]; [|apply grows_refl].
  destruct (mget id (clients r)) as [cl|]; [|apply grows_refl].
  destruct (Z.gtb (now - lastSeen cl) CLIENT_TIMEOUT_MS); [|apply grows_refl].
  apply grows_del_cancel, (proj1 HW).
Qed.

Lemma grows_sweep now code0 c code s : WF s -> grows code0 c s (sweep_room now code s).
Proof.
  intros HW. unfold sweep_room. destruct (mget code (rooms s)) as [r|]; [|apply grows_refl].
  assert (H1 : forall ids s0, WF s0 ->
            WF (fold_left (fun s id => evict_if_stale now code id s) ids s0) /\
            grows code0 c s0 (fold_left (fun s id => evict_if_stale now code id s) ids s0)).
  { induction ids as [|id ids IH]; simpl; intros s0 H0; [split; [exact H0|apply grows_refl]|].
    destruct (IH _ (W_evict now code id s0 H0)) as [HW' HG].
    split; [exact HW'|]. eapply grows_trans; [apply grows_evict, H0|exact HG]. }
  destruct (H1 (map fst (clients r)) s HW) as [HW1 HG1].
  set (s1 := fold_left _ _ _) in *.
  set (s2 := if Nat.ltb 0 (room_size code s1) then broadcast_presence code s1 else s1).
  assert (HW2 : WF s2)
    by (unfold s2; destruct (Nat.ltb 0 (room_size code s1)); auto using W_broadcast_presence).
  assert (HG2 : grows code0 c s1 s2).
  { unfold s2. destruct HW1 as [HS1 _].
    destruct (Nat.ltb 0 (room_size code s1)); auto using grows_broadcast_presence, grows_refl. }
  eapply grows_trans; [exact HG1|]. eapply grows_trans; [exact HG2|].
  destruct (Nat.eqb_spec (room_size code s2) 0);
    [apply grows_rooms_mdel; [exact (proj1 HW2)|assumption]|apply grows_refl].
Qed.

Lemma grows_cleanup now code0 c s : WF s -> grows code0 c s (cleanup now s).
Proof.
  unfold cleanup. generalize (map fst (rooms s)). intros codes. revert s.
  induction codes as [|code codes IH]; simpl; intros s HW; [apply grows_refl|].
  eapply grows_trans; [apply grows_sweep, HW|]. apply IH, W_sweep, HW.
Qed.

(** *** Streams through each endpoint *)

Lemma stream_poll c q now s : SI s -> stream c (poll_handler q now s) = stream c s.
Proof.
  intros HS. unfold poll_handler.
  destruct (lookup_session (rcid q) s) as [[code r]|] eqn:Hl;
    [|apply stream_respond_nil; no_delivery].
  destruct (mget (rcid q) (clients r)) as [cl|] eqn:Hc;
    [|apply stream_respond_nil; no_delivery].
  apply lookup_session_Some in Hl as (_ & _ & Hr).
  set (s1 := upd_client code (rcid q) (set_lastSeen now) s).
  assert (HS1 : SI s1) by (apply SI_upd_client, HS).
  assert (E1 : stream c s1 = stream c s).
  { destruct (String.eqb_spec (rcid q) c) as [<-|Hne].
    - unfold stream, s1. rewrite (queue_upd_self (rcid q) code r cl _ s HS Hr Hc).
      rewrite (queue_member (rcid q) code r cl s HS Hr Hc). reflexivity.
    - apply stream_upd_other. exact Hne. }
  destruct (events cl) as [|ev evs] eqn:He.
  - rewrite <- E1. destruct (mget (rcid q) (pendingPolls _)) as [ex|].
    + transitivity (stream c (respond ex (BEvents []) s1)); [reflexivity|].
      apply stream_respond_nil. no_delivery.
    + reflexivity.
  - rewrite stream_respond, <- E1.
    destruct (String.eqb_spec (rcid q) c) as [<-|Hne].
    + set (r1 := {| clients := mupd (rcid q) (set_lastSeen now) (clients r);
                    createdAt := createdAt r |}).
      assert (Hr1 : mget code (rooms s1) = Some r1)
        by (unfold s1; cbn [upd_client set_rooms rooms]; rewrite mget_mupd_eq, Hr; reflexivity).
      assert (Hc1 : mget (rcid q) (clients r1) = Some (set_lastSeen now cl))
        by (unfold r1; cbn [clients]; rewrite mget_mupd_eq, Hc; reflexivity).
      rewrite (queue_upd_self _ code _ _ clear_events s1 HS1 Hr1 Hc1).
      unfold delivered. rewrite String.eqb_refl. cbn [events clear_events]. rewrite app_nil_r.
      unfold stream. rewrite (queue_member _ code _ _ s1 HS1 Hr1 Hc1).
      cbn [events set_lastSeen]. rewrite He. reflexivity.
    + rewrite delivered_other by exact Hne. rewrite queue_upd_other by exact Hne. reflexivity.
Qed.

Lemma member_of_poll code' c q now s :
  member_of code' c (poll_handler q now s) = member_of code' c s.
Proof.
  unfold poll_handler.
  destruct (lookup_session (rcid q) s) as [[code r]|]; [|reflexivity].
  destruct (mget (rcid q) (clients r)) as [cl|]; [|reflexivity].
  destruct (events cl).
  - destruct (mget (rcid q) (pendingPolls _));
      exact (member_of_upd code' c code (rcid q) (set_lastSeen now) s).
  - transitivity (member_of code' c (upd_client code (rcid q) (set_lastSeen now) s));
      [exact (member_of_upd code' c code (rcid q) clear_events
                (upd_client code (rcid q) (set_lastSeen now) s))|apply member_of_upd].
Qed.

Lemma ext_create c code0 q cid nameF roomF rnd now s :
  SI s -> member_of code0 c s = true -> ext c s (create_handler q cid nameF roomF rnd now s).
Proof.
  intros HS Hm. exists []. rewrite app_nil_r.
  destruct (createRoom (safeText roomF) rnd now (rooms s)) as [msg|[code rs]] eqn:Hcr.
  - unfold create_handler. rewrite Hcr. apply stream_respond_nil. no_delivery.
  - rewrite (create_handler_ok _ _ _ _ _ _ _ _ _ Hcr). cbv zeta.
    destruct (member_of_Some _ _ _ Hm) as (r & Hr & Hc).
    destruct (mget_keys_Some _ _ Hc) as [cl Hcl].
    pose proof (lookup_client_member c code0 (rooms s) r (proj1 HS) Hr Hc) as Hl.
    rewrite Hcl in Hl.
    unfold stream, queue. cbn [rooms out]. rewrite lookup_client_app, Hl, received_app.
    unfold delivered. destruct (String.eqb _ _); rewrite app_nil_r; reflexivity.
Qed.

Lemma stream_join_state c s cid r R c0 :
  c <> cid -> mget R (rooms s) = Some r ->
  stream c (mkState (mupd R (fun _ => {| clients := app (clients r) [(cid, c0)];
                                         createdAt := createdAt r |}) (rooms s))
                    (pendingPolls s) (timers s) (mset cid R (clientRooms s)) (out s))
  = stream c s.
Proof.
  intros Hne Hget. unfold stream, queue. cbn [rooms out].
  rewrite lookup_client_mupd; [reflexivity|]. intros r0 Hr0. rewrite Hget in Hr0.
  injection Hr0 as <-. cbn [clients]. rewrite mget_app.
  destruct (mget c (clients r)); [reflexivity|]. simpl.
  rewrite (proj2 (String.eqb_neq _ _) Hne). reflexivity.
Qed.

Lemma ext_join c code0 q cid roomF nameF now s :
  WF s -> ~ in_some_room cid (rooms s) -> member_of code0 c s = true ->
  ext c s (join_handler q cid roomF nameF now s).
Proof.
  intros HW Hf Hm.
  destruct (regex_5digits (safeText roomF)) eqn:Hrx.
  2:{ rewrite join_fail_regex by exact Hrx. exists []. rewrite app_nil_r.
      apply stream_respond_nil. no_delivery. }
  destruct (mget (safeText roomF) (rooms s)) as [r|] eqn:Hget.
  2:{ rewrite join_fail_missing by assumption. exists []. rewrite app_nil_r.
      apply stream_respond_nil. no_delivery. }
  assert (Hcid : mget cid (clients r) = None).
  { apply mget_None. intros Hin. apply Hf. exists (safeText roomF), r.
    split; [apply mget_In; exact Hget|exact Hin]. }
  assert (Hne : c <> cid).
  { intros ->. apply Hf. destruct (member_of_Some _ _ _ Hm) as (r0 & Hr0 & Hc0).
    exists code0, r0. split; [apply mget_In; exact Hr0|exact Hc0]. }
  rewrite (join_handler_ok q cid roomF nameF now s r Hrx Hget Hcid). cbv zeta. unfold ext.
  rewrite stream_respond_nil by no_delivery.
  rewrite stream_broadcast by (apply WF_join_state; assumption).
  rewrite stream_join_state by assumption. eexists. reflexivity.
Qed.

Lemma grows_leave code0 c q cid s : WF s -> grows code0 c s (leave_handler q cid s).
Proof.
  intros HW. unfold leave_handler.
  destruct (lookup_session cid s) as [[code r]|];
    [|apply grows_respond_nil; no_delivery].
  set (s1 := cancel_pending cid (set_clientRooms (mdel cid) (del_client code cid s))).
  assert (HW1 : WF s1) by apply W_leave_core, HW.
  assert (G1 : grows code0 c s s1).
  { eapply grows_trans; [apply (grows_del code0 c code cid s (proj1 HW))|].
    apply grows_same; unfold s1, cancel_pending;
      destruct (mget cid (pendingPolls (set_clientRooms (mdel cid) (del_client code cid s))));
      reflexivity. }
  eapply grows_trans; [exact G1|].
  eapply grows_trans; [|apply grows_respond_nil; no_delivery].
  destruct (Nat.ltb_spec 0 (room_size code s1)).
  - apply grows_broadcast_presence, (proj1 HW1).
  - apply grows_rooms_mdel; [exact (proj1 HW1)|lia].
Qed.

Lemma ext_send c q cid textF now s : SI s -> ext c s (send_handler q cid textF now s).
Proof.
  intros HS. unfold send_handler. cbv zeta.
  destruct (String.eqb (safeText textF) "");
    [exists []; rewrite app_nil_r; apply stream_respond_nil; no_delivery|].
  destruct (lookup_session cid s) as [[code r]|];
    [|exists []; rewrite app_nil_r; apply stream_respond_nil; no_delivery].
  destruct (mget cid (clients r));
    [|exists []; rewrite app_nil_r; apply stream_respond_nil; no_delivery].
  unfold ext. rewrite stream_respond_nil by no_delivery. rewrite stream_broadcast by exact HS.
  eexists. reflexivity.
Qed.

Lemma ext_step code0 c o s :
  WF s -> fresh_op o s -> member_of code0 c s = true -> member_of code0 c (step o s) = true ->
  ext c s (step o s).
Proof.
  intros HW Hf Hm Hm'.
  destruct o as [q cid nameF roomF rnd now|q cid roomF nameF now|q cid|q cid textF now
                |q now|q|q|now]; simpl in *.
  - eapply ext_create; [exact (proj1 HW)|exact Hm].
  - eapply ext_join; eauto.
  - exact (proj2 (grows_leave code0 c q cid s HW Hm')).
  - apply ext_send, (proj1 HW).
  - exists []. rewrite app_nil_r. apply stream_poll, (proj1 HW).
  - exists []. rewrite app_nil_r. unfold poll_timeout.
    destruct (existsb (req_eqb q) (timers s)); [|reflexivity].
    rewrite stream_respond_nil by no_delivery. apply stream_same; reflexivity.
  - exists []. rewrite app_nil_r. unfold poll_close.
    destruct (mget (rcid q) (pendingPolls s)) as [p|]; [|reflexivity].
    destruct (req_eqb p q); [apply stream_same|]; reflexivity.
  - exact (proj2 (grows_cleanup now code0 c s HW Hm')).
Qed.

Lemma ext_run code0 c ops s :
  WF s -> fresh_run s ops -> member_of code0 c s = true -> stays code0 c s ops ->
  ext c s (run ops s) /\ member_of code0 c (run ops s) = true.
Proof.
  revert s. induction ops as [|o ops IH]; simpl; intros s HW Hf Hm Hs.
  - split; [exists []; rewrite app_nil_r; reflexivity|exact Hm].
  - destruct Hf as [Hf1 Hfs]. destruct Hs as [Hm1 Hss].
    destruct (IH (step o s) (W_step o s HW Hf1) Hfs Hm1 Hss) as [[l2 E2] Hm2].
    destruct (ext_step code0 c o s HW Hf1 Hm Hm1) as [l1 E1].
    split; [|exact Hm2]. exists (app l1 l2). rewrite E2, E1, app_assoc. reflexivity.
Qed.

(** *** What a poll answers *)

Lemma clientRooms_flush id s : clientRooms (flushClient id s) = clientRooms s.
Proof.
  unfold flushClient. destruct (mget id (pendingPolls s)); [|reflexivity].
  destruct (find_events id (rooms s)) as [[? ?]|]; reflexivity.
Qed.

Lemma clientRooms_broadcast code e s : clientRooms (broadcast code e s) = clientRooms s.
Proof.
  unfold broadcast. destruct (mget code (rooms s)) as [r|]; [|reflexivity].
  generalize (map fst (clients r)). intros ids. revert s.
  induction ids as [|id ids IH]; simpl; intros s; [reflexivity|].
  rewrite IH, clientRooms_flush. reflexivity.
Qed.

Lemma lookup_session_intro cid s code r :
  mget cid (clientRooms s) = Some code -> code <> "" -> mget code (rooms s) = Some r ->
  lookup_session cid s = Some (code, r).
Proof.
  intros Hc Hne Hr. unfold lookup_session. rewrite Hc.
  destruct (String.eqb_spec code "") as [E|_]; [contradiction|]. rewrite Hr. reflexivity.
Qed.

(** While [c] has no parked poll, a broadcast answers no request of [c]. *)
Lemma received_broadcast_ids c code e ids s :
  SI s -> mget c (pendingPolls s) = None ->
  received c (out (broadcast_ids code e ids s)) = received c (out s) /\
  mget c (pendingPolls (broadcast_ids code e ids s)) = None.
Proof.
  revert s. induction ids as [|id ids IH]; simpl; intros s HS Hp; [auto|].
  set (s1 := push_event code id e s).
  assert (HS1 : SI s1) by (apply SI_upd_client, HS).
  assert (H2 : received c (out (flushClient id s1)) = received c (out s) /\
               mget c (pendingPolls (flushClient id s1)) = None).
  { unfold flushClient. destruct (mget id (pendingPolls s1)) as [p|] eqn:Ep; [|auto].
    destruct (find_events id (rooms s1)) as [[code' evs]|]; [|auto].
    assert (Hrc : rcid p = id)
      by (destruct HS1 as [_ [_ Hrc]]; apply Hrc, mget_In, Ep).
    assert (Hne : id <> c) by (intros ->; unfold s1 in Ep; cbn in Ep; congruence).
    cbn [respond out upd_client set_rooms set_pending clearTimeout set_timers pendingPolls].
    rewrite received_app, delivered_other by congruence. rewrite app_nil_r.
    split; [reflexivity|]. rewrite mget_mdel_neq by congruence. exact Hp. }
  destruct (IH (flushClient id s1) (SI_flush id s1 HS1) (proj2 H2)) as [E1 E2].
  split; [rewrite E1; exact (proj1 H2)|exact E2].
Qed.

Lemma received_broadcast c code e s :
  SI s -> mget c (pendingPolls s) = None ->
  received c (out (broadcast code e s)) = received c (out s).
Proof.
  intros HS Hp. unfold broadcast. destruct (mget code (rooms s)); [|reflexivity].
  apply received_broadcast_ids; assumption.
Qed.

(** A poll that finds a non-empty queue answers with that queue. *)
Lemma poll_answer q now s code r cl :
  SI s -> lookup_session (rcid q) s = Some (code, r) -> mget (rcid q) (clients r) = Some cl ->
  queue (rcid q) s <> [] ->
  out (poll_handler q now s) = app (out s) [(q, BEvents (queue (rcid q) s))].
Proof.
  intros HS Hl Hc Hq. pose proof (lookup_session_Some _ _ _ _ Hl) as (_ & _ & Hr).
  rewrite (queue_member _ code r cl s HS Hr Hc) in *. unfold poll_handler. cbv zeta.
  rewrite Hl, Hc. destruct (events cl); [contradiction|reflexivity].
Qed.

(** A poll answered with events hands over the whole queue, oldest first,
    and leaves the queue empty. *)
Lemma poll_drains q now s evs :
  SI s -> out (poll_handler q now s) = app (out s) [(q, BEvents evs)] -> evs <> [] ->
  evs = queue (rcid q) s /\ queue (rcid q) (poll_handler q now s) = [].
Proof.
  intros HS. unfold poll_handler. cbv zeta.
  destruct (lookup_session (rcid q) s) as [[code r]|] eqn:Hl.
  2:{ intros Ho. cbn [respond out] in Ho. apply app_inv_head in Ho. discriminate Ho. }
  destruct (mget (rcid q) (clients r)) as [cl|] eqn:Hc.
  2:{ intros Ho. cbn [respond out] in Ho. apply app_inv_head in Ho. discriminate Ho. }
  pose proof (lookup_session_Some _ _ _ _ Hl) as (_ & _ & Hr).
  set (s1 := upd_client code (rcid q) (set_lastSeen now) s).
  destruct (events cl) as [|ev evs0] eqn:He.
  - destruct (mget (rcid q) (pendingPolls _)) as [ex|]; intros Ho Hne.
    + cbn [respond out set_pending set_timers clearTimeout s1 upd_client set_rooms] in Ho.
      apply app_inv_head in Ho. injection Ho as _ <-. contradiction.
    + cbn [respond out set_pending set_timers clearTimeout s1 upd_client set_rooms] in Ho.
      apply (f_equal (@length _)) in Ho. rewrite length_app in Ho. simpl in Ho. lia.
  - intros Ho _.
    cbn [respond out set_pending set_timers clearTimeout s1 upd_client set_rooms] in Ho.
    apply app_inv_head in Ho. injection Ho as <-.
    split; [rewrite (queue_member _ code r cl s HS Hr Hc), He; reflexivity|].
    set (r1 := {| clients := mupd (rcid q) (set_lastSeen now) (clients r);
                  createdAt := createdAt r |}).
    assert (Hr1 : mget code (rooms s1) = Some r1)
      by (unfold s1; cbn [upd_client set_rooms rooms]; rewrite mget_mupd_eq, Hr; reflexivity).
    assert (Hc1 : mget (rcid q) (clients r1) = Some (set_lastSeen now cl))
      by (unfold r1; cbn [clients]; rewrite mget_mupd_eq, Hc; reflexivity).
    exact (queue_upd_self _ code _ _ clear_events s1 (SI_upd_client _ _ _ _ HS) Hr1 Hc1).
Qed.

(** C9: a successful send by [cid], a member of room [code], appends its
    [msg] event to the stream of every member of [code], the sender's own
    included; when the sender has no parked poll, the message joins the end
    of its queue, and the sender's next poll answers with that queue, its
    own message last. *)
Theorem send_reaches_sender s q cid textF now code r cl :
  reachable s -> lookup_session cid s = Some (code, r) -> mget cid (clients r) = Some cl ->
  safeText textF <> "" ->
  let e := EMsg code cid (name cl) (safeText textF) now in
  let s' := send_handler q cid textF now s in
  (forall m, member_of code m s = true -> stream m s' = app (stream m s) [e]) /\
  stream cid s' = app (stream cid s) [e] /\
  (mget cid (pendingPolls s) = None ->
   queue cid s' = app (queue cid s) [e] /\
   forall q' now', rcid q' = cid ->
     out (poll_handler q' now' s') = app (out s') [(q', BEvents (app (queue cid s) [e]))]).
Proof.
  intros Hr Hl Hc Ht e s'. pose proof (reachable_WF s Hr) as [HS _].
  pose proof (lookup_session_Some _ _ _ _ Hl) as (Hcr & Hne & Hrm).
  assert (Hs' : s' = respond q BOk (broadcast code e s)).
  { unfold s', send_handler. cbv zeta. rewrite (proj2 (String.eqb_neq _ _) Ht), Hl, Hc.
    reflexivity. }
  assert (HA : forall m, member_of code m s = true -> stream m s' = app (stream m s) [e]).
  { intros m Hm. rewrite Hs', stream_respond_nil by no_delivery.
    rewrite stream_broadcast by exact HS. rewrite Hm. reflexivity. }
  assert (Hmc : member_of code cid s = true)
    by exact (member_of_intro code cid s r Hrm (mget_Some_keys _ _ _ Hc)).
  split; [exact HA|]. split; [exact (HA cid Hmc)|].
  intros Hp.
  assert (HQ : queue cid s' = app (queue cid s) [e]).
  { pose proof (HA cid Hmc) as E. unfold stream in E.
    rewrite Hs' in E at 1. cbn [respond out] in E.
    rewrite received_app, received_broadcast in E by assumption.
    assert (Hd : delivered cid q BOk = []) by no_delivery. rewrite Hd in E.
    rewrite app_nil_r, <- app_assoc in E. apply app_inv_head in E. exact E. }
  split; [exact HQ|]. intros q' now' Hq'.
  assert (HS' : SI s') by (rewrite Hs'; apply SI_respond, SI_broadcast, HS).
  assert (Hm' : member_of code cid s' = true)
    by (rewrite Hs'; change (member_of code cid (broadcast code e s) = true);
        rewrite member_of_broadcast; exact Hmc).
  destruct (member_of_Some _ _ _ Hm') as (r' & Hr' & Hin).
  destruct (mget_keys_Some _ _ Hin) as [cl' Hc'].
  assert (Hl' : lookup_session cid s' = Some (code, r')).
  { apply lookup_session_intro; [|exact Hne|exact Hr'].
    rewrite Hs'. change (mget cid (clientRooms (broadcast code e s)) = Some code).
    rewrite clientRooms_broadcast. exact Hcr. }
  subst cid. rewrite <- HQ.
  apply (poll_answer q' now' s' code r' cl' HS' Hl' Hc'). rewrite HQ.
  destruct (queue (rcid q') s); discriminate.
Qed.

Lemma send_reaches_sender_witness :
  reachable st_one /\ lookup_session "A" st_one = Some ("12345", st_one_room) /\
  mget "A" (clients st_one_room) = Some st_one_ann /\ safeText (JString "hi") <> "" /\
  let e := EMsg "12345" "A" (name st_one_ann) (safeText (JString "hi")) 5 in
  let s' := send_handler (rq 2 "A") "A" (JString "hi") 5 st_one in
  (forall m, member_of "12345" m st_one = true -> stream m s' = app (stream m st_one) [e]) /\
  stream "A" s' = app (stream "A" st_one) [e] /\
  (mget "A" (pendingPolls st_one) = None ->
   queue "A" s' = app (queue "A" st_one) [e] /\
   forall q' now', rcid q' = "A" ->
     out (poll_handler q' now' s') = app (out s') [(q', BEvents (app (queue "A" st_one) [e]))]).
Proof.
  assert (Hr : reachable st_one).
  { refine (reach_step (OCreate (rq 1 "") "A" (JString "Ann") (JString "12345") rnd_ones 0)
              init reach_init _).
    intros (code & r & [] & _). }
  assert (Hl : lookup_session "A" st_one = Some ("12345", st_one_room))
    by (vm_compute; reflexivity).
  assert (Hc : mget "A" (clients st_one_room) = Some st_one_ann) by (vm_compute; reflexivity).
  assert (Ht : safeText (JString "hi") <> "") by (intros H; vm_compute in H; discriminate H).
  split; [exact Hr|]. split; [exact Hl|]. split; [exact Hc|]. split; [exact Ht|].
  exact (send_reaches_sender st_one (rq 2 "A") "A" (JString "hi") 5 "12345" st_one_room
           st_one_ann Hr Hl Hc Ht).
Defined.

(** ** The rate limiter *)

Lemma checkRateLimit_in ip now m e :
  mget ip m = Some e -> Z.le (now - windowStart e) RATE_LIMIT_WINDOW_MS ->
  checkRateLimit ip now m =
  (Nat.leb (S (count e)) RATE_LIMIT_MAX_REQUESTS,
   mset ip {| count := S (count e); windowStart := windowStart e |} m).
Proof.
  intros He Hle. unfold checkRateLimit. rewrite He.
  replace (Z.gtb (now - windowStart e) RATE_LIMIT_WINDOW_MS) with false by lia.
  reflexivity.
Qed.

Lemma checkRateLimit_reset ip now m :
  match mget ip m with
  | None => True
  | Some e => Z.gtb (now - windowStart e) RATE_LIMIT_WINDOW_MS = true
  end ->
  checkRateLimit ip now m =
  (true, mset ip {| count := 1; windowStart := now |}
               (mset ip {| count := 0; windowStart := now |} m)).
Proof.
  intros H. unfold checkRateLimit. destruct (mget ip m) as [e|].
  - rewrite H. reflexivity.
  - reflexivity.
Qed.

Lemma rl_run_cons ip now reqs m :
  rl_run ((ip, now) :: reqs) m =
  (fst (checkRateLimit ip now m) :: fst (rl_run reqs (snd (checkRateLimit ip now m))),
   snd (rl_run reqs (snd (checkRateLimit ip now m)))).
Proof.
  simpl. destruct (checkRateLimit ip now m) as [ok m1].
  destruct (rl_run reqs m1) as [oks m2] eqn:E. cbn [fst snd]. rewrite E. reflexivity.
Qed.

Lemma rl_run_in_window ip ts m e :
  mget ip m = Some e -> (forall t, In t ts -> Z.le (t - windowStart e) RATE_LIMIT_WINDOW_MS) ->
  fst (rl_run (map (fun t => (ip, t)) ts) m) =
  map (fun i => Nat.leb (count e + i) RATE_LIMIT_MAX_REQUESTS) (seq 1 (length ts)).
Proof.
  revert m e. induction ts as [|t ts IH]; intros m e He Hts; [reflexivity|].
  cbn [map]. rewrite rl_run_cons.
  rewrite (checkRateLimit_in ip t m e He (Hts t (or_introl eq_refl))). cbn [fst snd].
  rewrite (IH _ {| count := S (count e); windowStart := windowStart e |}).
  - cbn [length seq map]. rewrite <- (seq_shift _ 1), map_map. cbn [count].
    rewrite Nat.add_1_r. f_equal. apply map_ext. intros i. f_equal. lia.
  - apply mget_mset_eq.
  - intros t' Ht'. exact (Hts t' (or_intror Ht')).
Qed.

Lemma checkRateLimit_other ip ip' now m :
  ip' <> ip -> mget ip (snd (checkRateLimit ip' now m)) = mget ip m.
Proof.
  intros Hne. unfold checkRateLimit.
  destruct (mget ip' m) as [e|];
    [destruct (Z.gtb (now - windowStart e) RATE_LIMIT_WINDOW_MS)|]; cbn [snd];
    rewrite ?mget_mset_neq by congruence; reflexivity.
Qed.

(** The verdict and the new entry for [ip] depend on [ip]'s entry only. *)
Lemma checkRateLimit_local ip now m1 m2 :
  mget ip m1 = mget ip m2 ->
  fst (checkRateLimit ip now m1) = fst (checkRateLimit ip now m2) /\
  mget ip (snd (checkRateLimit ip now m1)) = mget ip (snd (checkRateLimit ip now m2)).
Proof.
  intros H. unfold checkRateLimit. rewrite H.
  destruct (mget ip m2) as [e|];
    [destruct (Z.gtb (now - windowStart e) RATE_LIMIT_WINDOW_MS)|]; cbn [fst snd];
    rewrite ?mget_mset_eq; auto.
Qed.

Lemma rl_verdicts_gen ip reqs m1 m2 :
  mget ip m1 = mget ip m2 ->
  verdicts_of ip reqs (fst (rl_run reqs m1)) =
  fst (rl_run (filter (fun r => String.eqb (fst r) ip) reqs) m2).
Proof.
  revert m1 m2. induction reqs as [|[ip' t] reqs IH]; intros m1 m2 H; [reflexivity|].
  rewrite rl_run_cons. unfold verdicts_of. cbn [combine filter fst].
  destruct (String.eqb_spec ip' ip) as [->|Hne].
  - rewrite rl_run_cons. cbn [map snd fst].
    destruct (checkRateLimit_local ip t m1 m2 H) as [E1 E2]. rewrite E1. f_equal.
    apply IH. exact E2.
  - apply IH. rewrite checkRateLimit_other by exact Hne. exact H.
Qed.

(** [filter] keeps the entry of [ip] exactly when its first entry passes. *)
Lemma mget_filter {V} (p : string * V -> bool) ip m :
  NoDup (map fst m) ->
  mget ip (filter p m) = match mget ip m with
                         | Some v => if p (ip, v) then Some v else None
                         | None => None
                         end.
Proof.
  induction m as [|[k v] m IH]; intros Hnd; [reflexivity|].
  inversion Hnd as [|? ? Hk Hnd']; subst. cbn [filter mget].
  destruct (String.eqb_spec ip k) as [->|Hne].
  - destruct (p (k, v)) eqn:Ep; cbn [mget]; [rewrite String.eqb_refl; reflexivity|].
    apply mget_None. intros Hin. apply Hk.
    apply in_map_iff in Hin as ([k' v'] & <- & Hin). apply filter_In in Hin as [Hin _].
    apply (in_map fst) in Hin. exact Hin.
  - destruct (p (k, v)); cbn [mget];
      [rewrite (proj2 (String.eqb_neq _ _) Hne)|]; apply IH; exact Hnd'.
Qed.

Lemma rl_rel_sweep now m : NoDup (map fst m) -> rl_rel now (rl_sweep now m) m.
Proof.
  intros Hnd ip. unfold rl_sweep. rewrite mget_filter by exact Hnd.
  destruct (mget ip m) as [e|]; [|left; reflexivity]. cbn [snd].
  destruct (Z.gtb (now - windowStart e) (RATE_LIMIT_WINDOW_MS * 2)) eqn:E; cbn [negb].
  - right. split; [reflexivity|]. exists e. split; [reflexivity|exact E].
  - left. reflexivity.
Qed.

Lemma rl_rel_check now ip t m1 m2 :
  Z.le now t -> rl_rel now m1 m2 ->
  fst (checkRateLimit ip t m1) = fst (checkRateLimit ip t m2) /\
  rl_rel now (snd (checkRateLimit ip t m1)) (snd (checkRateLimit ip t m2)).
Proof.
  intros Hle HR. destruct (HR ip) as [H|(H1 & e & H2 & He)].
  - destruct (checkRateLimit_local ip t m1 m2 H) as [E1 E2]. split; [exact E1|].
    intros ip'. destruct (String.eqb_spec ip ip') as [<-|Hne]; [left; exact E2|].
    rewrite !checkRateLimit_other by exact Hne. apply HR.
  - assert (Hr : Z.gtb (t - windowStart e) RATE_LIMIT_WINDOW_MS = true).
    { unfold RATE_LIMIT_WINDOW_MS in *. lia. }
    rewrite (checkRateLimit_reset ip t m1) by (rewrite H1; exact I).
    rewrite (checkRateLimit_reset ip t m2) by (rewrite H2; exact Hr).
    split; [reflexivity|]. intros ip'. cbn [snd].
    destruct (String.eqb_spec ip' ip) as [->|Hne].
    + left. rewrite !mget_mset_eq. reflexivity.
    + rewrite !mget_mset_neq by exact Hne. apply HR.
Qed.

Lemma rl_rel_run now reqs m1 m2 :
  (forall r, In r reqs -> Z.le now (snd r)) -> rl_rel now m1 m2 ->
  fst (rl_run reqs m1) = fst (rl_run reqs m2).
Proof.
  revert m1 m2. induction reqs as [|[ip t] reqs IH]; intros m1 m2 Hr HR; [reflexivity|].
  rewrite !rl_run_cons. cbn [fst].
  destruct (rl_rel_check now ip t m1 m2 (Hr _ (or_introl eq_refl)) HR) as [E1 E2].
  rewrite E1. f_equal. apply IH; [|exact E2]. intros r Hin. apply Hr. right. exact Hin.
Qed.

(** ** [parseMultipart] *)

Lemma las_app s1 s2 :
  list_ascii_of_string (s1 ++ s2) = app (list_ascii_of_string s1) (list_ascii_of_string s2).
Proof. induction s1 as [|a s1 IH]; simpl; [reflexivity|rewrite IH; reflexivity]. Qed.

Lemma prefixb_app_l p l Y : prefixb p l = true -> prefixb p (app l Y) = true.
Proof.
  revert l. induction p as [|x p IH]; intros [|y l] H; simpl in *; try discriminate; auto.
  apply andb_true_iff in H as [H1 H2]. rewrite H1. simpl. apply IH, H2.
Qed.

Lemma prefixb_app_len p l Y : length p <= length l -> prefixb p (app l Y) = prefixb p l.
Proof.
  revert l. induction p as [|x p IH]; intros [|y l] H; simpl in *; try lia; auto.
  rewrite IH by lia. reflexivity.
Qed.

Lemma prefixb_self p Y : prefixb p (app p Y) = true.
Proof. induction p as [|x p IH]; simpl; [reflexivity|rewrite Z.eqb_refl; exact IH]. Qed.

Lemma prefixb_notin p l c r :
  prefixb p (app l (c :: r)) = true -> ~ In c p -> prefixb p l = true.
Proof.
  revert l. induction p as [|x p IH]; intros l H Hn; [destruct l; reflexivity|].
  destruct l as [|y l]; simpl in H.
  - apply andb_true_iff in H as [H _]. apply Z.eqb_eq in H. subst. exfalso. apply Hn. left. reflexivity.
  - apply andb_true_iff in H as [H1 H2]. simpl. rewrite H1. simpl.
    apply IH; [exact H2|]. intros Hin. apply Hn. right. exact Hin.
Qed.

Lemma prefixb_nil p : p <> [] -> prefixb p [] = false.
Proof. destruct p; [contradiction|reflexivity]. Qed.

Lemma index_from_skip p X Y i :
  (forall k, k < length X -> prefixb p (skipn k (app X Y)) = false) ->
  index_from p (app X Y) i = index_from p Y (i + length X).
Proof.
  revert i. induction X as [|x X IH]; intros i H; simpl.
  - rewrite Nat.add_0_r. reflexivity.
  - pose proof (H 0 ltac:(simpl; lia)) as H0. cbn [skipn app] in H0. rewrite H0, IH.
    + f_equal. lia.
    + intros k Hk. exact (H (S k) ltac:(simpl; lia)).
Qed.

Lemma index_from_self p Y i : p <> [] -> index_from p (app p Y) i = Some i.
Proof.
  intros Hp. destruct p as [|x p]; [contradiction|]. simpl.
  rewrite Z.eqb_refl, prefixb_self. reflexivity.
Qed.

Lemma index_from_None p l i :
  p <> [] -> index_from p l i = None -> forall k, prefixb p (skipn k l) = false.
Proof.
  intros Hp. revert i. induction l as [|y l IH]; intros i H k.
  - rewrite skipn_nil. apply prefixb_nil, Hp.
  - cbn [index_from] in H. destruct (prefixb p (y :: l)) eqn:E; [discriminate|].
    destruct k as [|k]; [exact E|]. apply (IH (S i) H k).
Qed.

Lemma index_from_ge p l i j : index_from p l i = Some j -> i <= j.
Proof.
  revert i. induction l as [|y l IH]; intros i H; cbn [index_from] in H.
  - destruct (prefixb p []); [injection H; lia|discriminate].
  - destruct (prefixb p (y :: l)); [injection H; lia|]. apply IH in H. lia.
Qed.

Lemma index_from_within p X Y i j :
  index_from p X i = Some j -> j + length p <= i + length X ->
  index_from p (app X Y) i = Some j.
Proof.
  revert i. induction X as [|x X IH]; intros i H Hj; cbn [index_from] in H.
  - destruct p; [|discriminate]. injection H as <-.
    destruct Y; reflexivity.
  - cbn [app index_from].
    change (prefixb p (x :: app X Y)) with (prefixb p (app (x :: X) Y)).
    destruct (prefixb p (x :: X)) eqn:E.
    + rewrite (prefixb_app_l p (x :: X) Y E). exact H.
    + pose proof (index_from_ge _ _ _ _ H) as Hge. simpl in Hj.
      rewrite (prefixb_app_len p (x :: X) Y) by (simpl; lia). rewrite E.
      apply IH; [exact H|lia].
Qed.

Lemma contains_false p l k : p <> [] -> contains p l = false -> prefixb p (skipn k l) = false.
Proof.
  intros Hp H. unfold contains in H. destruct (index_from p l 0) eqn:E; [discriminate|].
  exact (index_from_None p l 0 Hp E k).
Qed.

Lemma span_not_all c l : (forall a, In a l -> a <> c) -> span_not c l = (l, []).
Proof.
  induction l as [|a l IH]; intros H; [reflexivity|]. simpl.
  destruct (Ascii.eqb_spec a c) as [E|_]; [exfalso; exact (H a (or_introl eq_refl) E)|].
  rewrite IH; [reflexivity|]. intros x Hx. apply H. right. exact Hx.
Qed.

Lemma find_boundary_skip P l :
  (forall k, k < length P -> ascii_prefix BOUNDARY_EQ (skipn k (app P l)) = false) ->
  find_boundary (app P l) = find_boundary l.
Proof.
  induction P as [|x P IH]; intros H; [reflexivity|].
  cbn [app]. unfold find_boundary at 1. fold find_boundary.
  pose proof (H 0 ltac:(simpl; lia)) as H0. cbn [skipn app] in H0. rewrite H0.
  apply IH. intros k Hk. exact (H (S k) ltac:(simpl; lia)).
Qed.

Lemma find_boundary_here l :
  ascii_prefix BOUNDARY_EQ l = true ->
  find_boundary l = match boundary_alts (skipn 9 l) with
                    | Some b => Some b
                    | None => find_boundary (tl l)
                    end.
Proof. intros H. destruct l as [|x l]; [discriminate|]. cbn [find_boundary tl]. rewrite H. reflexivity. Qed.

Lemma find_boundary_form b :
  b <> "" -> (forall a, In a (list_ascii_of_string b) -> a <> ";"%char /\ a <> "034"%char) ->
  find_boundary (list_ascii_of_string ("multipart/form-data; boundary=" ++ b)) = Some b.
Proof.
  intros Hne Hb.
  replace ("multipart/form-data; boundary=" ++ b)
    with ("multipart/form-data; " ++ ("boundary=" ++ b)) by reflexivity.
  rewrite las_app, find_boundary_skip.
  - rewrite las_app. destruct b as [|a b']; [contradiction|].
    assert (Ha : Ascii.eqb a "034"%char = false)
      by (apply Ascii.eqb_neq; apply (Hb a (or_introl eq_refl))).
    assert (Hs : span_not ";" (a :: list_ascii_of_string b') = (a :: list_ascii_of_string b', []))
      by (apply span_not_all; intros x Hx; apply (Hb x Hx)).
    rewrite find_boundary_here by reflexivity.
    replace (skipn 9 _) with (a :: list_ascii_of_string b') by reflexivity.
    unfold boundary_alts. cbv beta iota zeta. rewrite Ha, Hs. cbv iota.
    change (a :: list_ascii_of_string b') with (list_ascii_of_string (String a b')).
    rewrite string_of_list_ascii_of_string. reflexivity.
  - intros k Hk. cbn [length list_ascii_of_string] in Hk.
    do 21 (destruct k as [|k]; [reflexivity|]). lia.
Qed.

Lemma read_chunks_spec cs s :
  Z.le s MAX_UPLOAD_BYTES ->
  (read_chunks s cs = None <-> Z.lt MAX_UPLOAD_BYTES (s + Z.of_nat (length (concat cs)))) /\
  (forall cs', read_chunks s cs = Some cs' -> cs' = cs).
Proof.
  revert s. induction cs as [|c cs IH]; intros s Hs; cbn [read_chunks concat].
  - split; [split; [discriminate|simpl; lia]|]. intros cs' H. injection H as <-. reflexivity.
  - rewrite length_app, Nat2Z.inj_add.
    destruct (Z.gtb (s + Z.of_nat (length c)) MAX_UPLOAD_BYTES) eqn:E.
    + split; [split; [intros _; lia|reflexivity]|discriminate].
    + destruct (IH (s + Z.of_nat (length c))%Z ltac:(lia)) as [IH1 IH2].
      split.
      * destruct (read_chunks (s + Z.of_nat (length c)) cs) eqn:E2; cbn [option_map].
        -- split; [discriminate|]. intros H. exfalso. discriminate (proj2 IH1 ltac:(lia)).
        -- split; [intros _|reflexivity]. pose proof (proj1 IH1 eq_refl). lia.
      * intros cs' H. destruct (read_chunks (s + Z.of_nat (length c)) cs) eqn:E2;
          [|discriminate]. injection H as <-. rewrite (IH2 _ eq_refl). reflexivity.
Qed.

Lemma utf8_app s1 s2 : utf8_of_string (s1 ++ s2) = app (utf8_of_string s1) (utf8_of_string s2).
Proof. unfold utf8_of_string. rewrite las_app, flat_map_app. reflexivity. Qed.

Lemma utf8_no_cr s :
  (forall a, In a (list_ascii_of_string s) -> a <> "013"%char) -> ~ In 13%Z (utf8_of_string s).
Proof.
  induction s as [|a s IH]; intros H Hin; [exact Hin|].
  unfold utf8_of_string in Hin. cbn [list_ascii_of_string flat_map] in Hin.
  apply in_app_or in Hin as [Hin|Hin].
  - assert (Ha : a <> "013"%char) by (apply H; left; reflexivity).
    pose proof (Nat2Z.is_nonneg (nat_of_ascii a)) as H0.
    set (n := Z.of_nat (nat_of_ascii a)) in *.
    destruct (Z.ltb_spec n 128).
    + destruct Hin as [E|[]]. apply Ha. rewrite <- (ascii_nat_embedding a).
      assert (nat_of_ascii a = 13) by (unfold n in E; lia). rewrite H2. reflexivity.
    + pose proof (Z.div_pos n 64 ltac:(lia) ltac:(lia)).
      pose proof (Z.mod_pos_bound n 64 ltac:(lia)).
      destruct Hin as [E|[E|[]]]; lia.
  - apply IH; [|exact Hin]. intros x Hx. apply H. right. exact Hx.
Qed.

Lemma dd_free_prefix l Y r : dd_free l = true -> l <> [] -> prefixb (45%Z :: 45%Z :: r) (app l Y) = false.
Proof.
  intros H Hl. destruct l as [|z [|w l]]; [contradiction| |]; cbn [dd_free] in H; cbn [app prefixb].
  - apply negb_true_iff in H. rewrite Z.eqb_sym, H. reflexivity.
  - apply negb_true_iff in H. rewrite (Z.eqb_sym 45 z), (Z.eqb_sym 45 w).
    destruct (Z.eqb z 45), (Z.eqb w 45); try reflexivity. discriminate H.
Qed.

Lemma skipn_app_ge {A} k (l1 l2 : list A) :
  length l1 <= k -> skipn k (app l1 l2) = skipn (k - length l1) l2.
Proof. intros H. rewrite skipn_app, (skipn_all2 l1 H). reflexivity. Qed.

Lemma skipn_len_app {A} (l1 l2 : list A) : skipn (length l1) (app l1 l2) = l2.
Proof. rewrite skipn_app_ge, Nat.sub_diag by lia. reflexivity. Qed.

Lemma firstn_len_app {A} (l1 l2 : list A) : firstn (length l1) (app l1 l2) = l1.
Proof. rewrite firstn_app, Nat.sub_diag, firstn_all. simpl. apply app_nil_r. Qed.

Lemma trim_crlf_app a : trim_crlf (app a [13%Z; 10%Z]) = a.
Proof.
  unfold trim_crlf. rewrite length_app. cbn [length].
  replace (Nat.leb 2 (length a + 2)) with true by (symmetry; apply Nat.leb_le; lia).
  rewrite rev_app_distr. cbn [rev app]. apply rev_involutive.
Qed.

Lemma header_facts :
  let Hb := utf8_of_string AUDIO_PART_HEADER in
  4 <= length Hb /\
  index_from CRLFCRLF Hb 0 = Some (length Hb - 4) /\
  contains NAME_AUDIO (firstn (length Hb - 4) Hb) = true /\
  (forall k, k < length Hb -> dd_free (skipn k Hb) = true /\ skipn k Hb <> []).
Proof.
  cbv zeta. split; [vm_compute; lia|]. split; [vm_compute; reflexivity|].
  split; [vm_compute; reflexivity|]. intros k Hk. split.
  - assert (Hall : forallb (fun k => dd_free (skipn k (utf8_of_string AUDIO_PART_HEADER)))
                     (seq 0 (length (utf8_of_string AUDIO_PART_HEADER))) = true)
      by (vm_compute; reflexivity).
    rewrite forallb_forall in Hall. apply Hall, in_seq. lia.
  - intros E. apply (f_equal (@length Z)) in E. rewrite length_skipn in E. cbn [length] in E. lia.
Qed.

(** The parts loop finds the single part between the two boundaries. *)
Lemma collect_parts_form b audio :
  b <> "" -> (forall a, In a (list_ascii_of_string b) -> a <> "013"%char) ->
  contains (utf8_of_string ("--" ++ b)) audio = false ->
  let bb := utf8_of_string ("--" ++ b) in
  let X := app (utf8_of_string AUDIO_PART_HEADER) (app audio [13%Z; 10%Z]) in
  collect_parts (S (length (form_body b audio))) (form_body b audio) bb 0 = [X].
Proof.
  intros Hne Hcr Hc bb X.
  assert (Hbb : bb = 45%Z :: 45%Z :: utf8_of_string b) by reflexivity.
  assert (Hno : ~ In 13%Z bb).
  { rewrite Hbb. intros [E|[E|E]]; [discriminate|discriminate|]. exact (utf8_no_cr b Hcr E). }
  destruct (utf8_of_string b) as [|x xs] eqn:Eu.
  { destruct b as [|a b']; [contradiction|]. unfold utf8_of_string in Eu. cbn in Eu.
    destruct (Z.ltb _ 128); discriminate. }
  assert (Hx : Z.eqb x 13 = false)
    by (apply Z.eqb_neq; intros ->; apply Hno; rewrite Hbb; right; right; left; reflexivity).
  assert (Hbuf : form_body b audio = app bb (app X (app bb [45%Z; 45%Z; 13%Z; 10%Z]))).
  { unfold form_body, X. fold bb. rewrite <- !app_assoc. reflexivity. }
  destruct header_facts as (Hl4 & _ & _ & Hdd).
  (* the first search, from just past the opening boundary *)
  assert (Hfirst : indexOf bb (form_body b audio) (0 + length bb)
                   = Some (length bb + length X)).
  { unfold indexOf. rewrite Hbuf, Nat.add_0_l, skipn_len_app.
    rewrite index_from_skip; [rewrite index_from_self by (rewrite Hbb; discriminate); f_equal; lia|].
    intros k Hk. unfold X in Hk |- *. rewrite length_app in Hk. cbn [length] in Hk.
    rewrite <- app_assoc.
    destruct (Nat.lt_ge_cases k (length (utf8_of_string AUDIO_PART_HEADER))) as [H1|H1].
    - rewrite skipn_app, (proj2 (Nat.sub_0_le k _)) by lia. cbn [skipn].
      destruct (Hdd k H1) as [Hd Hn]. rewrite Hbb. apply dd_free_prefix; assumption.
    - rewrite skipn_app_ge by exact H1. rewrite <- app_assoc.
      set (j := k - length (utf8_of_string AUDIO_PART_HEADER)).
      destruct (Nat.lt_ge_cases j (length audio)) as [H2|H2].
      + rewrite skipn_app, (proj2 (Nat.sub_0_le j _)) by lia. cbn [skipn app].
        match goal with |- prefixb bb ?t = false => destruct (prefixb bb t) eqn:E end;
          [|reflexivity].
        apply prefixb_notin in E; [|exact Hno].
        rewrite (contains_false bb audio j) in E; [discriminate E|rewrite Hbb; discriminate|exact Hc].
      + rewrite skipn_app_ge by exact H2. rewrite Hbb.
        destruct (j - length audio) as [|[|m]] eqn:Ej; [reflexivity|reflexivity|].
        exfalso. rewrite !length_app in Hk. cbn [length] in Hk. unfold j in Ej. lia. }
  destruct (length (form_body b audio)) as [|[|n]] eqn:El;
    [rewrite Hbuf, Hbb in El; discriminate El|rewrite Hbuf, Hbb in El; discriminate El|].
  cbn [collect_parts]. rewrite Hfirst.
  assert (Hsl : slice (0 + length bb) (length bb + length X) (form_body b audio) = X).
  { unfold slice. rewrite Hbuf, Nat.add_0_l, skipn_len_app.
    replace (length bb + length X - length bb) with (length X) by lia.
    apply firstn_len_app. }
  rewrite Hsl. f_equal.
  unfold indexOf. rewrite Hbuf.
  assert (Hs : skipn (length bb + length X + length bb)
                 (app bb (app X (app bb [45%Z; 45%Z; 13%Z; 10%Z]))) = [45%Z; 45%Z; 13%Z; 10%Z]).
  { rewrite skipn_app_ge by lia.
    replace (length bb + length X + length bb - length bb) with (length X + length bb) by lia.
    rewrite skipn_app_ge by lia.
    replace (length X + length bb - length X) with (length bb) by lia.
    apply skipn_len_app. }
  rewrite Hs, Hbb. cbn [index_from prefixb].
  rewrite Hx. reflexivity.
Qed.

(** Round trip of [parseMultipart]: a one-field form whose boundary [b] is
    non-empty and free of [;], the double quote and CR, sent under
    [content-type: multipart/form-data; boundary=b] in chunks of at most
    [MAX_UPLOAD_BYTES] bytes in all, parses back to exactly the audio bytes,
    however the body is split into chunks, as long as the audio does not
    contain the boundary line [--b]. *)
Theorem parseMultipart_form_body b audio chunks :
  b <> "" ->
  (forall a, In a (list_ascii_of_string b) ->
     a <> ";"%char /\ a <> "034"%char /\ a <> "013"%char) ->
  contains (utf8_of_string ("--" ++ b)) audio = false ->
  concat chunks = form_body b audio ->
  Z.le (Z.of_nat (length (concat chunks))) MAX_UPLOAD_BYTES ->
  parseMultipart ("multipart/form-data; boundary=" ++ b) chunks = inr audio.
Proof.
  intros Hne Hb Hc Hcat Hsz. unfold parseMultipart.
  rewrite find_boundary_form
    by (assumption || (intros a Ha; destruct (Hb a Ha) as (H1 & H2 & _); split; assumption)).
  destruct (read_chunks_spec chunks 0 ltac:(unfold MAX_UPLOAD_BYTES; lia)) as [H1 H2].
  destruct (read_chunks 0 chunks) as [cs|] eqn:Er.
  2:{ exfalso. pose proof (proj1 H1 eq_refl). lia. }
  rewrite (H2 cs eq_refl), Hcat. cbv zeta.
  assert (Hfirst : indexOf (utf8_of_string ("--" ++ b)) (form_body b audio) 0 = Some 0).
  { unfold indexOf, form_body. cbv zeta. cbn [skipn].
    apply index_from_self. discriminate. }
  rewrite Hfirst.
  rewrite (collect_parts_form b audio Hne) by (assumption || (intros a Ha; apply (Hb a Ha))).
  destruct header_facts as (Hl4 & Hidx & Hname & _).
  cbn [find_audio]. unfold indexOf. cbn [skipn].
  rewrite (index_from_within _ _ _ 0 _ Hidx) by (unfold CRLFCRLF; cbn [length]; lia).
  unfold slice. rewrite Nat.sub_0_r. cbn [skipn].
  rewrite firstn_app.
  replace (length (utf8_of_string AUDIO_PART_HEADER) - 4 - length (utf8_of_string AUDIO_PART_HEADER))
    with 0 by lia.
  rewrite firstn_O, app_nil_r, Hname.
  replace (length (utf8_of_string AUDIO_PART_HEADER) - 4 + 4)
    with (length (utf8_of_string AUDIO_PART_HEADER)) by lia.
  rewrite skipn_len_app, trim_crlf_app. reflexivity.
Qed.

Lemma length_slice a b buf : length (slice a b buf) <= length buf.
Proof.
  unfold slice. rewrite length_firstn, length_skipn. lia.
Qed.

Lemma collect_parts_len fuel buf bb start p :
  In p (collect_parts fuel buf bb start) -> length p <= length buf.
Proof.
  revert start. induction fuel as [|f IH]; intros start Hin; [destruct Hin|].
  cbn [collect_parts] in Hin. destruct (indexOf bb buf (start + length bb)); [|destruct Hin].
  destruct Hin as [<-|Hin]; [apply length_slice|exact (IH _ Hin)].
Qed.

Lemma length_trim_crlf b : length (trim_crlf b) <= length b.
Proof.
  unfold trim_crlf. destruct (Nat.leb 2 (length b)); [|lia].
  destruct (rev b) as [|z1 r] eqn:E; [simpl; lia|].
  apply (f_equal (@length Z)) in E. rewrite length_rev in E. cbn [length] in E.
  repeat (match goal with |- context [match ?x with _ => _ end] => destruct x end);
    rewrite ?length_rev; cbn [length] in *; lia.
Qed.

Lemma find_audio_len parts a :
  find_audio parts = Some a -> exists p, In p parts /\ length a <= length p.
Proof.
  induction parts as [|p ps IH]; intros H; [discriminate|]. cbn [find_audio] in H.
  destruct (indexOf CRLFCRLF p 0) as [he|].
  - destruct (contains NAME_AUDIO (slice 0 he p)).
    + injection H as <-. exists p. split; [left; reflexivity|].
      etransitivity; [apply length_trim_crlf|]. rewrite length_skipn. lia.
    + destruct (IH H) as (p' & Hin & Hl). exists p'. split; [right; exact Hin|exact Hl].
  - destruct (IH H) as (p' & Hin & Hl). exists p'. split; [right; exact Hin|exact Hl].
Qed.

Lemma read_chunks_ok chunks cs :
  read_chunks 0 chunks = Some cs ->
  cs = chunks /\ Z.le (Z.of_nat (length (concat chunks))) MAX_UPLOAD_BYTES.
Proof.
  intros H. destruct (read_chunks_spec chunks 0 ltac:(unfold MAX_UPLOAD_BYTES; lia)) as [H1 H2].
  split; [exact (H2 cs H)|].
  destruct (Z.le_gt_cases (Z.of_nat (length (concat chunks))) MAX_UPLOAD_BYTES) as [?|Hg];
    [assumption|].
  assert (E : read_chunks 0 chunks = None) by (apply H1; lia). congruence.
Qed.

Lemma parse_inr_len ct chunks a :
  parseMultipart ct chunks = inr a ->
  length a <= length (concat chunks) /\
  Z.le (Z.of_nat (length (concat chunks))) MAX_UPLOAD_BYTES.
Proof.
  unfold parseMultipart. intros H.
  destruct (find_boundary (list_ascii_of_string ct)) as [b|]; [|discriminate].
  destruct (read_chunks 0 chunks) as [cs|] eqn:Er; [|discriminate].
  destruct (read_chunks_ok chunks cs Er) as [-> Hsz]. split; [|exact Hsz].
  cbv zeta in H. destruct (indexOf _ (concat chunks) 0) as [st|]; [|discriminate].
  destruct (find_audio _) as [a'|] eqn:Ef; [|discriminate]. injection H as <-.
  destruct (find_audio_len _ _ Ef) as (p & Hin & Hl).
  apply collect_parts_len in Hin. lia.
Qed.

Lemma parse_too_large ct chunks :
  parseMultipart ct chunks = inl "Upload too large" <->
  find_boundary (list_ascii_of_string ct) <> None /\
  Z.lt MAX_UPLOAD_BYTES (Z.of_nat (length (concat chunks))).
Proof.
  unfold parseMultipart.
  destruct (find_boundary (list_ascii_of_string ct)) as [b|];
    [|split; [discriminate|intros [H _]; contradiction]].
  destruct (read_chunks 0 chunks) as [cs|] eqn:Er.
  - destruct (read_chunks_ok chunks cs Er) as [-> Hsz]. split; [|lia].
    cbv zeta. destruct (indexOf _ (concat chunks) 0); [|discriminate].
    destruct (find_audio _); discriminate.
  - destruct (read_chunks_spec chunks 0 ltac:(unfold MAX_UPLOAD_BYTES; lia)) as [H1 _].
    apply H1 in Er. split; [intros _; split; [discriminate|lia]|reflexivity].
Qed.

(** [parseMultipart] rejects with [Invalid multipart data] exactly when the
    content type names a boundary [b], the body stays within
    [MAX_UPLOAD_BYTES], and the body never contains the line [--b]. *)
Theorem parse_invalid_multipart ct chunks :
  parseMultipart ct chunks = inl "Invalid multipart data" <->
  exists b, find_boundary (list_ascii_of_string ct) = Some b /\
            Z.le (Z.of_nat (length (concat chunks))) MAX_UPLOAD_BYTES /\
            contains (utf8_of_string ("--" ++ b)) (concat chunks) = false.
Proof.
  unfold parseMultipart.
  destruct (find_boundary (list_ascii_of_string ct)) as [b|];
    [|split; [discriminate|intros (b & H & _); discriminate]].
  destruct (read_chunks 0 chunks) as [cs|] eqn:Er.
  - destruct (read_chunks_ok chunks cs Er) as [-> Hsz]. cbv zeta.
    unfold indexOf, contains. cbn [skipn].
    destruct (index_from (utf8_of_string ("--" ++ b)) (concat chunks) 0) eqn:Ei.
    + split; [destruct (find_audio _); discriminate|].
      intros (b' & Hb' & _ & H). injection Hb' as <-. rewrite Ei in H. discriminate H.
    + split; [intros _|reflexivity]. exists b. repeat split; [exact Hsz|rewrite Ei; reflexivity].
  - destruct (read_chunks_spec chunks 0 ltac:(unfold MAX_UPLOAD_BYTES; lia)) as [H1 _].
    apply H1 in Er. split; [discriminate|]. intros (b' & _ & H & _). lia.
Qed.

(** [POST /api/stt] answers 413 exactly when the request passes the rate
    limit, its content type names a boundary and its body exceeds
    [MAX_UPLOAD_BYTES]: the 413 comes from the rejection of [parseMultipart]
    only, as the audio it returns is never longer than the body. *)
Theorem stt_413_iff ip now ct chunks m :
  (exists msg, fst (stt_front ip now ct chunks m) = SttError 413 msg) <->
  fst (checkRateLimit ip now m) = true /\
  find_boundary (list_ascii_of_string ct) <> None /\
  Z.lt MAX_UPLOAD_BYTES (Z.of_nat (length (concat chunks))).
Proof.
  unfold stt_front. destruct (checkRateLimit ip now m) as [ok m']. cbn [fst].
  destruct ok; cbn [negb fst];
    [|split; [intros (msg & H); discriminate H|intros (H & _); discriminate H]].
  destruct (parseMultipart ct chunks) as [msg|audio] eqn:Ep.
  - destruct (String.eqb_spec msg "Upload too large") as [->|Hne].
    + split; [intros _|intros _; exists "Audio file too large (max 8MB)"; reflexivity].
      apply parse_too_large in Ep. split; [reflexivity|exact Ep].
    + split; [intros (msg' & H); discriminate H|].
      intros (_ & H). apply parse_too_large in H. rewrite Ep in H.
      injection H as H. contradiction.
  - destruct (parse_inr_len _ _ _ Ep) as [Hl Hsz].
    split.
    + intros (msg & H).
      destruct (Nat.eqb (length audio) 0); [discriminate H|].
      destruct (Z.gtb_spec (Z.of_nat (length audio)) MAX_UPLOAD_BYTES); [lia|discriminate H].
    + intros (_ & _ & H). lia.
Qed.

(** [POST /api/stt] goes on to convert the audio exactly when the request
    passes the rate limit and [parseMultipart] returns non-empty audio; the
    audio handed on is that returned by [parseMultipart]. *)
Theorem stt_convert_iff ip now ct chunks m audio :
  fst (stt_front ip now ct chunks m) = SttConvert audio <->
  fst (checkRateLimit ip now m) = true /\
  parseMultipart ct chunks = inr audio /\ audio <> [].
Proof.
  unfold stt_front. destruct (checkRateLimit ip now m) as [ok m']. cbn [fst].
  destruct ok; cbn [negb fst]; [|split; [discriminate|intros (H & _); discriminate H]].
  destruct (parseMultipart ct chunks) as [msg|a] eqn:Ep.
  - split; [destruct (String.eqb msg _); discriminate|].
    intros (_ & H & _). discriminate H.
  - destruct (parse_inr_len _ _ _ Ep) as [Hl Hsz].
    destruct (Nat.eqb_spec (length a) 0) as [H0|H0].
    + split; [discriminate|]. intros (_ & H & Hne). injection H as <-.
      exfalso. apply Hne, length_zero_iff_nil, H0.
    + destruct (Z.gtb_spec (Z.of_nat (length a)) MAX_UPLOAD_BYTES); [lia|].
      split.
      * intros Hc. injection Hc as <-. repeat split.
        intros ->. apply H0. reflexivity.
      * intros (_ & Hc & _). injection Hc as <-. reflexivity.
Qed.

Lemma trim_empty : trim "" = "".
Proof. reflexivity. Qed.

(** [POST /api/tts] hands a text to Piper exactly when the request passes
    the rate limit, both [PIPER_BIN] and [PIPER_MODEL] are set, and the body's
    [text] is a string of at most 2000 characters that is not blank; what
    Piper receives is that string trimmed. *)
Theorem tts_synth_iff PIPER_BIN PIPER_MODEL ip now textF m t :
  fst (tts_front PIPER_BIN PIPER_MODEL ip now textF m) = TtsSynth t <->
  fst (checkRateLimit ip now m) = true /\ PIPER_BIN <> "" /\ PIPER_MODEL <> "" /\
  exists text, textF = JString text /\ t = trim text /\ t <> "" /\
               String.length text <= 2000.
Proof.
  unfold tts_front. destruct (checkRateLimit ip now m) as [ok m']. cbn [fst].
  destruct ok; cbn [negb fst]; [|split; [discriminate|intros (H & _); discriminate H]].
  destruct textF as [|text|];
    [split; [discriminate|intros (_ & _ & _ & text & H & _); discriminate H]| |
     split; [discriminate|intros (_ & _ & _ & text & H & _); discriminate H]].
  destruct (String.eqb_spec text "") as [->|Hn]; cbn [orb].
  { split; [discriminate|]. intros (_ & _ & _ & text & H & -> & Ht & _).
    injection H as <-. exfalso. exact (Ht trim_empty). }
  destruct (String.eqb_spec (trim text) "") as [Ht|Ht].
  { split; [discriminate|]. intros (_ & _ & _ & text' & H & -> & Ht' & _).
    injection H as <-. exfalso. exact (Ht' Ht). }
  destruct (Nat.ltb_spec 2000 (String.length text)) as [Hl|Hl].
  { split; [discriminate|]. intros (_ & _ & _ & text' & H & _ & _ & Hl').
    injection H as <-. lia. }
  destruct (String.eqb_spec PIPER_BIN "") as [Hb|Hb]; cbn [orb].
  { split; [discriminate|]. intros (_ & H & _). contradiction. }
  destruct (String.eqb_spec PIPER_MODEL "") as [Hm|Hm].
  { split; [discriminate|]. intros (_ & _ & H & _). contradiction. }
  split.
  - intros H. injection H as <-. repeat split; try assumption.
    exists text. repeat split; assumption.
  - intros (_ & _ & _ & text' & H & -> & _). injection H as <-. reflexivity.
Qed.

(** ** Rate limiter *)

(** Once the window of [ip] has expired (or [ip] has no entry), the
    requests of [ip] made within [RATE_LIMIT_WINDOW_MS] of the first one are
    let through for the first [RATE_LIMIT_MAX_REQUESTS] of them and refused
    afterwards. *)
Theorem rl_fresh_window_quota ip t0 ts m :
  (forall e, mget ip m = Some e -> Z.gt (t0 - windowStart e) RATE_LIMIT_WINDOW_MS) ->
  (forall t, In t ts -> Z.le (t - t0) RATE_LIMIT_WINDOW_MS) ->
  fst (rl_run (map (fun t => (ip, t)) (t0 :: ts)) m) =
  map (fun i => Nat.leb i RATE_LIMIT_MAX_REQUESTS) (seq 1 (S (length ts))).
Proof.
  intros Hexp Hts. cbn [map]. rewrite rl_run_cons.
  rewrite checkRateLimit_reset.
  2:{ destruct (mget ip m) as [e|] eqn:E; [|exact I].
      pose proof (Hexp e eq_refl). apply Z.gtb_lt. lia. }
  cbn [fst snd].
  rewrite (rl_run_in_window ip ts _ {| count := 1; windowStart := t0 |}).
  - cbn [seq map count]. f_equal. rewrite <- (seq_shift _ 1), map_map. reflexivity.
  - apply mget_mset_eq.
  - exact Hts.
Qed.

(** The verdicts the requests of one [ip] receive do not depend on the
    requests of other addresses: they are those [ip]'s requests receive
    when they come alone. *)
Theorem rl_verdicts_independent ip reqs m :
  verdicts_of ip reqs (fst (rl_run reqs m)) =
  fst (rl_run (filter (fun r => String.eqb (fst r) ip) reqs) m).
Proof. apply rl_verdicts_gen. reflexivity. Qed.

(** The periodic sweep of [rateLimitMap] at [now] never changes a verdict
    given at [now] or later: it only drops entries whose window has long
    expired. *)
Theorem rl_sweep_transparent now reqs m :
  NoDup (map fst m) ->
  (forall r, In r reqs -> Z.le now (snd r)) ->
  fst (rl_run reqs (rl_sweep now m)) = fst (rl_run reqs m).
Proof.
  intros Hnd Hr. apply (rl_rel_run now); [exact Hr|]. apply rl_rel_sweep. exact Hnd.
Qed.

(** ** Room state invariants *)

(** In every reachable state, a client id is a member of at most one room. *)
Theorem member_of_unique s c code1 code2 :
  reachable s -> member_of code1 c s = true -> member_of code2 c s = true -> code1 = code2.
Proof.
  intros Hs H1 H2. destruct (reachable_WF s Hs) as [HSI _].
  apply member_of_Some in H2 as (r & Hr & Hc).
  symmetry. exact (member_excl code1 code2 c s r HSI H1 Hr Hc).
Qed.

(** In every reachable state, a parked poll of client [k] is a poll by [k],
    [k]'s session points to a live room, [k] is a member of that room, and
    [k]'s queue there is empty: events never wait while a poll is parked. *)
Theorem parked_poll_invariant s k p :
  reachable s -> mget k (pendingPolls s) = Some p ->
  rcid p = k /\
  exists code r c, mget k (clientRooms s) = Some code /\ mget code (rooms s) = Some r /\
                   mget k (clients r) = Some c /\ events c = [].
Proof.
  intros Hs Hp. destruct (reachable_WF s Hs) as [[_ [_ Hpend]] Hpk]. split.
  - apply Hpend, mget_In. exact Hp.
  - destruct (Hpk k p Hp) as (code & r & c & H1 & _ & H3 & H4 & H5).
    exists code, r, c. auto.
Qed.

(** ** Witnesses *)

Lemma parseMultipart_form_body_witness :
  parseMultipart ("multipart/form-data; boundary=" ++ "XyZ") [form_body "XyZ" [1%Z; 2%Z; 3%Z]]
  = inr [1%Z; 2%Z; 3%Z].
Proof.
  apply (parseMultipart_form_body "XyZ" [1%Z; 2%Z; 3%Z] [form_body "XyZ" [1%Z; 2%Z; 3%Z]]).
  - discriminate.
  - intros a Ha. cbn in Ha.
    destruct Ha as [<-|[<-|[<-|[]]]]; repeat split; discriminate.
  - vm_compute. reflexivity.
  - cbn [concat]. apply app_nil_r.
  - vm_compute. discriminate.
Defined.

Lemma rl_fresh_window_quota_witness :
  fst (rl_run (map (fun t => ("10.0.0.1", t)) (0%Z :: List.repeat 5%Z 30)) []) =
  app (List.repeat true 30) [false].
Proof.
  rewrite (rl_fresh_window_quota "10.0.0.1" 0 (List.repeat 5%Z 30) []).
  - reflexivity.
  - intros e H. discriminate H.
  - intros t Ht. apply repeat_spec in Ht. subst t. unfold RATE_LIMIT_WINDOW_MS. lia.
Defined.

Lemma rl_sweep_transparent_witness :
  fst (rl_run [("10.0.0.1", 200000%Z)]
         (rl_sweep 200000 [("10.0.0.1", {| count := 30; windowStart := 0 |})])) =
  fst (rl_run [("10.0.0.1", 200000%Z)] [("10.0.0.1", {| count := 30; windowStart := 0 |})]) /\
  fst (rl_run [("10.0.0.1", 200000%Z)] [("10.0.0.1", {| count := 30; windowStart := 0 |})]) = [true].
Proof.
  split; [|reflexivity].
  apply rl_sweep_transparent.
  - constructor; [intros []|constructor].
  - intros r [<-|[]]. cbn [snd]. lia.
Defined.

Lemma member_of_unique_witness :
  member_of "12345" "B" st_two = true /\ "12345" = "12345".
Proof.
  assert (Hr : reachable st_two).
  { refine (reach_step (OJoin (rq 2 "") "B" (JString "12345") (JString "Bo") 70000) _
              (reach_step (OCreate (rq 1 "") "A" (JString "Ann") (JString "12345") rnd_ones 0)
                 init reach_init _) _).
    - intros (code & r & [] & _).
    - intros (code & r & Hin & Hc). vm_compute in Hin.
      destruct Hin as [E|[]]. injection E as <- <-. vm_compute in Hc.
      destruct Hc as [E|[]]. discriminate E. }
  assert (Hm : member_of "12345" "B" st_two = true) by (vm_compute; reflexivity).
  split; [exact Hm|]. exact (member_of_unique st_two "B" "12345" "12345" Hr Hm Hm).
Defined.

Lemma parked_poll_invariant_witness :
  mget "A" (pendingPolls st_parked) = Some (rq 3 "A") /\
  rcid (rq 3 "A") = "A" /\
  exists code r c, mget "A" (clientRooms st_parked) = Some code /\
                   mget code (rooms st_parked) = Some r /\
                   mget "A" (clients r) = Some c /\ events c = [].
Proof.
  assert (Hr : reachable st_parked).
  { refine (reach_step (OPoll (rq 3 "A") 2) _
              (reach_step (OPoll (rq 2 "A") 1) _
                 (reach_step (OCreate (rq 1 "") "A" (JString "Ann") (JString "12345") rnd_ones 0)
                    init reach_init _) I) I).
    intros (code & r & [] & _). }
  assert (Hp : mget "A" (pendingPolls st_parked) = Some (rq 3 "A")) by (vm_compute; reflexivity).
  split; [exact Hp|]. exact (parked_poll_invariant st_parked "A" (rq 3 "A") Hr Hp).
Defined.
(** ** The reaper, room by room *)

Lemma map_mupd_inv {V W} (g : string * V -> W) k f m :
  (forall v, g (k, f v) = g (k, v)) -> map g (mupd k f m) = map g m.
Proof.
  intros Hg. induction m as [|[k' v] m IH]; [reflexivity|]. cbn [mupd].
  destruct (String.eqb_spec k k') as [<-|]; cbn [map]; [rewrite Hg; reflexivity|].
  rewrite IH. reflexivity.
Qed.

Lemma room_view_rooms x s s' : rooms s' = rooms s -> room_view x s' = room_view x s.
Proof. intros H. unfold room_view. rewrite H. reflexivity. Qed.

Lemma room_view_upd x code id f s :
  (forall c, lastSeen (f c) = lastSeen c) ->
  room_view x (upd_client code id f s) = room_view x s.
Proof.
  intros Hf. unfold room_view, upd_client, set_rooms. cbn [rooms].
  destruct (String.eqb_spec x code) as [->|Hne].
  - rewrite mget_mupd_eq. destruct (mget code (rooms s)) as [r|]; [|reflexivity].
    cbn [option_map clients]. f_equal. unfold cview.
    apply map_mupd_inv. intros v. cbn [fst snd]. rewrite Hf. reflexivity.
  - rewrite mget_mupd_neq by exact Hne. reflexivity.
Qed.

Lemma room_view_flush x id s : room_view x (flushClient id s) = room_view x s.
Proof.
  unfold flushClient. destruct (mget id (pendingPolls s)) as [p|]; [|reflexivity].
  destruct (find_events id (rooms s)) as [[code evs]|]; [|reflexivity].
  transitivity (room_view x (upd_client code id clear_events
                              (set_pending (mdel id) (clearTimeout p s))));
    [apply room_view_rooms; reflexivity|].
  rewrite room_view_upd by reflexivity. apply room_view_rooms. reflexivity.
Qed.

Lemma room_view_broadcast_ids x code e ids s :
  room_view x (broadcast_ids code e ids s) = room_view x s.
Proof.
  revert s. induction ids as [|id ids IH]; intros s; [reflexivity|]. cbn [broadcast_ids].
  rewrite IH, room_view_flush. unfold push_event. apply room_view_upd. reflexivity.
Qed.

Lemma room_view_broadcast_presence x code s :
  room_view x (broadcast_presence code s) = room_view x s.
Proof.
  unfold broadcast_presence, broadcast.
  destruct (roomSnapshot code (rooms s)); [|reflexivity].
  destruct (mget code (rooms s)); [|reflexivity]. apply room_view_broadcast_ids.
Qed.

Lemma filter_all {A} (f : A -> bool) l : (forall x, In x l -> f x = true) -> filter f l = l.
Proof.
  induction l as [|a l IH]; intros H; [reflexivity|]. cbn [filter].
  rewrite (H a (or_introl eq_refl)), IH; [reflexivity|]. intros x Hx. apply H. right. exact Hx.
Qed.

Lemma filter_filter_and {A} (f g : A -> bool) l :
  filter f (filter g l) = filter (fun x => g x && f x) l.
Proof.
  induction l as [|a l IH]; [reflexivity|]. cbn [filter].
  destruct (g a); cbn [filter andb]; [destruct (f a); rewrite IH; reflexivity|exact IH].
Qed.

Lemma cview_mdel id cl :
  NoDup (map fst cl) -> cview (mdel id cl) = filter (fun p => negb (String.eqb id (fst p))) (cview cl).
Proof.
  induction cl as [|[k c] cl IH]; intros Hnd; [reflexivity|].
  inversion Hnd as [|? ? Hk Hnd']; subst. cbn [mdel cview map filter fst snd].
  destruct (String.eqb_spec id k) as [->|Hne]; cbn [negb].
  - symmetry. apply filter_all. intros [k' t] Hin. cbn [fst].
    apply negb_true_iff, String.eqb_neq. intros ->. apply Hk.
    unfold cview in Hin. rewrite in_map_iff in Hin. destruct Hin as ([k'' c''] & E & Hin).
    injection E as <- _. apply (in_map fst) in Hin. exact Hin.
  - cbn [map]. f_equal. apply IH. exact Hnd'.
Qed.

Lemma SI_room_NoDup s code r : SI s -> mget code (rooms s) = Some r -> NoDup (map fst (clients r)).
Proof.
  intros [(_ & Hn & _) _] Hr. apply (Hn code). apply In_view, mget_In. exact Hr.
Qed.

Lemma room_view_del x code id s :
  SI s ->
  room_view x (del_client code id s) =
  if String.eqb x code
  then option_map (filter (fun p => negb (String.eqb id (fst p)))) (room_view code s)
  else room_view x s.
Proof.
  intros HS. unfold room_view, del_client, set_rooms. cbn [rooms].
  destruct (String.eqb_spec x code) as [->|Hne].
  - rewrite mget_mupd_eq. destruct (mget code (rooms s)) as [r|] eqn:Hr; [|reflexivity].
    cbn [option_map clients]. f_equal. apply cview_mdel. exact (SI_room_NoDup s code r HS Hr).
  - rewrite mget_mupd_neq by exact Hne. reflexivity.
Qed.

Lemma room_view_cancel x id s : room_view x (cancel_pending id s) = room_view x s.
Proof.
  unfold cancel_pending. destruct (mget id (pendingPolls s)); apply room_view_rooms; reflexivity.
Qed.

Lemma room_view_rooms_mdel x code s :
  SI s -> room_view x (set_rooms (mdel code) s) = if String.eqb x code then None else room_view x s.
Proof.
  intros [(Hk & _ & _) _]. unfold room_view. cbn [rooms set_rooms].
  destruct (String.eqb_spec x code) as [->|Hne].
  - rewrite mget_mdel_eq; [reflexivity|]. rewrite <- keys_view. exact Hk.
  - rewrite mget_mdel_neq by exact Hne. reflexivity.
Qed.

Lemma room_view_evict x now code id s :
  WF s ->
  room_view x (evict_if_stale now code id s) =
  if String.eqb x code
  then option_map (filter (fun p => negb (String.eqb id (fst p) && stale now p))) (room_view code s)
  else room_view x s.
Proof.
  intros [HS HP]. unfold evict_if_stale.
  destruct (String.eqb_spec x code) as [->|Hne].
  2:{ destruct (mget code (rooms s)) as [r|]; [|reflexivity].
      destruct (mget id (clients r)) as [c|]; [|reflexivity].
      destruct (Z.gtb (now - lastSeen c) CLIENT_TIMEOUT_MS); [|reflexivity].
      rewrite room_view_cancel, room_view_del by exact HS.
      rewrite (proj2 (String.eqb_neq _ _) Hne). reflexivity. }
  unfold room_view at 2. destruct (mget code (rooms s)) as [r|] eqn:Hr; [|unfold room_view; rewrite Hr; reflexivity].
  pose proof (SI_room_NoDup s code r HS Hr) as Hnd. cbn [option_map].
  destruct (mget id (clients r)) as [c|] eqn:Hc.
  - assert (Hone : forall p, In p (cview (clients r)) -> fst p = id -> p = (id, lastSeen c)).
    { intros [k t] Hin Hk. cbn [fst] in Hk. subst k. unfold cview in Hin.
      apply in_map_iff in Hin as ([k' c'] & E & Hin). cbn [fst snd] in E.
      injection E as E1 E2. subst k' t.
      rewrite (mget_NoDup_In id c' _ Hnd Hin) in Hc. injection Hc as ->. reflexivity. }
    destruct (Z.gtb (now - lastSeen c) CLIENT_TIMEOUT_MS) eqn:Hst.
    + rewrite room_view_cancel, room_view_del by exact HS. rewrite String.eqb_refl.
      unfold room_view. rewrite Hr. cbn [option_map]. f_equal. apply filter_ext_in.
      intros p Hin. destruct (String.eqb_spec id (fst p)) as [E|]; [|reflexivity].
      rewrite (Hone p Hin (eq_sym E)). unfold stale. cbn [snd]. rewrite Hst. reflexivity.
    + unfold room_view. rewrite Hr. cbn [option_map]. f_equal. symmetry. apply filter_all.
      intros p Hin. destruct (String.eqb_spec id (fst p)) as [E|]; [|reflexivity].
      rewrite (Hone p Hin (eq_sym E)). unfold stale. cbn [snd]. rewrite Hst. reflexivity.
  - unfold room_view. rewrite Hr. cbn [option_map]. f_equal. symmetry. apply filter_all.
    intros [k t] Hin. cbn [fst]. destruct (String.eqb_spec id k) as [->|]; [|reflexivity].
    exfalso. unfold cview in Hin. apply in_map_iff in Hin as ([k' c'] & E & Hin).
    cbn [fst snd] in E. injection E as E1 _. subst k'.
    rewrite (mget_NoDup_In _ c' _ Hnd Hin) in Hc. discriminate Hc.
Qed.

Lemma room_view_evicts x now code ids s :
  WF s ->
  room_view x (fold_left (fun s id => evict_if_stale now code id s) ids s) =
  if String.eqb x code
  then option_map (filter (fun p => negb (existsb (fun id => String.eqb id (fst p)) ids
                                          && stale now p)))
                  (room_view code s)
  else room_view x s.
Proof.
  revert s. induction ids as [|id ids IH]; intros s HW.
  - cbn [fold_left existsb]. destruct (String.eqb x code) eqn:E; [|reflexivity].
    apply String.eqb_eq in E. subst x.
    destruct (room_view code s); [|reflexivity]. cbn [option_map]. f_equal. symmetry.
    apply filter_all. reflexivity.
  - cbn [fold_left]. rewrite (IH _ (W_evict now code id s HW)).
    rewrite !room_view_evict by exact HW. rewrite String.eqb_refl.
    destruct (String.eqb x code); [|reflexivity].
    destruct (room_view code s); [|reflexivity]. cbn [option_map]. f_equal.
    rewrite filter_filter_and. apply filter_ext. intros p. cbn [existsb].
    destruct (String.eqb id (fst p)), (existsb _ ids), (stale now p); reflexivity.
Qed.

Lemma room_size_view code s :
  room_size code s = match room_view code s with Some l => length l | None => 0 end.
Proof.
  unfold room_size, room_view. destruct (mget code (rooms s)); [|reflexivity].
  cbn [option_map]. unfold cview. rewrite length_map. reflexivity.
Qed.

Lemma room_view_sweep x now code s :
  WF s ->
  room_view x (sweep_room now code s) =
  if String.eqb x code then swept_view now (room_view code s) else room_view x s.
Proof.
  intros HW. unfold sweep_room.
  destruct (mget code (rooms s)) as [r|] eqn:Hr.
  2:{ destruct (String.eqb_spec x code) as [->|]; [|reflexivity].
      unfold room_view. rewrite Hr. reflexivity. }
  assert (Hfold : forall ids s0, WF s0 ->
            WF (fold_left (fun s id => evict_if_stale now code id s) ids s0))
    by (induction ids as [|id ids IH]; simpl; auto using W_evict).
  set (s1 := fold_left _ (map fst (clients r)) s).
  assert (HW1 : WF s1) by exact (Hfold _ _ HW).
  assert (Hv1 : forall y, room_view y s1 =
            if String.eqb y code
            then Some (filter (fun p => negb (stale now p)) (cview (clients r)))
            else room_view y s).
  { intros y. unfold s1. rewrite room_view_evicts by exact HW.
    destruct (String.eqb y code); [|reflexivity].
    unfold room_view at 1. rewrite Hr. cbn [option_map]. f_equal. apply filter_ext_in.
    intros [k t] Hin. cbn [fst].
    replace (existsb (fun id => String.eqb id k) (map fst (clients r))) with true; [reflexivity|].
    symmetry. apply existsb_exists. exists k. split; [|apply String.eqb_refl].
    unfold cview in Hin. apply in_map_iff in Hin as ([k' c'] & E & Hin).
    injection E as <- _. apply (in_map fst) in Hin. exact Hin. }
  set (l := filter (fun p => negb (stale now p)) (cview (clients r))) in *.
  assert (Hsz1 : room_size code s1 = length l) by (rewrite room_size_view, Hv1, String.eqb_refl; reflexivity).
  set (s2 := if Nat.ltb 0 (room_size code s1) then broadcast_presence code s1 else s1).
  assert (HW2 : WF s2)
    by (unfold s2; destruct (Nat.ltb 0 (room_size code s1)); auto using W_broadcast_presence).
  assert (Hv2 : forall y, room_view y s2 = room_view y s1)
    by (intros y; unfold s2; destruct (Nat.ltb 0 (room_size code s1));
        [apply room_view_broadcast_presence|reflexivity]).
  assert (Hsz2 : room_size code s2 = length l) by (rewrite room_size_view, Hv2, <- room_size_view; exact Hsz1).
  rewrite Hsz2.
  assert (Hsw : swept_view now (room_view code s) =
                match l with [] => None | p :: l' => Some (p :: l') end)
    by (unfold room_view; rewrite Hr; reflexivity).
  destruct (Nat.eqb_spec (length l) 0) as [H0|H0].
  - rewrite room_view_rooms_mdel by exact (proj1 HW2).
    destruct (String.eqb_spec x code) as [->|Hne].
    + rewrite Hsw. destruct l; [reflexivity|discriminate H0].
    + rewrite Hv2, Hv1. rewrite (proj2 (String.eqb_neq _ _) Hne). reflexivity.
  - rewrite Hv2, Hv1. destruct (String.eqb_spec x code) as [->|Hne]; [|reflexivity].
    rewrite Hsw. destruct l; [contradiction H0; reflexivity|reflexivity].
Qed.

Lemma swept_view_idem now v : swept_view now (swept_view now v) = swept_view now v.
Proof.
  destruct v as [l|]; [|reflexivity]. cbn [swept_view].
  destruct (filter (fun p => negb (stale now p)) l) as [|p l'] eqn:E; [reflexivity|].
  cbn [swept_view]. rewrite <- E, filter_filter_and.
  rewrite (filter_ext (fun x => negb (stale now x) && negb (stale now x))
                      (fun x => negb (stale now x))) by (intros x; apply andb_diag).
  rewrite E. reflexivity.
Qed.

Lemma room_view_sweeps x now codes s :
  WF s ->
  room_view x (fold_left (fun s code => sweep_room now code s) codes s) =
  if existsb (String.eqb x) codes then swept_view now (room_view x s) else room_view x s.
Proof.
  revert s. induction codes as [|c cs IH]; intros s HW; [reflexivity|].
  cbn [fold_left existsb]. rewrite (IH _ (W_sweep now c s HW)).
  rewrite !room_view_sweep by exact HW.
  destruct (String.eqb_spec x c) as [->|Hne]; cbn [orb].
  - destruct (existsb _ cs); [apply swept_view_idem|reflexivity].
  - reflexivity.
Qed.

(** What the reaper does to the rooms: after [cleanup] at [now], in every
    reachable state, each room keeps exactly its members that were seen
    within [CLIENT_TIMEOUT_MS] of [now], in the same order and with the same
    [lastSeen], and it is gone if none of them is left; no room appears. *)
Theorem cleanup_room_view now s code :
  reachable s -> room_view code (cleanup now s) = swept_view now (room_view code s).
Proof.
  intros Hs. unfold cleanup. rewrite room_view_sweeps by exact (reachable_WF s Hs).
  destruct (existsb (String.eqb code) (map fst (rooms s))) eqn:E; [reflexivity|].
  unfold room_view. replace (mget code (rooms s)) with (@None room); [reflexivity|].
  symmetry. apply mget_None. intros Hin.
  assert (existsb (String.eqb code) (map fst (rooms s)) = true)
    by (apply existsb_exists; exists code; split; [exact Hin|apply String.eqb_refl]).
  congruence.
Qed.

(** ** Sessions: the keys of [clientRooms] *)

Lemma clientRooms_bp code s : clientRooms (broadcast_presence code s) = clientRooms s.
Proof.
  unfold broadcast_presence. destruct (roomSnapshot code (rooms s)); [|reflexivity].
  apply clientRooms_broadcast.
Qed.

Lemma clientRooms_cancel id s : clientRooms (cancel_pending id s) = clientRooms s.
Proof. unfold cancel_pending. destruct (mget id (pendingPolls s)); reflexivity. Qed.

Lemma clientRooms_evict now code id s : clientRooms (evict_if_stale now code id s) = clientRooms s.
Proof.
  unfold evict_if_stale. destruct (mget code (rooms s)) as [r|]; [|reflexivity].
  destruct (mget id (clients r)) as [c|]; [|reflexivity].
  destruct (Z.gtb _ _); [|reflexivity]. rewrite clientRooms_cancel. reflexivity.
Qed.

Lemma clientRooms_sweep now code s : clientRooms (sweep_room now code s) = clientRooms s.
Proof.
  unfold sweep_room. destruct (mget code (rooms s)) as [r|]; [|reflexivity].
  assert (H1 : forall ids s0,
             clientRooms (fold_left (fun s id => evict_if_stale now code id s) ids s0)
             = clientRooms s0).
  { induction ids as [|id ids IH]; intros s0; [reflexivity|]. cbn [fold_left].
    rewrite IH. apply clientRooms_evict. }
  set (s1 := fold_left _ _ _).
  assert (H2 : clientRooms (if Nat.ltb 0 (room_size code s1) then broadcast_presence code s1
                            else s1) = clientRooms s).
  { destruct (Nat.ltb 0 (room_size code s1)); [rewrite clientRooms_bp|]; apply H1. }
  destruct (Nat.eqb _ 0); exact H2.
Qed.

Lemma clientRooms_cleanup now s : clientRooms (cleanup now s) = clientRooms s.
Proof.
  unfold cleanup. generalize (map fst (rooms s)). intros codes. revert s.
  induction codes as [|c cs IH]; intros s; [reflexivity|]. cbn [fold_left].
  rewrite IH. apply clientRooms_sweep.
Qed.

Lemma clientRooms_step o s :
  clientRooms (step o s) = clientRooms s \/
  (exists k v, clientRooms (step o s) = mset k v (clientRooms s)) \/
  (exists k, clientRooms (step o s) = mdel k (clientRooms s)).
Proof.
  destruct o as [q cid nameF roomF rnd now|q cid roomF nameF now|q cid|q cid textF now
                |q now|q|q|now]; cbn [step].
  - unfold create_handler. destruct (createRoom _ _ _ _) as [msg|[code rs]]; [left; reflexivity|].
    right; left. exists cid, code. cbv zeta.
    destruct (roomSnapshot _ _); reflexivity.
  - unfold join_handler. cbv zeta.
    destruct (_ || _ || _); [left; reflexivity|].
    destruct (mget _ (rooms s)); [|left; reflexivity].
    right; left. exists cid, (safeText roomF).
    destruct (roomSnapshot _ _); cbn [respond clientRooms]; [rewrite clientRooms_broadcast|];
      reflexivity.
  - unfold leave_handler. destruct (lookup_session cid s) as [[code r]|]; [|left; reflexivity].
    right; right. exists cid. cbv zeta.
    destruct (Nat.ltb 0 _); cbn [respond clientRooms];
      [rewrite clientRooms_bp|unfold set_rooms; cbn [clientRooms]]; rewrite clientRooms_cancel;
      reflexivity.
  - left. unfold send_handler. cbv zeta. destruct (String.eqb _ ""); [reflexivity|].
    destruct (lookup_session cid s) as [[code r]|]; [|reflexivity].
    destruct (mget cid (clients r)); [|reflexivity]. cbn [respond clientRooms].
    apply clientRooms_broadcast.
  - left. unfold poll_handler. cbv zeta.
    destruct (lookup_session (rcid q) s) as [[code r]|]; [|reflexivity].
    destruct (mget (rcid q) (clients r)) as [c|]; [|reflexivity].
    destruct (events c); [|reflexivity].
    destruct (mget (rcid q) (pendingPolls _)); reflexivity.
  - left. unfold poll_timeout. destruct (existsb _ _); reflexivity.
  - left. unfold poll_close. destruct (mget _ _) as [p|]; [|reflexivity].
    destruct (req_eqb p q); reflexivity.
  - left. apply clientRooms_cleanup.
Qed.

Lemma reachable_crs_NoDup s : reachable s -> NoDup (map fst (clientRooms s)).
Proof.
  induction 1 as [|o s Hs IH _].
  - constructor.
  - destruct (clientRooms_step o s) as [->|[(k & v & ->)|(k & ->)]].
    + exact IH.
    + apply NoDup_mset, IH.
    + apply NoDup_mdel, IH.
Qed.

(** ** Leaving a room *)

Lemma member_of_view x c s :
  member_of x c s = true <-> exists l, room_view x s = Some l /\ In c (map fst l).
Proof.
  split.
  - intros H. apply member_of_Some in H as (r & Hr & Hc). exists (cview (clients r)).
    unfold room_view. rewrite Hr. split; [reflexivity|].
    unfold cview. rewrite map_map. exact Hc.
  - intros (l & Hv & Hc). unfold room_view in Hv.
    destruct (mget x (rooms s)) as [r|] eqn:Hr; [|discriminate]. injection Hv as <-.
    apply (member_of_intro x c s r Hr). unfold cview in Hc. rewrite map_map in Hc. exact Hc.
Qed.

Lemma pending_cancel_self id s :
  pend_ok (pendingPolls s) -> mget id (pendingPolls (cancel_pending id s)) = None.
Proof.
  intros [Hnd _]. unfold cancel_pending.
  destruct (mget id (pendingPolls s)) eqn:E; [|exact E].
  cbn [pendingPolls set_pending clearTimeout set_timers]. apply mget_mdel_eq. exact Hnd.
Qed.

Lemma pending_bp c code s :
  SI s -> mget c (pendingPolls s) = None -> mget c (pendingPolls (broadcast_presence code s)) = None.
Proof.
  intros HS Hp. unfold broadcast_presence, broadcast.
  destruct (roomSnapshot code (rooms s)); [|exact Hp].
  destruct (mget code (rooms s)); [|exact Hp]. apply received_broadcast_ids; assumption.
Qed.

(** [POST /api/room/leave] by a member [cid] of the room its session names,
    in a reachable state: the room loses exactly [cid] (members keep their
    order and [lastSeen]) and is deleted if nobody is left, no other room
    changes, [cid] is then a member of no room, its session entry and its
    parked poll are gone, and the request is answered [{ ok: true }]. *)
Theorem leave_member_effects q cid s code r :
  reachable s -> lookup_session cid s = Some (code, r) -> In cid (map fst (clients r)) ->
  let s' := leave_handler q cid s in
  (forall x, room_view x s' =
     if String.eqb x code
     then match filter (fun p => negb (String.eqb cid (fst p))) (cview (clients r)) with
          | [] => None
          | p :: l => Some (p :: l)
          end
     else room_view x s) /\
  (forall x, member_of x cid s' = false) /\
  mget cid (clientRooms s') = None /\
  mget cid (pendingPolls s') = None /\
  exists pre, out s' = app pre [(q, BOk)].
Proof.
  intros Hs Hl Hin s'. pose proof (reachable_WF s Hs) as HW.
  pose proof (lookup_session_Some _ _ _ _ Hl) as (Hcr & Hne & Hr).
  set (s1 := cancel_pending cid (set_clientRooms (mdel cid) (del_client code cid s))).
  assert (HW1 : WF s1) by exact (W_leave_core code cid s HW).
  set (l := filter (fun p => negb (String.eqb cid (fst p))) (cview (clients r))).
  assert (Hv1 : forall x, room_view x s1 = if String.eqb x code then Some l else room_view x s).
  { intros x. unfold s1. rewrite room_view_cancel.
    rewrite (room_view_rooms x (del_client code cid s)) by reflexivity.
    rewrite room_view_del by exact (proj1 HW).
    destruct (String.eqb x code); [|reflexivity]. unfold room_view. rewrite Hr. reflexivity. }
  assert (Hsz : room_size code s1 = length l)
    by (rewrite room_size_view, Hv1, String.eqb_refl; reflexivity).
  assert (Hp1 : mget cid (pendingPolls s1) = None)
    by (apply pending_cancel_self; exact (proj2 (proj1 HW))).
  set (s2 := if Nat.ltb 0 (room_size code s1) then broadcast_presence code s1
             else set_rooms (mdel code) s1).
  assert (Hs' : s' = respond q BOk s2)
    by (unfold s', leave_handler; rewrite Hl; reflexivity).
  assert (Hv2 : forall x, room_view x s' =
            if String.eqb x code
            then match l with [] => None | p :: l' => Some (p :: l') end
            else room_view x s).
  { intros x. rewrite Hs'. rewrite (room_view_rooms x s2) by reflexivity. unfold s2.
    rewrite Hsz. destruct (Nat.ltb_spec 0 (length l)).
    - rewrite room_view_broadcast_presence, Hv1.
      destruct (String.eqb x code); [|reflexivity]. destruct l; [cbn in *; lia|reflexivity].
    - rewrite room_view_rooms_mdel by exact (proj1 HW1).
      destruct (String.eqb_spec x code) as [->|Hx].
      + destruct l; [reflexivity|cbn in *; lia].
      + rewrite Hv1. rewrite (proj2 (String.eqb_neq _ _) Hx). reflexivity. }
  split; [exact Hv2|]. split; [|split; [|split]].
  - intros x. destruct (member_of x cid s') eqn:Hm; [|reflexivity]. exfalso.
    apply member_of_view in Hm as (l0 & Hv & Hc). rewrite Hv2 in Hv.
    destruct (String.eqb_spec x code) as [->|Hx].
    + assert (Hl0 : l0 = l) by (destruct l; [discriminate Hv|injection Hv as <-; reflexivity]).
      subst l0. unfold l in Hc. apply in_map_iff in Hc as (p & Ep & Hp).
      apply filter_In in Hp as [_ Hp]. rewrite Ep, String.eqb_refl in Hp. discriminate Hp.
    + unfold room_view in Hv. destruct (mget x (rooms s)) as [r'|] eqn:Hr'; [|discriminate].
      injection Hv as <-. unfold cview in Hc. rewrite map_map in Hc.
      exact (Hx (member_excl code x cid s r' (proj1 HW) (member_of_intro code cid s r Hr Hin) Hr' Hc)).
  - rewrite Hs'. cbn [respond clientRooms]. unfold s2.
    destruct (Nat.ltb 0 _); [rewrite clientRooms_bp|unfold set_rooms; cbn [clientRooms]];
      unfold s1; rewrite clientRooms_cancel; cbn [set_clientRooms clientRooms];
      apply mget_mdel_eq; exact (reachable_crs_NoDup _ Hs).
  - rewrite Hs'. cbn [respond pendingPolls]. unfold s2.
    destruct (Nat.ltb 0 _); [apply pending_bp; [exact (proj1 HW1)|exact Hp1]|exact Hp1].
  - exists (out s2). rewrite Hs'. reflexivity.
Qed.

(** ** Concrete runs *)

Lemma reachable_st_two : reachable st_two.
Proof.
  refine (reach_step (OJoin (rq 2 "") "B" (JString "12345") (JString "Bo") 70000) _
            (reach_step (OCreate (rq 1 "") "A" (JString "Ann") (JString "12345") rnd_ones 0)
               init reach_init _) _).
  - intros (code & r & [] & _).
  - intros (code & r & Hin & Hc). vm_compute in Hin.
    destruct Hin as [E|[]]. injection E as <- <-. vm_compute in Hc.
    destruct Hc as [E|[]]. discriminate E.
Qed.

(** Ann (last seen at 0) is reaped at 70001, Bo (seen at 70000) stays. *)
Lemma cleanup_room_view_witness :
  reachable st_two /\
  room_view "12345" (cleanup 70001 st_two) = Some [("B", 70000%Z)].
Proof.
  split; [exact reachable_st_two|].
  rewrite (cleanup_room_view 70001 st_two "12345" reachable_st_two).
  vm_compute. reflexivity.
Defined.

(** Bo leaves 12345: Ann stays, Bo's session is gone. *)
Lemma leave_member_effects_witness :
  let r := match lookup_session "B" st_two with Some (_, r) => r | None => new_room 0 end in
  reachable st_two /\ lookup_session "B" st_two = Some ("12345", r) /\
  In "B" (map fst (clients r)) /\
  room_view "12345" (leave_handler (rq 3 "B") "B" st_two) = Some [("A", 0%Z)] /\
  mget "B" (clientRooms (leave_handler (rq 3 "B") "B" st_two)) = None.
Proof.
  intros r.
  assert (Hl : lookup_session "B" st_two = Some ("12345", r)) by (vm_compute; reflexivity).
  assert (Hin : In "B" (map fst (clients r))) by (vm_compute; auto).
  destruct (leave_member_effects (rq 3 "B") "B" st_two "12345" r reachable_st_two Hl Hin)
    as (Hv & _ & Hc & _).
  split; [exact reachable_st_two|]. split; [exact Hl|]. split; [exact Hin|].
  split; [|exact Hc].
  rewrite Hv. vm_compute. reflexivity.
Defined.

(** ** Polling *)

Lemma upd_client_at code id f s r :
  mget code (rooms s) = Some r ->
  mget code (rooms (upd_client code id f s)) =
    Some {| clients := mupd id f (clients r); createdAt := createdAt r |}.
Proof. intros Hr. unfold upd_client, set_rooms. cbn [rooms]. rewrite mget_mupd_eq, Hr. reflexivity. Qed.

(** [GET /api/room/poll] by a member of the room its session names: its
    record becomes [{ name, lastSeen: now, events: [] }] and its session is
    kept. With queued events, they are all returned at once and no poll is
    parked or answered; with an empty queue, the request is parked under the
    client's id, and a poll parked there before is answered
    [{ events: [] }], the only response sent. *)
Theorem poll_member_effects rq now s code r c :
  lookup_session (rcid rq) s = Some (code, r) -> mget (rcid rq) (clients r) = Some c ->
  let s' := poll_handler rq now s in
  (exists r', mget code (rooms s') = Some r' /\
              mget (rcid rq) (clients r') =
                Some {| name := name c; lastSeen := now; events := [] |}) /\
  clientRooms s' = clientRooms s /\
  match events c with
  | [] => mget (rcid rq) (pendingPolls s') = Some rq /\
          out s' = match mget (rcid rq) (pendingPolls s) with
                   | Some ex => app (out s) [(ex, BEvents [])]
                   | None => out s
                   end
  | evs => pendingPolls s' = pendingPolls s /\ out s' = app (out s) [(rq, BEvents evs)]
  end.
Proof.
  intros Hl Hc s'. pose proof (lookup_session_Some _ _ _ _ Hl) as (_ & _ & Hr).
  set (s1 := upd_client code (rcid rq) (set_lastSeen now) s).
  assert (Hr1 := upd_client_at code (rcid rq) (set_lastSeen now) s r Hr).
  fold s1 in Hr1.
  assert (Hs' : s' = match events c with
                     | _ :: _ => respond rq (BEvents (events c))
                                   (upd_client code (rcid rq) clear_events s1)
                     | [] => set_pending (mset (rcid rq) rq)
                               (match mget (rcid rq) (pendingPolls s1) with
                                | Some ex => respond ex (BEvents [])
                                     (clearTimeout ex (set_timers (fun t => app t [rq]) s1))
                                | None => set_timers (fun t => app t [rq]) s1
                                end)
                     end)
    by (unfold s', poll_handler; rewrite Hl, Hc; reflexivity).
  change (pendingPolls s1) with (pendingPolls s) in Hs'.
  destruct (events c) as [|e evs] eqn:Ee.
  - split; [|split].
    + eexists. split.
      * rewrite Hs'. destruct (mget (rcid rq) (pendingPolls s)); exact Hr1.
      * cbn [clients]. rewrite mget_mupd_eq, Hc. unfold option_map, set_lastSeen.
        rewrite Ee. reflexivity.
    + rewrite Hs'. destruct (mget (rcid rq) (pendingPolls s)); reflexivity.
    + rewrite Hs'. split.
      * destruct (mget (rcid rq) (pendingPolls s)); apply mget_mset_eq.
      * destruct (mget (rcid rq) (pendingPolls s)); reflexivity.
  - split; [|split].
    + eexists. split.
      * rewrite Hs'. cbn [respond rooms]. exact (upd_client_at _ _ _ _ _ Hr1).
      * cbn [clients]. rewrite !mget_mupd_eq, Hc. reflexivity.
    + rewrite Hs'. reflexivity.
    + rewrite Hs'. split; reflexivity.
Qed.

(** Ann polls again at 3 while request 3 is parked: request 3 is answered
    with no events and request 4 takes its place. *)
Lemma poll_member_effects_witness :
  let r := match lookup_session "A" st_parked with Some (_, r) => r | None => new_room 0 end in
  let c := match mget "A" (clients r) with
           | Some c => c | None => {| name := ""; lastSeen := 0; events := [] |} end in
  lookup_session (rcid (rq 4 "A")) st_parked = Some ("12345", r) /\
  mget (rcid (rq 4 "A")) (clients r) = Some c /\
  mget "A" (pendingPolls (poll_handler (rq 4 "A") 3 st_parked)) = Some (rq 4 "A") /\
  out (poll_handler (rq 4 "A") 3 st_parked) = app (out st_parked) [(rq 3 "A", BEvents [])].
Proof.
  intros r c.
  assert (Hl : lookup_session (rcid (rq 4 "A")) st_parked = Some ("12345", r))
    by (vm_compute; reflexivity).
  assert (Hc : mget (rcid (rq 4 "A")) (clients r) = Some c) by (vm_compute; reflexivity).
  destruct (poll_member_effects (rq 4 "A") 3 st_parked "12345" r c Hl Hc) as (_ & _ & H).
  assert (Ee : events c = []) by (vm_compute; reflexivity).
  rewrite Ee in H. destruct H as [Hp Ho].
  split; [exact Hl|]. split; [exact Hc|]. split; [exact Hp|].
  rewrite Ho. vm_compute. reflexivity.
Defined.

Lemma req_eqb_sym a b : req_eqb a b = req_eqb b a.
Proof. unfold req_eqb. rewrite Nat.eqb_sym, String.eqb_sym. reflexivity. Qed.

(** A poll that a newer poll of the same client (another request id)
    replaced is inert: its [close] handler and its timer callback, if they
    run afterwards, change nothing, so the newer poll stays parked. *)
Theorem replaced_poll_inert s rq now code r c ex :
  reachable s -> lookup_session (rcid rq) s = Some (code, r) ->
  mget (rcid rq) (clients r) = Some c -> events c = [] ->
  mget (rcid rq) (pendingPolls s) = Some ex -> rid ex <> rid rq ->
  let s' := poll_handler rq now s in
  poll_close ex s' = s' /\ poll_timeout ex s' = s'.
Proof.
  intros Hs Hl Hc Ee Hp Hid s'.
  assert (Hk : rcid ex = rcid rq)
    by exact (proj2 (proj2 (proj1 (reachable_WF s Hs))) _ _ (mget_In _ _ _ Hp)).
  assert (Hne : req_eqb rq ex = false)
    by (unfold req_eqb; rewrite (proj2 (Nat.eqb_neq _ _) (not_eq_sym Hid)); reflexivity).
  destruct (poll_member_effects rq now s code r c Hl Hc) as (_ & _ & Hm).
  rewrite Ee in Hm. destruct Hm as [Hp' _]. fold s' in Hp'.
  assert (Ht : timers s' = filter (fun t => negb (req_eqb t ex)) (app (timers s) [rq])).
  { unfold s', poll_handler. rewrite Hl, Hc, Ee.
    cbn [pendingPolls upd_client set_rooms set_timers]. rewrite Hp. reflexivity. }
  split.
  - unfold poll_close. rewrite Hk, Hp', Hne. reflexivity.
  - unfold poll_timeout. rewrite Ht.
    assert (Hx : existsb (req_eqb ex) (filter (fun t => negb (req_eqb t ex)) (app (timers s) [rq])) = false).
    { apply Bool.not_true_iff_false. intros Hx. apply existsb_exists in Hx as (t & Ht' & Et).
      apply filter_In in Ht' as [_ Ht']. rewrite req_eqb_sym, Et in Ht'. discriminate Ht'. }
    rewrite Hx. reflexivity.
Qed.

Lemma reachable_st_parked : reachable st_parked.
Proof.
  refine (reach_step (OPoll (rq 3 "A") 2) _
            (reach_step (OPoll (rq 2 "A") 1) _
               (reach_step (OCreate (rq 1 "") "A" (JString "Ann") (JString "12345") rnd_ones 0)
                  init reach_init _) I) I).
  intros (code & r & [] & _).
Qed.

(** Request 4 of Ann replaces her parked request 3; the late close and
    timeout of request 3 leave the state as it is. *)
Lemma replaced_poll_inert_witness :
  let r := match lookup_session "A" st_parked with Some (_, r) => r | None => new_room 0 end in
  let c := match mget "A" (clients r) with
           | Some c => c | None => {| name := ""; lastSeen := 0; events := [] |} end in
  reachable st_parked /\
  lookup_session (rcid (rq 4 "A")) st_parked = Some ("12345", r) /\
  mget (rcid (rq 4 "A")) (clients r) = Some c /\ events c = [] /\
  mget (rcid (rq 4 "A")) (pendingPolls st_parked) = Some (rq 3 "A") /\
  rid (rq 3 "A") <> rid (rq 4 "A") /\
  poll_close (rq 3 "A") (poll_handler (rq 4 "A") 3 st_parked) =
    poll_handler (rq 4 "A") 3 st_parked.
Proof.
  intros r c.
  assert (Hl : lookup_session (rcid (rq 4 "A")) st_parked = Some ("12345", r))
    by (vm_compute; reflexivity).
  assert (Hc : mget (rcid (rq 4 "A")) (clients r) = Some c) by (vm_compute; reflexivity).
  assert (Ee : events c = []) by (vm_compute; reflexivity).
  assert (Hp : mget (rcid (rq 4 "A")) (pendingPolls st_parked) = Some (rq 3 "A"))
    by (vm_compute; reflexivity).
  assert (Hid : rid (rq 3 "A") <> rid (rq 4 "A")) by (cbn; lia).
  split; [exact reachable_st_parked|]. do 5 (split; [assumption|]).
  exact (proj1 (replaced_poll_inert st_parked (rq 4 "A") 3 "12345" r c (rq 3 "A")
                  reachable_st_parked Hl Hc Ee Hp Hid)).
Defined.

(** ** Joining a room *)

Lemma room_view_broadcast x code e s : room_view x (broadcast code e s) = room_view x s.
Proof.
  unfold broadcast. destruct (mget code (rooms s)); [apply room_view_broadcast_ids|reflexivity].
Qed.

Lemma room_view_push x code id e s : room_view x (push_event code id e s) = room_view x s.
Proof. apply room_view_upd. reflexivity. Qed.

Lemma room_view_register x code cid nm now s r :
  mget code (rooms s) = Some r -> mget cid (clients r) = None ->
  room_view x (register code cid nm now s) =
    if String.eqb x code then Some (app (cview (clients r)) [(cid, now)]) else room_view x s.
Proof.
  intros Hr Hc. unfold room_view, register, set_clientRooms, set_rooms. cbn [rooms].
  destruct (String.eqb_spec x code) as [->|Hne].
  - rewrite mget_mupd_eq, Hr. cbn [option_map clients].
    rewrite (mset_fresh _ _ _ Hc). unfold cview. rewrite map_app. reflexivity.
  - rewrite mget_mupd_neq by exact Hne. reflexivity.
Qed.

(** [POST /api/room/join] with a valid code of an existing room and a fresh
    client id: the client is appended after the current members with
    [lastSeen = now], no other room changes, its session names the room,
    and the last response is the room's snapshot, whose user list is the
    former members' followed by the new client under its display name. *)
Theorem join_appends_member rq cid roomF nameF now s r :
  mget (safeText roomF) (rooms s) = Some r ->
  String.length (safeText roomF) = 5 -> regex_5digits (safeText roomF) = true ->
  mget cid (clients r) = None ->
  let code := safeText roomF in
  let s' := join_handler rq cid roomF nameF now s in
  (forall x, room_view x s' =
     if String.eqb x code then Some (app (cview (clients r)) [(cid, now)]) else room_view x s) /\
  mget cid (clientRooms s') = Some code /\
  exists pre, out s' =
    app pre [(rq, BRoom cid {| sroom := code;
                               susers := app (map user_of_entry (clients r))
                                             [{| uid := cid; uname := or_user (safeText nameF) |}];
                               scount := S (length (clients r)) |})].
Proof.
  intros Hr Hl5 Hre Hc code s'. fold code in Hr, Hl5, Hre.
  set (nm := or_user (safeText nameF)).
  set (s2 := push_event code cid (EJoined code cid)
               (push_event code cid (EHello cid) (register code cid nm now s))).
  assert (Hcond : (String.eqb code "" || negb (Nat.eqb (String.length code) 5)
                   || negb (regex_5digits code)) = false).
  { rewrite Hl5, Hre. destruct code; [discriminate Hl5|reflexivity]. }
  set (us := app (map user_of_entry (clients r)) [{| uid := cid; uname := nm |}]).
  assert (Hsn : roomSnapshot code (rooms s2) =
                Some {| sroom := code; susers := us; scount := length us |}).
  { unfold roomSnapshot, s2, push_event, upd_client, register, set_clientRooms, set_rooms.
    cbn [rooms]. rewrite !mget_mupd_eq, Hr. cbn [option_map clients].
    rewrite !(map_mupd_inv user_of_entry) by reflexivity.
    rewrite (mset_fresh _ _ _ Hc), map_app. reflexivity. }
  assert (Hs' : s' = respond rq (BRoom cid {| sroom := code; susers := us; scount := length us |})
                       (broadcast code (EPresence {| sroom := code; susers := us;
                                                      scount := length us |}) s2)).
  { unfold s', join_handler. fold code. rewrite Hcond, Hr. fold nm. fold s2.
    rewrite Hsn. reflexivity. }
  split; [|split].
  - intros x. rewrite Hs', (room_view_rooms x (broadcast _ _ s2) (respond _ _ _)) by reflexivity.
    rewrite room_view_broadcast. unfold s2. rewrite !room_view_push.
    exact (room_view_register x code cid nm now s r Hr Hc).
  - rewrite Hs'. cbn [respond clientRooms]. rewrite clientRooms_broadcast. apply mget_mset_eq.
  - exists (out (broadcast code (EPresence {| sroom := code; susers := us; scount := length us |}) s2)).
    rewrite Hs'. unfold us. rewrite length_app, length_map. cbn [length].
    rewrite Nat.add_1_r. reflexivity.
Qed.

(** Bo joins Ann's room with the code padded by spaces: Bo comes after Ann. *)
Lemma join_appends_member_witness :
  let r := match mget "12345" (rooms st_one) with Some r => r | None => new_room 0 end in
  mget (safeText (JString " 12345 ")) (rooms st_one) = Some r /\
  String.length (safeText (JString " 12345 ")) = 5 /\
  regex_5digits (safeText (JString " 12345 ")) = true /\
  mget "B" (clients r) = None /\
  room_view "12345" (join_handler (rq 2 "") "B" (JString " 12345 ") (JString "Bo") 70000 st_one) =
    Some [("A", 0%Z); ("B", 70000%Z)].
Proof.
  intros r.
  assert (Hr : mget (safeText (JString " 12345 ")) (rooms st_one) = Some r)
    by (vm_compute; reflexivity).
  assert (H5 : String.length (safeText (JString " 12345 ")) = 5) by (vm_compute; reflexivity).
  assert (Hre : regex_5digits (safeText (JString " 12345 ")) = true) by (vm_compute; reflexivity).
  assert (Hc : mget "B" (clients r) = None) by (vm_compute; reflexivity).
  do 4 (split; [assumption|]).
  rewrite (proj1 (join_appends_member (rq 2 "") "B" (JString " 12345 ") (JString "Bo") 70000
                    st_one r Hr H5 Hre Hc) "12345").
  vm_compute. reflexivity.
Defined.

(** ** Streams against the log of [broadcast] calls *)

Lemma to_room_app code l1 l2 : to_room code (app l1 l2) = app (to_room code l1) (to_room code l2).
Proof. unfold to_room. rewrite filter_app, map_app. reflexivity. Qed.

Lemma glog_refl code c s : glog code c s s [].
Proof. intros H. split; [exact H|rewrite app_nil_r; reflexivity]. Qed.

Lemma glog_trans code c s1 s2 s3 l1 l2 :
  glog code c s1 s2 l1 -> glog code c s2 s3 l2 -> glog code c s1 s3 (app l1 l2).
Proof.
  intros H12 H23 H3. destruct (H23 H3) as [H2 E2]. destruct (H12 H2) as [H1 E1].
  split; [exact H1|]. rewrite E2, E1, app_assoc. reflexivity.
Qed.

Lemma glog_same code c s s' : rooms s' = rooms s -> out s' = out s -> glog code c s s' [].
Proof.
  intros H1 H2 Hm. split.
  - unfold member_of in *. rewrite H1 in Hm. exact Hm.
  - rewrite app_nil_r. apply stream_same; assumption.
Qed.

Lemma glog_respond_nil code c q b s : delivered c q b = [] -> glog code c s (respond q b s) [].
Proof.
  intros H Hm. split; [exact Hm|]. rewrite app_nil_r. apply stream_respond_nil, H.
Qed.

Lemma member_other_room code code' c s :
  SI s -> member_of code c s = true -> code' <> code -> member_of code' c s = false.
Proof.
  intros HS Hm Hne. destruct (member_of code' c s) eqn:E; [|reflexivity].
  apply member_of_Some in E as (r & Hr & Hc).
  exfalso. exact (Hne (member_excl code code' c s r HS Hm Hr Hc)).
Qed.

Lemma glog_broadcast code c code' e s :
  SI s -> glog code c s (broadcast code' e s) (to_room code [(code', e)]).
Proof.
  intros HS Hm. rewrite member_of_broadcast in Hm. split; [exact Hm|].
  rewrite stream_broadcast by exact HS. unfold to_room. cbn [filter fst].
  destruct (String.eqb_spec code' code) as [->|Hne]; [rewrite Hm; reflexivity|].
  rewrite (member_other_room code code' c s HS Hm Hne). reflexivity.
Qed.

Lemma glog_presence code c code' s :
  SI s -> glog code c s (broadcast_presence code' s) (to_room code (presence_log code' s)).
Proof.
  intros HS. unfold broadcast_presence, presence_log.
  destruct (roomSnapshot code' (rooms s)); [apply glog_broadcast, HS|apply glog_refl].
Qed.

Lemma glog_del code0 c code id s : SI s -> glog code0 c s (del_client code id s) [].
Proof.
  intros HS Hm. rewrite app_nil_r.
  destruct (String.eqb_spec code0 code) as [<-|Hne0];
    [destruct (String.eqb_spec c id) as [<-|Hne]|].
  - rewrite member_of_del_self in Hm by exact HS. discriminate.
  - rewrite member_of_del_other in Hm by (right; exact Hne). split; [exact Hm|].
    unfold stream, queue, del_client, set_rooms. cbn [rooms out].
    rewrite lookup_client_mupd; [reflexivity|].
    intros r _. cbn [clients]. apply mget_mdel_neq. exact Hne.
  - rewrite member_of_del_other in Hm by (left; exact Hne0). split; [exact Hm|].
    unfold stream, queue, del_client, set_rooms. cbn [rooms out].
    rewrite lookup_client_mupd; [reflexivity|]. intros r Hr. cbn [clients].
    destruct (String.eqb_spec c id) as [<-|Hne]; [|apply mget_mdel_neq; exact Hne].
    assert (Hn : ~ In c (map fst (clients r))).
    { intros Hin. apply Hne0. symmetry. eapply (member_excl code0 code c s r); eauto. }
    rewrite (proj2 (mget_None _ _) Hn). apply mget_None. intros Hin. apply Hn.
    eapply keys_mdel_incl. exact Hin.
Qed.

Lemma glog_rooms_mdel code0 c code s :
  SI s -> room_size code s = 0 -> glog code0 c s (set_rooms (mdel code) s) [].
Proof.
  intros HS Hsz Hm. rewrite app_nil_r. destruct (String.eqb_spec code0 code) as [<-|Hne].
  - rewrite member_of_rooms_mdel_self in Hm by exact HS. discriminate.
  - rewrite member_of_rooms_mdel_other in Hm by exact Hne. split; [exact Hm|].
    unfold stream, queue. cbn [rooms out set_rooms].
    rewrite lookup_client_mdel_empty; [reflexivity|].
    intros r Hr. unfold room_size in Hsz. rewrite Hr in Hsz.
    destruct (clients r); [reflexivity|discriminate].
Qed.

Lemma glog_del_cancel code0 c code id s :
  SI s -> glog code0 c s (cancel_pending id (del_client code id s)) [].
Proof.
  intros HS. rewrite <- (app_nil_r []). eapply glog_trans; [apply glog_del, HS|].
  apply glog_same; unfold cancel_pending;
    destruct (mget id (pendingPolls (del_client code id s))); reflexivity.
Qed.

Lemma glog_evict now code0 c code id s : WF s -> glog code0 c s (evict_if_stale now code id s) [].
Proof.
  intros HW. unfold evict_if_stale.
  destruct (mget code (rooms s)) as [r|]; [|apply glog_refl].
  destruct (mget id (clients r)) as [cl|]; [|apply glog_refl].
  destruct (Z.gtb (now - lastSeen cl) CLIENT_TIMEOUT_MS); [|apply glog_refl].
  apply glog_del_cancel, (proj1 HW).
Qed.

Lemma glog_evicts now code0 c code ids s :
  WF s -> glog code0 c s (fold_left (fun s id => evict_if_stale now code id s) ids s) [].
Proof.
  revert s. induction ids as [|id ids IH]; simpl; intros s HW; [apply glog_refl|].
  rewrite <- (app_nil_r []). eapply glog_trans; [apply glog_evict, HW|].
  apply IH, W_evict, HW.
Qed.

Lemma W_evicts now code ids s :
  WF s -> WF (fold_left (fun s id => evict_if_stale now code id s) ids s).
Proof.
  revert s. induction ids as [|id ids IH]; simpl; intros s HW; [exact HW|].
  apply IH, W_evict, HW.
Qed.

Lemma glog_sweep now code0 c code s :
  WF s -> glog code0 c s (sweep_room now code s) (to_room code0 (sweep_log now code s)).
Proof.
  intros HW. unfold sweep_room, sweep_log. destruct (mget code (rooms s)) as [r|];
    [|unfold to_room; apply glog_refl].
  pose proof (W_evicts now code (map fst (clients r)) s HW) as HW1.
  pose proof (glog_evicts now code0 c code (map fst (clients r)) s HW) as HG1.
  set (s1 := fold_left _ _ _) in *.
  set (s2 := if Nat.ltb 0 (room_size code s1) then broadcast_presence code s1 else s1).
  assert (HW2 : WF s2)
    by (unfold s2; destruct (Nat.ltb 0 (room_size code s1)); auto using W_broadcast_presence).
  assert (HG2 : glog code0 c s1 s2
                  (to_room code0 (if Nat.ltb 0 (room_size code s1) then presence_log code s1
                                  else []))).
  { unfold s2. destruct (Nat.ltb 0 (room_size code s1));
      [apply glog_presence, (proj1 HW1)|apply glog_refl]. }
  replace (to_room code0 _) with (app [] (app (to_room code0
             (if Nat.ltb 0 (room_size code s1) then presence_log code s1 else [])) []))
    by (rewrite app_nil_r; reflexivity).
  eapply glog_trans; [exact HG1|]. eapply glog_trans; [exact HG2|].
  destruct (Nat.eqb_spec (room_size code s2) 0);
    [apply glog_rooms_mdel; [exact (proj1 HW2)|assumption]|apply glog_refl].
Qed.

Lemma glog_cleanup now code0 c s :
  WF s -> glog code0 c s (cleanup now s) (to_room code0 (sweeps_log now (map fst (rooms s)) s)).
Proof.
  unfold cleanup. generalize (map fst (rooms s)). intros codes. revert s.
  induction codes as [|code codes IH]; simpl; intros s HW; [apply glog_refl|].
  rewrite to_room_app. eapply glog_trans; [apply glog_sweep, HW|]. apply IH, W_sweep, HW.
Qed.

Lemma glog_leave code0 c q cid s :
  WF s -> glog code0 c s (leave_handler q cid s) (to_room code0 (broadcasts_of (OLeave q cid) s)).
Proof.
  intros HW. unfold leave_handler. cbn [broadcasts_of].
  destruct (lookup_session cid s) as [[code r]|];
    [|apply glog_respond_nil; no_delivery].
  set (s1 := cancel_pending cid (set_clientRooms (mdel cid) (del_client code cid s))).
  assert (HW1 : WF s1) by apply W_leave_core, HW.
  assert (G1 : glog code0 c s s1 []).
  { rewrite <- (app_nil_r []). eapply glog_trans; [apply (glog_del code0 c code cid s (proj1 HW))|].
    apply glog_same; unfold s1, cancel_pending;
      destruct (mget cid (pendingPolls (set_clientRooms (mdel cid) (del_client code cid s))));
      reflexivity. }
  rewrite <- (app_nil_r (to_room _ _)). rewrite <- (app_nil_l (app (to_room _ _) [])).
  eapply glog_trans; [exact G1|].
  eapply glog_trans; [|apply glog_respond_nil; no_delivery].
  destruct (Nat.ltb_spec 0 (room_size code s1)).
  - apply glog_presence, (proj1 HW1).
  - apply glog_rooms_mdel; [exact (proj1 HW1)|lia].
Qed.

Lemma join_state_eq cid R nm now s r :
  mget R (rooms s) = Some r -> mget cid (clients r) = None ->
  push_event R cid (EJoined R cid) (push_event R cid (EHello cid) (register R cid nm now s)) =
  mkState (mupd R (fun _ => {| clients := app (clients r)
                                 [(cid, {| name := nm; lastSeen := now;
                                           events := [EHello cid; EJoined R cid] |})];
                               createdAt := createdAt r |}) (rooms s))
          (pendingPolls s) (timers s) (mset cid R (clientRooms s)) (out s).
Proof.
  intros Hget Hcid.
  unfold register, push_event, upd_client, set_rooms, set_clientRooms.
  cbn [rooms pendingPolls timers clientRooms out].
  rewrite !mupd_mupd. rewrite (mupd_const _ _ _ _ Hget). cbn beta. cbn [clients createdAt].
  rewrite (mset_fresh _ _ _ Hcid), mupd_app_fresh by exact Hcid. cbn.
  rewrite String.eqb_refl. cbn. rewrite mupd_app_fresh by exact Hcid. cbn.
  rewrite String.eqb_refl. cbn. reflexivity.
Qed.

Lemma stream_create_member c code0 q cid nameF roomF rnd now s :
  SI s -> member_of code0 c s = true ->
  stream c (create_handler q cid nameF roomF rnd now s) = stream c s.
Proof.
  intros HS Hm.
  destruct (createRoom (safeText roomF) rnd now (rooms s)) as [msg|[code rs]] eqn:Hcr.
  - unfold create_handler. rewrite Hcr. apply stream_respond_nil. no_delivery.
  - rewrite (create_handler_ok _ _ _ _ _ _ _ _ _ Hcr). cbv zeta.
    destruct (member_of_Some _ _ _ Hm) as (r & Hr & Hc).
    destruct (mget_keys_Some _ _ Hc) as [cl Hcl].
    pose proof (lookup_client_member c code0 (rooms s) r (proj1 HS) Hr Hc) as Hl.
    rewrite Hcl in Hl.
    unfold stream, queue. cbn [rooms out]. rewrite lookup_client_app, Hl, received_app.
    unfold delivered. destruct (String.eqb _ _); rewrite app_nil_r; reflexivity.
Qed.

(** One operation appends to the stream of a member [c] of [code] that is
    still one afterwards exactly the events it broadcasts to [code]. *)
Ltac nodel := unfold delivered; destruct (String.eqb (rcid _) _); reflexivity.

Lemma stream_step_log code c o s :
  WF s -> fresh_op o s -> member_of code c s = true -> member_of code c (step o s) = true ->
  stream c (step o s) = app (stream c s) (to_room code (broadcasts_of o s)).
Proof.
  intros HW Hf Hm Hm'.
  destruct o as [q cid nameF roomF rnd now|q cid roomF nameF now|q cid|q cid textF now
                |q now|q|q|now]; cbn [step broadcasts_of fresh_op] in *;
    try (unfold to_room; cbn [filter map]; rewrite app_nil_r).
  - exact (stream_create_member c code q cid nameF roomF rnd now s (proj1 HW) Hm).
  - unfold join_handler in *. cbv zeta in *.
    destruct (String.eqb (safeText roomF) "" || negb (Nat.eqb (String.length (safeText roomF)) 5)
              || negb (regex_5digits (safeText roomF))) eqn:Hcond;
      [unfold to_room; cbn [filter map]; rewrite app_nil_r;
       apply stream_respond_nil; nodel|].
    destruct (mget (safeText roomF) (rooms s)) as [r|] eqn:Hget;
      [|unfold to_room; cbn [filter map]; rewrite app_nil_r;
        apply stream_respond_nil; nodel].
    assert (Hcid : mget cid (clients r) = None).
    { apply mget_None. intros Hin. apply Hf. exists (safeText roomF), r.
      split; [apply mget_In; exact Hget|exact Hin]. }
    assert (Hne : c <> cid).
    { intros ->. apply Hf. destruct (member_of_Some _ _ _ Hm) as (r0 & Hr0 & Hc0).
      exists code, r0. split; [apply mget_In; exact Hr0|exact Hc0]. }
    rewrite (join_state_eq cid (safeText roomF) _ now s r Hget Hcid) in *.
    match goal with |- context [roomSnapshot _ (rooms ?x)] => set (s2 := x) in * end.
    assert (HW2 : WF s2) by (apply WF_join_state; assumption).
    destruct (roomSnapshot (safeText roomF) (rooms s2)) as [sn|].
    + rewrite stream_respond_nil in * by nodel.
      destruct (glog_broadcast code c (safeText roomF) (EPresence sn) s2 (proj1 HW2) Hm')
        as [_ E]. rewrite E. unfold s2. rewrite stream_join_state by assumption. reflexivity.
    + unfold to_room; cbn [filter map]; rewrite app_nil_r.
      rewrite stream_respond_nil by nodel. unfold s2.
      apply stream_join_state; assumption.
  - exact (proj2 (glog_leave code c q cid s HW Hm')).
  - unfold send_handler in *. cbv zeta in *.
    destruct (String.eqb (safeText textF) "");
      [unfold to_room; cbn [filter map]; rewrite app_nil_r;
       apply stream_respond_nil; nodel|].
    destruct (lookup_session cid s) as [[code' r]|];
      [|unfold to_room; cbn [filter map]; rewrite app_nil_r;
        apply stream_respond_nil; nodel].
    destruct (mget cid (clients r)) as [cl|];
      [|unfold to_room; cbn [filter map]; rewrite app_nil_r;
        apply stream_respond_nil; nodel].
    rewrite stream_respond_nil by nodel.
    exact (proj2 (glog_broadcast code c code' _ s (proj1 HW) Hm')).
  - apply stream_poll, (proj1 HW).
  - unfold poll_timeout.
    destruct (existsb (req_eqb q) (timers s)); [|reflexivity].
    rewrite stream_respond_nil by nodel. apply stream_same; reflexivity.
  - unfold poll_close.
    destruct (mget (rcid q) (pendingPolls s)) as [p|]; [|reflexivity].
    destruct (req_eqb p q); [apply stream_same|]; reflexivity.
  - exact (proj2 (glog_cleanup now code c s HW Hm')).
Qed.

Lemma stream_run_log code c ops s :
  WF s -> fresh_run s ops -> member_of code c s = true -> stays code c s ops ->
  stream c (run ops s) = app (stream c s) (to_room code (broadcasts_run ops s)).
Proof.
  revert s. induction ops as [|o ops IH]; cbn [run broadcasts_run]; intros s HW Hf Hm Hs.
  - unfold to_room. cbn. rewrite app_nil_r. reflexivity.
  - destruct Hf as [Hf1 Hfs]. destruct Hs as [Hm1 Hss].
    rewrite (IH (step o s) (W_step o s HW Hf1) Hfs Hm1 Hss).
    rewrite (stream_step_log code c o s HW Hf1 Hm Hm1), to_room_app, app_assoc. reflexivity.
Qed.

(** ** C1: broadcast order *)

(** C1: for a member [c] of room [code], what [c] has been sent followed by
    what waits in its queue (its stream) grows, over any run in which [c]
    stays a member, by exactly the events broadcast to [code], in the order
    of the [broadcast] calls: those of send, those that join and leave make
    once the member list has changed, and those of the reaper.  A poll
    answered with events hands over the queue in FIFO order and empties it,
    and a poll never changes [c]'s stream, so the events [c] receives across
    its polls come in broadcast order. *)
Theorem broadcast_order_preserved s code c :
  reachable s -> member_of code c s = true ->
  (forall ops, fresh_run s ops -> stays code c s ops ->
     stream c (run ops s) = app (stream c s) (to_room code (broadcasts_run ops s))) /\
  (forall q now evs,
     rcid q = c -> out (poll_handler q now s) = app (out s) [(q, BEvents evs)] -> evs <> [] ->
     evs = queue c s /\ queue c (poll_handler q now s) = [] /\
     stream c (poll_handler q now s) = stream c s).
Proof.
  intros Hr Hm. pose proof (reachable_WF s Hr) as HW. split.
  - intros ops Hf Hs. exact (stream_run_log code c ops s HW Hf Hm Hs).
  - intros q now evs Hq Ho Hne. subst c.
    destruct (poll_drains q now s evs (proj1 HW) Ho Hne) as [E1 E2].
    split; [exact E1|split; [exact E2|]]. apply stream_poll, (proj1 HW).
Qed.

(** Bo joins Ann's room, sends a message, the reaper runs (evicting
    nobody), Bo leaves: Ann's stream gains the four broadcast events, among
    them the three [presence] events made inside join, cleanup and leave. *)
Lemma broadcast_order_preserved_witness :
  let ops := [OJoin (rq 2 "") "B" (JString "12345") (JString "Bo") 5;
              OSend (rq 3 "") "B" (JString "hi") 6; OSweep 7; OLeave (rq 4 "") "B"] in
  reachable st_one /\ member_of "12345" "A" st_one = true /\
  fresh_run st_one ops /\ stays "12345" "A" st_one ops /\
  stream "A" (run ops st_one) = app (stream "A" st_one) (to_room "12345" (broadcasts_run ops st_one)) /\
  length (to_room "12345" (broadcasts_run ops st_one)) = 4.
Proof.
  intros ops.
  assert (Hr : reachable st_one).
  { refine (reach_step (OCreate (rq 1 "") "A" (JString "Ann") (JString "12345") rnd_ones 0)
              init reach_init _).
    intros (code & r & [] & _). }
  assert (Hm : member_of "12345" "A" st_one = true) by (vm_compute; reflexivity).
  assert (Hf : fresh_run st_one ops).
  { split; [|exact (conj I (conj I (conj I I)))].
    intros (code & r & Hin & Hc). vm_compute in Hin.
    destruct Hin as [E|[]]. injection E as <- <-. vm_compute in Hc.
    destruct Hc as [E|[]]. discriminate E. }
  assert (Hs : stays "12345" "A" st_one ops)
    by (vm_compute; repeat split).
  split; [exact Hr|]. split; [exact Hm|]. split; [exact Hf|]. split; [exact Hs|].
  split; [exact (proj1 (broadcast_order_preserved st_one "12345" "A" Hr Hm) ops Hf Hs)|].
  vm_compute. reflexivity.
Defined.

(** ** C8: rosters while nobody leaves *)

Lemma createRoom_regex q rnd now rs code rs' :
  (forall n, rnd n < 10) -> createRoom q rnd now rs = inr (code, rs') -> regex_5digits code = true.
Proof.
  intros Hd Hcr. destruct (createRoom_inr _ _ _ _ _ _ Hcr) as (_ & _ & Hq & He).
  destruct (String.eqb_spec q "") as [Eq|Eq].
  - destruct (He Eq) as [j ->]. apply makeRoomCode_5digits, Hd.
  - destruct (Hq Eq) as [-> Hr]. exact Hr.
Qed.

Lemma room_ids_view R s : room_ids R s = option_map (map fst) (room_view R s).
Proof.
  unfold room_ids, roster, room_view. destruct (mget R (rooms s)) as [r|]; [|reflexivity].
  cbn [option_map]. unfold roster_of, cview. rewrite !map_map. reflexivity.
Qed.

Lemma NoDup_fst_inj {A B} (l : list (A * B)) p p' :
  NoDup (map fst l) -> In p l -> In p' l -> fst p = fst p' -> p = p'.
Proof.
  induction l as [|a l IH]; [intros _ []|]. cbn [map]. intros Hnd Hp Hp' E.
  apply NoDup_cons_iff in Hnd as [Hna Hnd].
  destruct Hp as [<-|Hp], Hp' as [<-|Hp']; auto.
  - exfalso. apply Hna. rewrite E. apply in_map, Hp'.
  - exfalso. apply Hna. rewrite <- E. apply in_map, Hp.
Qed.

Lemma room_view_leave x q cid s :
  WF s ->
  room_view x (leave_handler q cid s) =
    match lookup_session cid s with
    | Some (code, r) =>
        if String.eqb x code
        then match filter (fun p => negb (String.eqb cid (fst p))) (cview (clients r)) with
             | [] => None
             | p :: l => Some (p :: l)
             end
        else room_view x s
    | None => room_view x s
    end.
Proof.
  intros HW. unfold leave_handler.
  destruct (lookup_session cid s) as [[code r]|] eqn:Hl; [|reflexivity].
  pose proof (lookup_session_Some _ _ _ _ Hl) as (_ & _ & Hr).
  set (s1 := cancel_pending cid (set_clientRooms (mdel cid) (del_client code cid s))).
  assert (HW1 : WF s1) by exact (W_leave_core code cid s HW).
  set (l := filter (fun p => negb (String.eqb cid (fst p))) (cview (clients r))).
  assert (Hv1 : forall y, room_view y s1 = if String.eqb y code then Some l else room_view y s).
  { intros y. unfold s1. rewrite room_view_cancel.
    rewrite (room_view_rooms y (del_client code cid s)) by reflexivity.
    rewrite room_view_del by exact (proj1 HW).
    destruct (String.eqb y code); [|reflexivity]. unfold room_view. rewrite Hr. reflexivity. }
  assert (Hsz : room_size code s1 = length l)
    by (rewrite room_size_view, Hv1, String.eqb_refl; reflexivity).
  match goal with |- room_view x (respond _ _ ?y) = _ =>
    rewrite (room_view_rooms x y (respond q BOk y)) by reflexivity end.
  rewrite Hsz.
  destruct (Nat.ltb_spec 0 (length l)).
  - rewrite room_view_broadcast_presence, Hv1.
    destruct (String.eqb x code); [|reflexivity]. destruct l; [cbn in *; lia|reflexivity].
  - rewrite room_view_rooms_mdel by exact (proj1 HW1).
    destruct (String.eqb_spec x code) as [->|Hx].
    + destruct l; [reflexivity|cbn in *; lia].
    + rewrite Hv1. rewrite (proj2 (String.eqb_neq _ _) Hx). reflexivity.
Qed.

Lemma room_view_cleanup now s code :
  WF s -> room_view code (cleanup now s) = swept_view now (room_view code s).
Proof.
  intros HW. unfold cleanup. rewrite room_view_sweeps by exact HW.
  destruct (existsb (String.eqb code) (map fst (rooms s))) eqn:E; [reflexivity|].
  unfold room_view. replace (mget code (rooms s)) with (@None room); [reflexivity|].
  symmetry. apply mget_None. intros Hin.
  assert (existsb (String.eqb code) (map fst (rooms s)) = true)
    by (apply existsb_exists; exists code; split; [exact Hin|apply String.eqb_refl]).
  congruence.
Qed.

Lemma room_view_keys_NoDup R s v : WF s -> room_view R s = Some v -> NoDup (map fst v).
Proof.
  intros HW Hv. unfold room_view in Hv. destruct (mget R (rooms s)) as [r|] eqn:Hr; [|discriminate].
  injection Hv as <-. unfold cview. rewrite map_map. exact (SI_room_NoDup s R r (proj1 HW) Hr).
Qed.

(** A leave or a sweep that removes no member of [R] leaves [R]'s member
    view as it is. *)
Lemma room_view_removing_keeps R o s v :
  WF s -> removes o = true -> keeps_members R o s ->
  room_view R s = Some v -> v <> [] -> room_view R (step o s) = Some v.
Proof.
  intros HW Hrem Hk Hv Hne.
  assert (Hmem : forall id, In id (map fst v) -> exists l,
             room_view R (step o s) = Some l /\ In id (map fst l)).
  { intros id Hid. apply member_of_view, Hk, member_of_view. eauto. }
  destruct o as [| |q cid| | | | |now]; try discriminate Hrem; cbn [step] in *.
  - rewrite room_view_leave by exact HW.
    destruct (lookup_session cid s) as [[code r]|] eqn:Hl; [|exact Hv].
    pose proof (lookup_session_Some _ _ _ _ Hl) as (_ & _ & Hr).
    assert (Hleave := room_view_leave R q cid s HW). rewrite Hl in Hleave.
    destruct (String.eqb_spec R code) as [->|Hx]; [|exact Hv].
    assert (Ev : cview (clients r) = v) by (unfold room_view in Hv; rewrite Hr in Hv;
                                              injection Hv as Hv; exact Hv).
    rewrite Ev in *.
    assert (Hcid : ~ In cid (map fst v)).
    { intros Hin. destruct (Hmem cid Hin) as (l' & Hl' & Hin').
      rewrite Hleave in Hl'. rewrite ?String.eqb_refl in Hl'.
      assert (Hf : In cid (map fst (filter (fun p => negb (String.eqb cid (fst p))) v))).
      { destruct (filter _ v); [discriminate Hl'|injection Hl' as <-; exact Hin']. }
      apply in_map_iff in Hf as (p & Ep & Hp). apply filter_In in Hp as [_ Hp].
      rewrite Ep, String.eqb_refl in Hp. discriminate Hp. }
    rewrite filter_all.
    + destruct v; [contradiction|reflexivity].
    + intros p Hp. destruct (String.eqb_spec cid (fst p)) as [E|]; [|reflexivity].
      exfalso. apply Hcid. rewrite E. apply in_map, Hp.
  - rewrite room_view_cleanup by exact HW. rewrite Hv. cbn [swept_view].
    pose proof (room_view_keys_NoDup R s v HW Hv) as Hnd.
    rewrite filter_all; [destruct v; [contradiction|reflexivity]|].
    intros p Hp. destruct (Hmem (fst p) (in_map _ _ _ Hp)) as (l' & Hl' & Hin').
    rewrite room_view_cleanup, Hv in Hl' by exact HW. cbn [swept_view] in Hl'.
    assert (Hf : In (fst p) (map fst (filter (fun p => negb (stale now p)) v))).
    { destruct (filter _ v); [discriminate Hl'|injection Hl' as <-; exact Hin']. }
    apply in_map_iff in Hf as (p' & Ep & Hp'). apply filter_In in Hp' as [Hp' Hs].
    rewrite <- (NoDup_fst_inj v p' p Hnd Hp' Hp Ep). exact Hs.
Qed.

Lemma room_ids_step R o s I :
  WF s -> fresh_op o s -> keeps_members R o s -> regex_5digits R = true ->
  room_ids R s = Some I -> I <> [] ->
  room_ids R (step o s) = Some (app I (joiners R [o])).
Proof.
  intros HW Hf Hk HR HI Hne.
  destruct (removes o) eqn:Hrem.
  - assert (Hj : joiners R [o] = []) by (destruct o; try discriminate Hrem; reflexivity).
    rewrite Hj, app_nil_r. rewrite room_ids_view in *.
    destruct (room_view R s) as [v|] eqn:Hv; [|discriminate HI].
    injection HI as <-.
    rewrite (room_view_removing_keeps R o s v HW Hrem Hk Hv);
      [reflexivity|intros ->; apply Hne; reflexivity].
  - unfold room_ids in *. destruct (roster R s) as [L|] eqn:HL; [|discriminate HI].
    injection HI as <-.
    destruct (roster_step o s R L Hrem HR HL) as (L' & HL' & Hu').
    { intros rq0 cid roomF nameF now -> HeqR Hin. cbn [fresh_op] in Hf. apply Hf.
      unfold roster in HL. destruct (mget R (rooms s)) as [r|] eqn:Hr; [|discriminate HL].
      injection HL as <-. rewrite uids_roster_of in Hin.
      exists R, r. split; [apply mget_In; exact Hr|exact Hin]. }
    rewrite HL'. cbn [option_map]. rewrite map_app, Hu'. reflexivity.
Qed.

Lemma room_ids_run R ops s I :
  WF s -> fresh_run s ops -> keeps R s ops -> regex_5digits R = true ->
  room_ids R s = Some I -> I <> [] ->
  room_ids R (run ops s) = Some (app I (joiners R ops)).
Proof.
  revert s I. induction ops as [|o ops IH]; cbn [run]; intros s I HW Hf Hk HR HI Hne.
  - rewrite app_nil_r. exact HI.
  - destruct Hf as [Hf1 Hfs]. destruct Hk as [Hk1 Hks].
    assert (Hj : joiners R (o :: ops) = app (joiners R [o]) (joiners R ops))
      by (cbn [joiners flat_map]; rewrite app_nil_r; reflexivity).
    rewrite Hj, app_assoc.
    apply (IH (step o s) _ (W_step o s HW Hf1) Hfs Hks HR
             (room_ids_step R o s I HW Hf1 Hk1 HR HI Hne)).
    destruct I; [contradiction|discriminate].
Qed.

(** C8: after a create that opens room [R] (with the code asked for or a
    random one) and any run in which no member of [R] is removed (no leave
    from [R], no eviction from [R]; other rooms, sweeps that evict nobody
    from [R] and leaves from elsewhere are allowed), the snapshot of [R]
    lists the creator and then every client whose join aimed at [R], in
    join order, without duplicates, and counts them.  Create and join
    answer with the very snapshot that they queue, resp. broadcast, as
    [presence]. *)
Theorem presence_snapshot_after_joins R rq0 c0 nameF roomF rnd t0 rs ops s :
  reachable s -> (forall n, rnd n < 10) ->
  createRoom (safeText roomF) rnd t0 (rooms s) = inr (R, rs) ->
  ~ in_some_room c0 (rooms s) ->
  fresh_run (step (OCreate rq0 c0 nameF roomF rnd t0) s) ops ->
  keeps R (step (OCreate rq0 c0 nameF roomF rnd t0) s) ops ->
  (exists sn,
     roomSnapshot R (rooms (run (OCreate rq0 c0 nameF roomF rnd t0 :: ops) s)) = Some sn /\
     map uid (susers sn) = c0 :: joiners R ops /\
     scount sn = S (length (joiners R ops)) /\
     NoDup (map uid (susers sn))) /\
  (forall rq cid nameF' roomF' rnd' now s0 code rs',
     createRoom (safeText roomF') rnd' now (rooms s0) = inr (code, rs') ->
     exists sn s2, create_handler rq cid nameF' roomF' rnd' now s0
                   = respond rq (BRoom cid sn) (push_event code cid (EPresence sn) s2)
                   /\ roomSnapshot code (rooms s2) = Some sn) /\
  (forall rq cid roomF' nameF' now s0 r,
     regex_5digits (safeText roomF') = true -> mget (safeText roomF') (rooms s0) = Some r ->
     mget cid (clients r) = None ->
     exists sn s2, join_handler rq cid roomF' nameF' now s0
                   = respond rq (BRoom cid sn) (broadcast (safeText roomF') (EPresence sn) s2)
                   /\ roomSnapshot (safeText roomF') (rooms s2) = Some sn).
Proof.
  intros Hreach Hd Hcr Hc0 Hf Hk. split; [|split].
  - set (o0 := OCreate rq0 c0 nameF roomF rnd t0).
    pose proof (createRoom_regex _ _ _ _ _ _ Hd Hcr) as HR.
    pose proof (createRoom_inr _ _ _ _ _ _ Hcr) as (Hrs & Hnone & _). subst rs.
    assert (HW1 : WF (step o0 s)) by (apply W_step; [exact (reachable_WF s Hreach)|exact Hc0]).
    assert (HL : room_ids R (step o0 s) = Some [c0]).
    { unfold o0. cbn [step]. rewrite (create_handler_ok _ _ _ _ _ _ _ _ _ Hcr).
      unfold room_ids, roster. cbn [rooms].
      rewrite mget_app, Hnone. cbn. rewrite String.eqb_refl. reflexivity. }
    pose proof (room_ids_run R ops (step o0 s) [c0] HW1 Hf Hk HR HL ltac:(discriminate)) as HI.
    pose proof (W_run ops (step o0 s) HW1 Hf) as HWn.
    cbn [run]. fold o0. rewrite roomSnapshot_roster.
    unfold room_ids in HI. destruct (roster R (run ops (step o0 s))) as [L|] eqn:HLn;
      [|discriminate HI]. injection HI as HI.
    eexists. split; [reflexivity|]. cbn [susers scount]. rewrite HI.
    split; [reflexivity|]. split; [rewrite <- (length_map uid), HI; reflexivity|].
    rewrite <- HI. unfold roster in HLn.
    destruct (mget R (rooms (run ops (step o0 s)))) as [r|] eqn:Hr; [|discriminate HLn].
    injection HLn as <-. rewrite uids_roster_of. exact (SI_room_NoDup _ R r (proj1 HWn) Hr).
  - intros rq cid nameF' roomF' rnd' now s0 code rs' Hcr'.
    pose proof (createRoom_inr _ _ _ _ _ _ Hcr') as (-> & Hfresh & _).
    unfold create_handler. rewrite Hcr'. cbv zeta.
    match goal with |- context [match roomSnapshot code (rooms ?x) with _ => _ end] =>
      set (s2 := x) end.
    destruct (roomSnapshot code (rooms s2)) as [sn|] eqn:E; [eauto|exfalso].
    unfold roomSnapshot, s2, push_event, upd_client, register, set_rooms, set_clientRooms in E.
    cbn [rooms] in E. rewrite !mget_mupd_eq, mget_app, Hfresh in E. cbn in E.
    rewrite String.eqb_refl in E. discriminate E.
  - intros rq cid roomF' nameF' now s0 r Hrx Hget Hcid.
    rewrite (join_handler_ok _ _ _ _ _ _ _ Hrx Hget Hcid). cbv zeta.
    do 2 eexists. split; [reflexivity|].
    unfold roomSnapshot. cbn [rooms]. rewrite mget_mupd_eq, Hget. reflexivity.
Qed.

(** Ann creates a room without asking for a code and gets the random code
    11111; Bo joins it, Cy creates room 22222, the reaper runs (evicting
    nobody) and Cy leaves 22222: the snapshot of 11111 lists Ann then Bo. *)
Lemma presence_snapshot_after_joins_witness :
  let o0 := OCreate (rq 1 "") "A" (JString "Ann") JMissing rnd_ones 0 in
  let ops := [OJoin (rq 2 "") "B" (JString "11111") (JString "Bo") 5;
              OCreate (rq 3 "") "C" (JString "Cy") (JString "22222") rnd_ones 6;
              OSweep 7; OLeave (rq 4 "") "C"] in
  (exists rs, createRoom (safeText JMissing) rnd_ones 0 (rooms init) = inr ("11111", rs)) /\
  fresh_run (step o0 init) ops /\ keeps "11111" (step o0 init) ops /\
  exists sn, roomSnapshot "11111" (rooms (run (o0 :: ops) init)) = Some sn /\
             map uid (susers sn) = ["A"; "B"] /\ scount sn = 2.
Proof.
  intros o0 ops.
  assert (Hcr : exists rs, createRoom (safeText JMissing) rnd_ones 0 (rooms init)
                           = inr ("11111", rs)) by (eexists; vm_compute; reflexivity).
  assert (Hd : forall n, rnd_ones n < 10) by (intros n; unfold rnd_ones; lia).
  assert (Hc0 : ~ in_some_room "A" (rooms init)) by (intros (code & r & [] & _)).
  assert (Hf : fresh_run (step o0 init) ops).
  { subst o0 ops. cbn [fresh_run fresh_op].
    split; [|split; [|exact (conj I (conj I I))]];
      intros (code & r & Hin & Hc); vm_compute in Hin;
      repeat (destruct Hin as [E|Hin]; [injection E as <- <-; vm_compute in Hc;
                                        repeat (destruct Hc as [E'|Hc]; [discriminate E'|]);
                                        destruct Hc|]);
      destruct Hin. }
  assert (Hk : keeps "11111" (step o0 init) ops).
  { subst o0 ops. cbn [keeps]. repeat split;
      intros id Hm; apply member_of_Some in Hm as (r & Hr & Hin); vm_compute in Hr;
      injection Hr as <-; vm_compute in Hin;
      repeat (destruct Hin as [<-|Hin]; [vm_compute; reflexivity|]); destruct Hin. }
  split; [exact Hcr|]. split; [exact Hf|]. split; [exact Hk|].
  destruct Hcr as [rs Hcr].
  destruct (proj1 (presence_snapshot_after_joins "11111" (rq 1 "") "A" (JString "Ann") JMissing
                     rnd_ones 0 rs ops init reach_init Hd Hcr Hc0 Hf Hk))
    as (sn & Hsn & Hu & Hcnt & _).
  exists sn. split; [exact Hsn|]. split; [rewrite Hu; vm_compute; reflexivity|].
  rewrite Hcnt. vm_compute. reflexivity.
Defined.
